(** * The tiered cache of [core/cache.py]

    A shallow embedding of [CacheEntry], [MemoryCache], [PersistentCache] and
    [CacheManager] (with its memoizing decorator), followed by the properties
    the cache design document states about them.

    Conventions of the embedding.
    - A Python [str] is a Rocq [string] whose characters are the code points
      below 256. Values are the Python values of [pyval]; floating-point
      numbers are left out.
    - [time.time()] is an integer number of clock ticks (seconds). Every
      method receives the reading [now] of the clock at the moment it runs,
      and the successive readings inside one method call coincide. The
      memoizing wrapper receives two readings, one for the lookup and one for
      the moment the decorated function has returned and its result is stored.
    - Mutable objects are threaded explicitly: every method returns its result
      together with the updated object. A [dict] is the list of its items in
      insertion order.
    - The directory of the persistent tier is a finite map from file names to
      file contents. The disk itself never fails: opening, writing and
      deleting a file succeed.
    - Methods run one at a time: locks and the background sweeper thread are
      not part of the model. *)

From Stdlib Require Import ZArith List String Ascii Lia Bool.
From Stdlib Require OrderedTypeEx.
From stdpp Require Import gmap strings list fin_maps pretty sorting.
Import ListNotations.

Local Open Scope Z_scope.

(** ** Bytes, UTF-8 and MD5 ([str.encode], [hashlib.md5]) *)

Module Md5.

Definition mask32 : Z := 0xffffffff.

Definition add32 (a b : Z) : Z := Z.land (a + b) mask32.

Definition not32 (a : Z) : Z := Z.lxor a mask32.

Definition rotl32 (x s : Z) : Z :=
  Z.land (Z.lor (Z.shiftl x s) (Z.shiftr x (32 - s))) mask32.

Definition shifts : list Z :=
  [ 7; 12; 17; 22; 7; 12; 17; 22; 7; 12; 17; 22; 7; 12; 17; 22;
    5; 9; 14; 20; 5; 9; 14; 20; 5; 9; 14; 20; 5; 9; 14; 20;
    4; 11; 16; 23; 4; 11; 16; 23; 4; 11; 16; 23; 4; 11; 16; 23;
    6; 10; 15; 21; 6; 10; 15; 21; 6; 10; 15; 21; 6; 10; 15; 21 ].

(** [floor (2^32 * abs (sin (i + 1)))] for [i = 0 .. 63]. *)
Definition sines : list Z :=
  [ 0xd76aa478; 0xe8c7b756; 0x242070db; 0xc1bdceee;
    0xf57c0faf; 0x4787c62a; 0xa8304613; 0xfd469501;
    0x698098d8; 0x8b44f7af; 0xffff5bb1; 0x895cd7be;
    0x6b901122; 0xfd987193; 0xa679438e; 0x49b40821;
    0xf61e2562; 0xc040b340; 0x265e5a51; 0xe9b6c7aa;
    0xd62f105d; 0x02441453; 0xd8a1e681; 0xe7d3fbc8;
    0x21e1cde6; 0xc33707d6; 0xf4d50d87; 0x455a14ed;
    0xa9e3e905; 0xfcefa3f8; 0x676f02d9; 0x8d2a4c8a;
    0xfffa3942; 0x8771f681; 0x6d9d6122; 0xfde5380c;
    0xa4beea44; 0x4bdecfa9; 0xf6bb4b60; 0xbebfbc70;
    0x289b7ec6; 0xeaa127fa; 0xd4ef3085; 0x04881d05;
    0xd9d4d039; 0xe6db99e5; 0x1fa27cf8; 0xc4ac5665;
    0xf4292244; 0x432aff97; 0xab9423a7; 0xfc93a039;
    0x655b59c3; 0x8f0ccc92; 0xffeff47d; 0x85845dd1;
    0x6fa87e4f; 0xfe2ce6e0; 0xa3014314; 0x4e0811a1;
    0xf7537e82; 0xbd3af235; 0x2ad7d2bb; 0xeb86d391 ].

(** Little-endian bytes of a word, and back. *)
Fixpoint le_bytes (n : nat) (w : Z) : list Z :=
  match n with
  | O => []
  | S n' => Z.land w 0xff :: le_bytes n' (Z.shiftr w 8)
  end.

Fixpoint le_word (bs : list Z) : Z :=
  match bs with
  | [] => 0
  | b :: bs' => Z.lor b (Z.shiftl (le_word bs') 8)
  end.

(** The message followed by 0x80, zeros up to 56 modulo 64, and the bit
    length on eight bytes. *)
Definition pad (msg : list Z) : list Z :=
  let len := Z.of_nat (List.length msg) in
  let zeros := Z.to_nat ((55 - len) mod 64) in
  msg ++ [0x80] ++ List.repeat 0 zeros ++ le_bytes 8 (Z.land (8 * len) 0xffffffffffffffff).

Fixpoint chunks (fuel : nat) (n : nat) (bs : list Z) : list (list Z) :=
  match fuel, bs with
  | O, _ | _, [] => []
  | S fuel', _ => List.firstn n bs :: chunks fuel' n (List.skipn n bs)
  end.

Definition words_of_block (block : list Z) : list Z :=
  List.map le_word (chunks 16 4 block).

Record regs := Regs { rA : Z; rB : Z; rC : Z; rD : Z }.

Definition round (M : list Z) (r : regs) (i : Z) : regs :=
  let '(Regs A B C D) := r in
  let '(F, g) :=
    if i <? 16 then (Z.lor (Z.land B C) (Z.land (not32 B) D), i)
    else if i <? 32 then (Z.lor (Z.land D B) (Z.land (not32 D) C), (5 * i + 1) mod 16)
    else if i <? 48 then (Z.lxor (Z.lxor B C) D, (3 * i + 5) mod 16)
    else (Z.lxor C (Z.lor B (not32 D)), (7 * i) mod 16) in
  let F' := add32 (add32 (add32 F A) (List.nth (Z.to_nat i) sines 0))
                  (List.nth (Z.to_nat g) M 0) in
  Regs D (add32 B (rotl32 F' (List.nth (Z.to_nat i) shifts 0))) B C.

Definition process_block (r : regs) (block : list Z) : regs :=
  let M := words_of_block block in
  let r' := List.fold_left (round M) (List.map Z.of_nat (List.seq 0 64)) r in
  Regs (add32 (rA r) (rA r')) (add32 (rB r) (rB r'))
       (add32 (rC r) (rC r')) (add32 (rD r) (rD r')).

Definition init : regs := Regs 0x67452301 0xefcdab89 0x98badcfe 0x10325476.

Definition digest (msg : list Z) : list Z :=
  let padded := pad msg in
  let r := List.fold_left process_block (chunks (List.length padded) 64 padded) init in
  le_bytes 4 (rA r) ++ le_bytes 4 (rB r) ++ le_bytes 4 (rC r) ++ le_bytes 4 (rD r).

Definition hex_digit (d : Z) : ascii :=
  ascii_of_nat (Z.to_nat (if d <? 10 then 48 + d else 87 + d)).

Fixpoint hex (bs : list Z) : string :=
  match bs with
  | [] => EmptyString
  | b :: bs' => String (hex_digit (Z.shiftr b 4)) (String (hex_digit (Z.land b 0xf)) (hex bs'))
  end.

(** [s.encode()]: the UTF-8 bytes of the code points of [s]. *)
Fixpoint encode (s : string) : list Z :=
  match s with
  | EmptyString => []
  | String c s' =>
      let n := Z.of_nat (nat_of_ascii c) in
      if n <? 0x80 then n :: encode s'
      else Z.lor 0xc0 (Z.shiftr n 6) :: Z.lor 0x80 (Z.land n 0x3f) :: encode s'
  end.

(** [hashlib.md5(s.encode()).hexdigest()]. *)
Definition hexdigest (s : string) : string := hex (digest (encode s)).

End Md5.

(** ** Python values, exceptions *)

#[local] Set Warnings "-register-all".

(** The values that reach the cache: [None], booleans, integers, strings,
    lists, tuples, dictionaries (their items in insertion order, keys pairwise
    distinct), and objects of any other class, of which the model keeps what
    [str] returns and whether [pickle] accepts them. *)
Inductive pyval : Type :=
| VNone
| VBool (b : bool)
| VInt (n : Z)
| VStr (s : string)
| VList (l : list pyval)
| VTuple (l : list pyval)
| VDict (items : list (pyval * pyval))
| VObj (repr : string) (can_pickle : bool).

Inductive exn : Type := TypeError | PicklingError | UnpicklingError.

Inductive result (A : Type) : Type :=
| Ok (a : A)
| Raise (e : exn).
Arguments Ok {A} a.
Arguments Raise {A} e.

#[global] Instance result_ret : MRet result := fun A a => Ok a.

#[global] Instance result_bind : MBind result := fun A B k r =>
  match r with
  | Ok a => k a
  | Raise e => Raise e
  end.

Fixpoint sequence {A : Type} (l : list (result A)) : result (list A) :=
  match l with
  | [] => Ok []
  | r :: l' => x ← r; xs ← sequence l'; Ok (x :: xs)
  end.

(** [v is None]. *)
Definition is_none (v : pyval) : bool :=
  match v with
  | VNone => true
  | _ => false
  end.

(** ** [json.dumps(..., sort_keys=True, default=str)] *)

Module Json.

Definition chr (n : nat) : string := String (ascii_of_nat n) EmptyString.

(** One character of a string literal under [ensure_ascii]. *)
Definition escape_char (c : ascii) : string :=
  let n := Z.of_nat (nat_of_ascii c) in
  if n =? 34 then chr 92 +:+ chr 34
  else if n =? 92 then chr 92 +:+ chr 92
  else if n =? 8 then chr 92 +:+ "b"
  else if n =? 9 then chr 92 +:+ "t"
  else if n =? 10 then chr 92 +:+ "n"
  else if n =? 12 then chr 92 +:+ "f"
  else if n =? 13 then chr 92 +:+ "r"
  else if (32 <=? n) && (n <=? 126) then String c EmptyString
  else chr 92 +:+ "u00" +:+ Md5.hex [n].

Fixpoint escape (s : string) : string :=
  match s with
  | EmptyString => EmptyString
  | String c s' => escape_char c +:+ escape s'
  end.

Definition quote (s : string) : string := chr 34 +:+ escape s +:+ chr 34.

Fixpoint join (sep : string) (parts : list string) : string :=
  match parts with
  | [] => EmptyString
  | [p] => p
  | p :: rest => p +:+ sep +:+ join sep rest
  end.

(** The text a dictionary key is written as; a key of another type is
    refused ([default] is not consulted for keys). *)
Definition key_text (k : pyval) : result string :=
  match k with
  | VStr s => Ok s
  | VInt n => Ok (pretty n)
  | VBool b => Ok (if b then "true" else "false")
  | VNone => Ok "null"
  | _ => Raise TypeError
  end.

Definition key_number (k : pyval) : option Z :=
  match k with
  | VInt n => Some n
  | VBool b => Some (if b then 1 else 0)
  | _ => None
  end.

(** [k1 < k2] between two keys of one dictionary. Strings compare with
    strings and numbers with numbers; every other pairing ends the dump with
    a [TypeError], here or in [key_text]. *)
Definition key_lt (k1 k2 : pyval) : result bool :=
  match k1, k2 with
  | VStr a, VStr b => Ok (String.ltb a b)
  | _, _ =>
      match key_number k1, key_number k2 with
      | Some a, Some b => Ok (a <? b)
      | _, _ => Raise TypeError
      end
  end.

(** [sorted(dct.items())]: keys are distinct, so only keys are compared. *)
Fixpoint insert_item {A : Type} (it : pyval * A) (l : list (pyval * A))
  : result (list (pyval * A)) :=
  match l with
  | [] => Ok [it]
  | it' :: l' =>
      lt ← key_lt (fst it) (fst it');
      if (lt : bool) then Ok (it :: l)
      else (r ← insert_item it l'; Ok (it' :: r))
  end.

Fixpoint sort_items {A : Type} (l : list (pyval * A)) : result (list (pyval * A)) :=
  match l with
  | [] => Ok []
  | it :: l' => s ← sort_items l'; insert_item it s
  end.

Definition member (it : pyval * result string) : result string :=
  k ← key_text (fst it); x ← snd it; Ok (quote k +:+ ": " +:+ x).

Fixpoint encode (v : pyval) : result string :=
  match v with
  | VNone => Ok "null"%string
  | VBool b => Ok (if b then "true" else "false")%string
  | VInt n => Ok (pretty n)
  | VStr s => Ok (quote s)
  | VObj repr _ => Ok (quote repr)
  | VList l | VTuple l =>
      parts ← sequence (List.map encode l);
      Ok ("[" +:+ join ", " parts +:+ "]")
  | VDict items =>
      sorted ← sort_items (List.map (fun kv => (fst kv, encode (snd kv))) items);
      parts ← sequence (List.map member sorted);
      Ok ("{" +:+ join ", " parts +:+ "}")
  end.

Definition dumps (v : pyval) : result string := encode v.

End Json.

(** ** [pickle] *)

(** What [pickle.dump] accepts. *)
Fixpoint picklable (v : pyval) : bool :=
  match v with
  | VList l | VTuple l => forallb picklable l
  | VDict items => forallb (fun kv => picklable (fst kv) && picklable (snd kv)) items
  | VObj _ p => p
  | _ => true
  end.

(** ** Insertion-ordered dictionaries with string keys *)

Section PyDict.
Context {V : Type}.

(** [d.get(k)]. *)
Fixpoint dict_get (k : string) (d : list (string * V)) : option V :=
  match d with
  | [] => None
  | (k', v) :: d' => if String.eqb k' k then Some v else dict_get k d'
  end.

(** [k in d]. *)
Definition dict_mem (k : string) (d : list (string * V)) : bool :=
  match dict_get k d with
  | Some _ => true
  | None => false
  end.

(** [del d[k]]: the keys being distinct, at most one item goes. *)
Definition dict_del (k : string) (d : list (string * V)) : list (string * V) :=
  List.filter (fun kv => negb (String.eqb (fst kv) k)) d.

(** [d[k] = v]: in place when [k] is present, at the end otherwise. *)
Fixpoint dict_set (k : string) (v : V) (d : list (string * V)) : list (string * V) :=
  match d with
  | [] => [(k, v)]
  | (k', v') :: d' =>
      if String.eqb k' k then (k, v) :: d' else (k', v') :: dict_set k v d'
  end.

Definition dict_keys (d : list (string * V)) : list string := List.map fst d.

(** [len(d)]. *)
Definition dict_len (d : list (string * V)) : Z := Z.of_nat (List.length d).

(** The keys of a dictionary are pairwise distinct. *)
Definition dict_wf (d : list (string * V)) : Prop := List.NoDup (dict_keys d).
End PyDict.

(** [min(xs, key=f)] on a non-empty sequence [x :: xs]: the first of the
    smallest. *)
Fixpoint min_by {A : Type} (f : A -> Z) (best : A) (xs : list A) : A :=
  match xs with
  | [] => best
  | x :: xs' => if f x <? f best then min_by f x xs' else min_by f best xs'
  end.

(** ** [CacheEntry] *)

Module CacheEntry.

Record t : Type := make {
  key : string;
  value : pyval;
  timestamp : Z;
  ttl : Z;
  access_count : Z;
  last_access : Z
}.

Definition post_init (e : t) : t :=
  if last_access e =? 0
  then make (key e) (value e) (timestamp e) (ttl e) (access_count e) (timestamp e)
  else e.

(** [CacheEntry(key=.., value=.., timestamp=.., ttl=..)]. *)
Definition new (k : string) (v : pyval) (ts : Z) (tl : Z) : t :=
  post_init (make k v ts tl 0 0).

Definition is_expired (e : t) (now : Z) : bool :=
  if ttl e <=? 0 then false else now - timestamp e >? ttl e.

Definition age_seconds (e : t) (now : Z) : Z := now - timestamp e.

(** [entry.access()]: the value, and the entry after the access. *)
Definition access (e : t) (now : Z) : pyval * t :=
  (value e, make (key e) (value e) (timestamp e) (ttl e) (access_count e + 1) now).

Definition to_dict (e : t) : pyval :=
  VDict [ (VStr "key", VStr (key e));
          (VStr "value", value e);
          (VStr "timestamp", VInt (timestamp e));
          (VStr "ttl", VInt (ttl e));
          (VStr "access_count", VInt (access_count e));
          (VStr "last_access", VInt (last_access e)) ].

(** The keyword arguments an unpacked dictionary passes: the keys must be
    strings. *)
Fixpoint keywords (items : list (pyval * pyval)) : result (list (string * pyval)) :=
  match items with
  | [] => Ok []
  | (VStr name, v) :: rest => kws ← keywords rest; Ok ((name, v) :: kws)
  | _ => Raise TypeError
  end.

Definition fields : list string :=
  [ "key"; "value"; "timestamp"; "ttl"; "access_count"; "last_access" ]%string.

Definition required (v : option pyval) : result pyval :=
  match v with
  | Some x => Ok x
  | None => Raise TypeError
  end.

Definition str_field (v : option pyval) : result string :=
  match v with
  | Some (VStr s) => Ok s
  | _ => Raise TypeError
  end.

Definition int_field (v : option pyval) (default : option Z) : result Z :=
  match v, default with
  | Some (VInt n), _ => Ok n
  | None, Some n => Ok n
  | _, _ => Raise TypeError
  end.

(** The constructor applied to an unpacked dictionary. A dictionary with an
    unknown or a missing field is refused, as by the generated [__init__]; so
    is one whose fields do not have the declared types, which no file of the
    model holds. *)
Definition of_dict (d : pyval) : result t :=
  match d with
  | VDict items =>
      kws ← keywords items;
      if forallb (fun kw => existsb (String.eqb (fst kw)) fields) kws then
        k ← str_field (dict_get "key" kws);
        v ← required (dict_get "value" kws);
        ts ← int_field (dict_get "timestamp" kws) None;
        tl ← int_field (dict_get "ttl" kws) None;
        ac ← int_field (dict_get "access_count" kws) (Some 0);
        la ← int_field (dict_get "last_access" kws) (Some 0);
        Ok (post_init (make k v ts tl ac la))
      else Raise TypeError
  | _ => Raise TypeError
  end.

End CacheEntry.

(** ** The files of the persistent tier *)

(** A file of the cache directory. [Pickled e] holds the pickle of
    [e.to_dict()], for an entry [e] whose fields have the declared types;
    [Junk] is any content from which [pickle.load] and the constructor obtain
    no entry, such as the truncated file an interrupted dump leaves behind. *)
Inductive file : Type :=
| Pickled (e : CacheEntry.t)
| Junk.

(** [pickle.load(f)]. *)
Definition pickle_load (f : file) : result pyval :=
  match f with
  | Pickled e => Ok (CacheEntry.to_dict e)
  | Junk => Raise UnpicklingError
  end.

(** [with open(path, 'wb') as f: pickle.dump(entry.to_dict(), f)]: the content
    of the file afterwards, and whether the dump raised. The file is opened,
    hence emptied, before the dump starts. *)
Definition pickle_dump (entry : CacheEntry.t) : file * result unit :=
  if picklable (CacheEntry.to_dict entry)
  then (Pickled entry, Ok tt)
  else (Junk, Raise PicklingError).

(** ** [MemoryCache] *)

Module MemoryCache.

Record stats : Type := make_stats {
  hits : Z;
  misses : Z;
  evictions : Z;
  expires : Z
}.

Record t : Type := make {
  max_size : Z;
  default_ttl : Z;
  _cache : list (string * CacheEntry.t);
  _stats : stats
}.

(** [MemoryCache(max_size, default_ttl)]. *)
Definition new (max_size default_ttl : Z) : t :=
  make max_size default_ttl [] (make_stats 0 0 0 0).

Definition with_cache (m : t) (c : list (string * CacheEntry.t)) : t :=
  make (max_size m) (default_ttl m) c (_stats m).

Definition with_stats (m : t) (s : stats) : t :=
  make (max_size m) (default_ttl m) (_cache m) s.

Definition count_hit (s : stats) : stats :=
  make_stats (hits s + 1) (misses s) (evictions s) (expires s).

Definition count_miss (s : stats) : stats :=
  make_stats (hits s) (misses s + 1) (evictions s) (expires s).

Definition count_eviction (s : stats) : stats :=
  make_stats (hits s) (misses s) (evictions s + 1) (expires s).

Definition count_expire (s : stats) : stats :=
  make_stats (hits s) (misses s) (evictions s) (expires s + 1).

Definition get (m : t) (k : string) (now : Z) : pyval * t :=
  match dict_get k (_cache m) with
  | None => (VNone, with_stats m (count_miss (_stats m)))
  | Some entry =>
      if CacheEntry.is_expired entry now then
        (VNone, make (max_size m) (default_ttl m) (dict_del k (_cache m))
                     (count_miss (count_expire (_stats m))))
      else
        let '(v, entry') := CacheEntry.access entry now in
        (v, make (max_size m) (default_ttl m) (dict_set k entry' (_cache m))
                 (count_hit (_stats m)))
  end.

(** [lambda k: self._cache[k].last_access]. *)
Definition last_access_of (c : list (string * CacheEntry.t)) (k : string) : Z :=
  match dict_get k c with
  | Some e => CacheEntry.last_access e
  | None => 0
  end.

(** The key [_evict_lru] picks, when there is one. *)
Definition lru_key (c : list (string * CacheEntry.t)) : option string :=
  match dict_keys c with
  | [] => None
  | k :: ks => Some (min_by (last_access_of c) k ks)
  end.

Definition _evict_lru (m : t) : t :=
  match lru_key (_cache m) with
  | None => m
  | Some k =>
      make (max_size m) (default_ttl m) (dict_del k (_cache m))
           (count_eviction (_stats m))
  end.

(** [ttl], or [self.default_ttl] when [ttl is None]. *)
Definition ttl_or_default (m : t) (ttl : option Z) : Z :=
  match ttl with
  | Some n => n
  | None => default_ttl m
  end.

Definition set (m : t) (k : string) (v : pyval) (ttl : option Z) (now : Z) : t :=
  let ttl := ttl_or_default m ttl in
  let m1 := if dict_mem k (_cache m) then with_cache m (dict_del k (_cache m)) else m in
  let m2 := if dict_len (_cache m1) >=? max_size m1 then _evict_lru m1 else m1 in
  let entry := CacheEntry.new k v now ttl in
  with_cache m2 (dict_set k entry (_cache m2)).

Definition delete (m : t) (k : string) : bool * t :=
  if dict_mem k (_cache m) then (true, with_cache m (dict_del k (_cache m)))
  else (false, m).

Definition clear (m : t) : t := with_cache m [].

(** The keys [cleanup_expired] collects before it deletes. *)
Definition expired_keys (c : list (string * CacheEntry.t)) (now : Z) : list string :=
  List.map fst (List.filter (fun kv => CacheEntry.is_expired (snd kv) now) c).

Definition expire_key (m : t) (k : string) : t :=
  make (max_size m) (default_ttl m) (dict_del k (_cache m)) (count_expire (_stats m)).

Definition cleanup_expired (m : t) (now : Z) : Z * t :=
  let ks := expired_keys (_cache m) now in
  (Z.of_nat (List.length ks), List.fold_left expire_key ks m).

(** The [size] that [get_stats] reports. *)
Definition size (m : t) : Z := dict_len (_cache m).

End MemoryCache.

(** ** [PersistentCache] *)

(** [s] ends with [suffix]. *)
Fixpoint ends_with (suffix s : string) : bool :=
  String.eqb s suffix
  || match s with
     | EmptyString => false
     | String _ s' => ends_with suffix s'
     end.

Module PersistentCache.

(** [cache_dir] stands for the content of the directory [self.cache_dir]:
    the files in it, by name. *)
Record t : Type := make {
  cache_dir : gmap string file;
  default_ttl : Z
}.

(** [PersistentCache(cache_dir, default_ttl)], opened on a directory that
    holds [dir]. *)
Definition new (dir : gmap string file) (default_ttl : Z) : t :=
  make dir default_ttl.

Definition with_dir (p : t) (dir : gmap string file) : t :=
  make dir (default_ttl p).

Definition _get_cache_file (k : string) : string :=
  Md5.hexdigest k +:+ ".cache".

(** [self.cache_dir.glob("*.cache")]. *)
Definition glob (dir : gmap string file) : list string :=
  List.filter (ends_with ".cache") (List.map fst (map_to_list dir)).

(** The entry rebuilt from what [pickle.load(f)] returns. *)
Definition load_entry (f : file) : result CacheEntry.t :=
  d ← pickle_load f; CacheEntry.of_dict d.

Definition get (p : t) (k : string) (now : Z) : pyval * t :=
  let cache_file := _get_cache_file k in
  match cache_dir p !! cache_file with
  | None => (VNone, p)
  | Some f =>
      match load_entry f with
      | Raise _ => (VNone, with_dir p (base.delete cache_file (cache_dir p)))
      | Ok entry =>
          if CacheEntry.is_expired entry now then
            (VNone, with_dir p (base.delete cache_file (cache_dir p)))
          else
            let '(_, entry') := CacheEntry.access entry now in
            match pickle_dump entry' with
            | (f', Ok _) =>
                (CacheEntry.value entry', with_dir p (<[cache_file := f']> (cache_dir p)))
            | (_, Raise _) => (VNone, with_dir p (base.delete cache_file (cache_dir p)))
            end
      end
  end.

Definition set (p : t) (k : string) (v : pyval) (ttl : option Z) (now : Z) : t :=
  let ttl := match ttl with Some n => n | None => default_ttl p end in
  let cache_file := _get_cache_file k in
  let entry := CacheEntry.new k v now ttl in
  let '(f, _) := pickle_dump entry in
  with_dir p (<[cache_file := f]> (cache_dir p)).

Definition delete (p : t) (k : string) : bool * t :=
  let cache_file := _get_cache_file k in
  match cache_dir p !! cache_file with
  | Some _ => (true, with_dir p (base.delete cache_file (cache_dir p)))
  | None => (false, p)
  end.

Definition clear (p : t) : t :=
  with_dir p (List.fold_left (fun dir name => base.delete name dir)
                             (glob (cache_dir p)) (cache_dir p)).

(** What the sweep removes: an expired entry, or a file the [try] block
    raises on. *)
Definition stale (now : Z) (f : file) : bool :=
  match load_entry f with
  | Ok entry => CacheEntry.is_expired entry now
  | Raise _ => true
  end.

(** One turn of the loop of [cleanup_expired]. *)
Definition sweep_file (now : Z) (acc : Z * gmap string file) (name : string)
  : Z * gmap string file :=
  let '(removed_count, dir) := acc in
  match dir !! name with
  | Some f =>
      if stale now f then (removed_count + 1, base.delete name dir)
      else (removed_count, dir)
  | None => (removed_count, dir)
  end.

Definition cleanup_expired (p : t) (now : Z) : Z * t :=
  let '(removed_count, dir) :=
    List.fold_left (sweep_file now) (glob (cache_dir p)) (0, cache_dir p) in
  (removed_count, with_dir p dir).

End PersistentCache.

Arguments Md5.hexdigest : simpl never.
Arguments PersistentCache._get_cache_file : simpl never.

(** ** [CacheManager] *)

Inductive CacheLevel : Type := MEMORY_ONLY | PERSISTENT_ONLY | BOTH.

(** [level in (CacheLevel.MEMORY_ONLY, CacheLevel.BOTH)]. *)
Definition uses_memory (level : CacheLevel) : bool :=
  match level with
  | MEMORY_ONLY | BOTH => true
  | PERSISTENT_ONLY => false
  end.

(** [level in (CacheLevel.PERSISTENT_ONLY, CacheLevel.BOTH)]. *)
Definition uses_persistent (level : CacheLevel) : bool :=
  match level with
  | PERSISTENT_ONLY | BOTH => true
  | MEMORY_ONLY => false
  end.

Definition is_both (level : CacheLevel) : bool :=
  match level with
  | BOTH => true
  | _ => false
  end.

(** The decorated function: its [__name__] and what a call returns. *)
Record callable : Type := {
  func_name : string;
  func_call : list pyval -> list (string * pyval) -> pyval
}.

Module CacheManager.

Record t : Type := make {
  memory_cache : MemoryCache.t;
  persistent_cache : PersistentCache.t
}.

(** [CacheManager(cache_dir, memory_size)], the directory holding [dir]. *)
Definition new (dir : gmap string file) (memory_size : Z) : t :=
  make (MemoryCache.new memory_size 3600) (PersistentCache.new dir 86400).

Definition with_memory (c : t) (m : MemoryCache.t) : t :=
  make m (persistent_cache c).

Definition with_persistent (c : t) (p : PersistentCache.t) : t :=
  make (memory_cache c) p.

Definition get (c : t) (k : string) (level : CacheLevel) (now : Z) : pyval * t :=
  let '(found, c1) :=
    if uses_memory level then
      let '(v, m) := MemoryCache.get (memory_cache c) k now in
      (if is_none v then None else Some v, with_memory c m)
    else (None, c) in
  match found with
  | Some v => (v, c1)
  | None =>
      if uses_persistent level then
        let '(v, p) := PersistentCache.get (persistent_cache c1) k now in
        let c2 := with_persistent c1 p in
        if is_none v then (VNone, c2)
        else if is_both level then
          (v, with_memory c2 (MemoryCache.set (memory_cache c2) k v None now))
        else (v, c2)
      else (VNone, c1)
  end.

Definition set (c : t) (k : string) (v : pyval) (ttl : option Z)
  (level : CacheLevel) (now : Z) : t :=
  let c1 :=
    if uses_memory level
    then with_memory c (MemoryCache.set (memory_cache c) k v ttl now)
    else c in
  if uses_persistent level
  then with_persistent c1 (PersistentCache.set (persistent_cache c1) k v ttl now)
  else c1.

Definition delete (c : t) (k : string) (level : CacheLevel) : bool * t :=
  let '(removed1, c1) :=
    if uses_memory level then
      let '(b, m) := MemoryCache.delete (memory_cache c) k in (b, with_memory c m)
    else (false, c) in
  if uses_persistent level then
    let '(b, p) := PersistentCache.delete (persistent_cache c1) k in
    (removed1 || b, with_persistent c1 p)
  else (removed1, c1).

Definition clear (c : t) (level : CacheLevel) : t :=
  let c1 :=
    if uses_memory level then with_memory c (MemoryCache.clear (memory_cache c)) else c in
  if uses_persistent level
  then with_persistent c1 (PersistentCache.clear (persistent_cache c1))
  else c1.

(** The two counts, memory first. *)
Definition cleanup_expired (c : t) (now : Z) : (Z * Z) * t :=
  let '(n1, m) := MemoryCache.cleanup_expired (memory_cache c) now in
  let '(n2, p) := PersistentCache.cleanup_expired (persistent_cache c) now in
  ((n1, n2), make m p).

(** The dictionary the wrapper serializes. *)
Definition key_data (func : callable) (args : list pyval)
  (kwargs : list (string * pyval)) : pyval :=
  VDict [ (VStr "function", VStr (func_name func));
          (VStr "args", VTuple args);
          (VStr "kwargs", VDict (List.map (fun kw => (VStr (fst kw), snd kw)) kwargs)) ].

Definition function_key (func : callable) (args : list pyval)
  (kwargs : list (string * pyval)) : result string :=
  text ← Json.dumps (key_data func args kwargs);
  Ok ("func:" +:+ Md5.hexdigest text).

(** The manager together with the calls the decorated function has
    received so far, oldest first. *)
Record world : Type := World {
  manager : t;
  calls : list (list pyval * list (string * pyval))
}.

(** The wrapper [cached_function(ttl, level)(func)] applied to [args] and
    [kwargs]. The cache is looked up at time [now]; on a miss the function is
    called and its result is stored when it returns, at time [done]. *)
Definition cached_function (ttl : Z) (level : CacheLevel) (func : callable)
  (args : list pyval) (kwargs : list (string * pyval)) (now done : Z) (w : world)
  : result pyval * world :=
  match function_key func args kwargs with
  | Raise e => (Raise e, w)
  | Ok k =>
      let '(cached_result, c1) := get (manager w) k level now in
      if negb (is_none cached_result) then (Ok cached_result, World c1 (calls w))
      else
        let r := func_call func args kwargs in
        let c2 := set c1 k r (Some ttl) level done in
        (Ok r, World c2 (calls w ++ [(args, kwargs)]))
  end.

End CacheManager.

(** ** Sequences of operations on a [MemoryCache] *)

Inductive mem_op : Type :=
| OpGet (k : string) (now : Z)
| OpSet (k : string) (v : pyval) (ttl : option Z) (now : Z)
| OpDelete (k : string)
| OpClear
| OpCleanup (now : Z).

Definition mem_step (m : MemoryCache.t) (o : mem_op) : MemoryCache.t :=
  match o with
  | OpGet k now => snd (MemoryCache.get m k now)
  | OpSet k v ttl now => MemoryCache.set m k v ttl now
  | OpDelete k => snd (MemoryCache.delete m k)
  | OpClear => MemoryCache.clear m
  | OpCleanup now => snd (MemoryCache.cleanup_expired m now)
  end.

Definition mem_run (m : MemoryCache.t) (ops : list mem_op) : MemoryCache.t :=
  List.fold_left mem_step ops m.

(** ** What a tier holds under a key *)

(** The value of the entry the memory tier holds under [k], [None] when it
    holds no entry. *)
Definition memory_value (m : MemoryCache.t) (k : string) : pyval :=
  match dict_get k (MemoryCache._cache m) with
  | Some e => CacheEntry.value e
  | None => VNone
  end.

(** The value of the entry in the file of [k], [None] when there is no file
    or no entry can be read from it. *)
Definition persistent_value (p : PersistentCache.t) (k : string) : pyval :=
  match PersistentCache.cache_dir p !! PersistentCache._get_cache_file k with
  | Some f =>
      match PersistentCache.load_entry f with
      | Ok e => CacheEntry.value e
      | Raise _ => VNone
      end
  | None => VNone
  end.

(** No tier that [level] selects holds a value other than [None] under [k]. *)
Definition no_value_for (c : CacheManager.t) (k : string) (level : CacheLevel) : Prop :=
  (uses_memory level = true -> memory_value (CacheManager.memory_cache c) k = VNone)
  /\ (uses_persistent level = true ->
      persistent_value (CacheManager.persistent_cache c) k = VNone).

(** No tier that [level] selects holds an entry or a file for [k]. *)
Definition absent_from (c : CacheManager.t) (k : string) (level : CacheLevel) : Prop :=
  (uses_memory level = true ->
   dict_get k (MemoryCache._cache (CacheManager.memory_cache c)) = None)
  /\ (uses_persistent level = true ->
      PersistentCache.cache_dir (CacheManager.persistent_cache c)
        !! PersistentCache._get_cache_file k = None).

(** The memoized function called with the same arguments once for each pair
    of [times], one call after the other: the first time of a pair is the time
    of the lookup, the second the time the result is stored on a miss. *)
Fixpoint call_at_times (ttl : Z) (level : CacheLevel) (func : callable)
  (args : list pyval) (kwargs : list (string * pyval)) (times : list (Z * Z))
  (w : CacheManager.world) : CacheManager.world :=
  match times with
  | [] => w
  | (now, done) :: later =>
      call_at_times ttl level func args kwargs later
        (snd (CacheManager.cached_function ttl level func args kwargs now done w))
  end.

(** [now] is within the time to live [ttl] of an entry created at [t0]. *)
Definition within_ttl (t0 ttl now : Z) : Prop := ttl <= 0 \/ now - t0 <= ttl.

(** The keys of the store are distinct and their number is within
    [max_size]. *)
Definition bounded (m : MemoryCache.t) : Prop :=
  dict_wf (MemoryCache._cache m) /\ MemoryCache.size m <= MemoryCache.max_size m.

(** ** [DeviceCache] *)

Module DeviceCache.

(** The façade keeps a reference to the manager it was built on: here the
    manager is passed to every method and handed back. *)
Record t : Type := make {
  device_info_ttl : Z;
  device_scan_ttl : Z
}.

(** [DeviceCache(cache_manager)]. *)
Definition new : t := make 1800 300.

Definition device_info_key (device_id : string) : string :=
  "device_info:" +:+ device_id.

Definition device_scan_key (scan_hash : string) : string :=
  "device_scan:" +:+ scan_hash.

Definition bypass_result_key (device_id method : string) : string :=
  "bypass_result:" +:+ device_id +:+ ":" +:+ method.

Definition cache_device_info (d : t) (c : CacheManager.t) (device_id : string)
  (device_info : pyval) (now : Z) : CacheManager.t :=
  CacheManager.set c (device_info_key device_id) device_info
    (Some (device_info_ttl d)) BOTH now.

Definition get_device_info (d : t) (c : CacheManager.t) (device_id : string) (now : Z)
  : pyval * CacheManager.t :=
  CacheManager.get c (device_info_key device_id) BOTH now.

Definition cache_scan_result (d : t) (c : CacheManager.t) (scan_hash : string)
  (devices : pyval) (now : Z) : CacheManager.t :=
  CacheManager.set c (device_scan_key scan_hash) devices
    (Some (device_scan_ttl d)) MEMORY_ONLY now.

Definition get_scan_result (d : t) (c : CacheManager.t) (scan_hash : string) (now : Z)
  : pyval * CacheManager.t :=
  CacheManager.get c (device_scan_key scan_hash) BOTH now.

Definition cache_bypass_result (d : t) (c : CacheManager.t) (device_id method : string)
  (result : pyval) (now : Z) : CacheManager.t :=
  CacheManager.set c (bypass_result_key device_id method) result
    (Some 7200) PERSISTENT_ONLY now.

Definition get_bypass_result (d : t) (c : CacheManager.t) (device_id method : string)
  (now : Z) : pyval * CacheManager.t :=
  CacheManager.get c (bypass_result_key device_id method) BOTH now.

End DeviceCache.

(** ** Counting and classifying *)

(** The [total_requests] that [MemoryCache.get_stats] reports. *)
Definition total_requests (m : MemoryCache.t) : Z :=
  MemoryCache.hits (MemoryCache._stats m) + MemoryCache.misses (MemoryCache._stats m).

(** The number of calls of [get] in a sequence of operations. *)
Fixpoint count_gets (ops : list mem_op) : Z :=
  match ops with
  | [] => 0
  | OpGet _ _ :: ops' => 1 + count_gets ops'
  | _ :: ops' => count_gets ops'
  end.

(** No operation of the sequence is a [set] of the key [k]. *)
Fixpoint never_sets (k : string) (ops : list mem_op) : bool :=
  match ops with
  | [] => true
  | OpSet k' _ _ _ :: ops' => negb (String.eqb k' k) && never_sets k ops'
  | _ :: ops' => never_sets k ops'
  end.

(** [s] holds no colon. *)
Fixpoint no_colon (s : string) : bool :=
  match s with
  | EmptyString => true
  | String c s' => negb (Ascii.eqb c ":"%char) && no_colon s'
  end.

(** An item of a dictionary whose key is the string [fst it]. *)
Definition str_item {A : Type} (it : string * A) : pyval * A := (VStr (fst it), snd it).

(** The key of [a] comes before the key of [b] in the order of [str]. *)
Definition key_before {A : Type} (a b : string * A) : Prop :=
  String.ltb (fst a) (fst b) = true.

(** [b] is a byte. *)
Definition byte_range (b : Z) : Prop := 0 <= b <= 255.

(** A digit of lower-case hexadecimal. *)
Definition is_hex_digit (c : ascii) : bool :=
  let n := nat_of_ascii c in
  ((48 <=? n) && (n <=? 57) || (97 <=? n) && (n <=? 102))%nat.

Fixpoint all_hex (s : string) : bool :=
  match s with
  | EmptyString => true
  | String c s' => is_hex_digit c && all_hex s'
  end.


(** A sequence of reads of one key from the persistent tier, at the given
    times; the values returned, oldest first, and the tier afterwards. *)
Fixpoint persistent_reads (p : PersistentCache.t) (k : string) (times : list Z)
  : list pyval * PersistentCache.t :=
  match times with
  | [] => ([], p)
  | now :: later =>
      let '(v, p1) := PersistentCache.get p k now in
      let '(vs, p2) := persistent_reads p1 k later in
      (v :: vs, p2)
  end.

(** The creation time and the time to live under [k] are those of [e], if
    [k] is still there. *)
Definition same_lifetime (e : CacheEntry.t) (k : string) (m : MemoryCache.t) : Prop :=
  match dict_get k (MemoryCache._cache m) with
  | Some e' =>
      CacheEntry.timestamp e' = CacheEntry.timestamp e
      /\ CacheEntry.ttl e' = CacheEntry.ttl e
  | None => True
  end.

(** * Properties *)

(** ** The library models against the interpreter *)

(** Digests and serializations as [hashlib] and [json] print them. *)
Example md5_empty :
  Md5.hexdigest EmptyString = "d41d8cd98f00b204e9800998ecf8427e"%string.
Proof. vm_compute. reflexivity. Qed.

Example md5_abc : Md5.hexdigest "abc" = "900150983cd24fb0d6963f7d28e17f72"%string.
Proof. vm_compute. reflexivity. Qed.

Example md5_two_blocks :
  Md5.hexdigest "aaaaaaaaaaaaaaaaaaaaaaaaaaaaaaaaaaaaaaaaaaaaaaaaaaaaaaaaaaaaaaaaaaaaaa"
  = "0f5c6c4e740bfcc08c3c26ccb2673d46"%string.
Proof. vm_compute. reflexivity. Qed.

Example md5_latin1 :
  Md5.hexdigest (String (ascii_of_nat 233) EmptyString)
  = "66ddcd97cfdeabb2f6fb8a999b4bc76f"%string.
Proof. vm_compute. reflexivity. Qed.

Example cache_file_of_k :
  PersistentCache._get_cache_file "k" = "8ce4b16b22b58894aa86c421e8759df3.cache"%string.
Proof. vm_compute. reflexivity. Qed.

Example dumps_sorts_keys :
  Json.dumps (VDict [ (VStr "b", VDict [(VInt 10, VInt 1); (VInt 9, VInt 2); (VBool true, VInt 3)]);
                      (VStr "a", VList [VInt 1; VTuple [VInt 2; VInt 3]; VNone; VInt (-5)]) ])
  = Ok (String.concat (Json.chr 34)
          [ "{"; "a"; ": [1, [2, 3], null, -5], "; "b"; ": {"; "true"; ": 3, "; "9";
            ": 2, "; "10"; ": 1}}" ])%string.
Proof. vm_compute. reflexivity. Qed.

Example dumps_mixed_keys :
  Json.dumps (VDict [(VInt 1, VStr "a"); (VStr "b", VInt 2)]) = Raise TypeError.
Proof. vm_compute. reflexivity. Qed.

Example dumps_tuple_key :
  Json.dumps (VDict [(VTuple [VInt 1; VInt 2], VInt 3)]) = Raise TypeError.
Proof. vm_compute. reflexivity. Qed.

Example function_key_of_demo :
  CacheManager.function_key
    {| func_name := "expensive_function"; func_call := fun _ _ => VInt 3 |}
    [VInt 1; VInt 2] []
  = Ok "func:5db77476c9397dac7f60a404a6faecaf"%string.
Proof. vm_compute. reflexivity. Qed.

Example function_key_ignores_keyword_order :
  CacheManager.function_key
    {| func_name := "expensive_function"; func_call := fun _ _ => VInt 3 |}
    [] [("y", VInt 2); ("x", VInt 1)]%string
  = CacheManager.function_key
      {| func_name := "expensive_function"; func_call := fun _ _ => VInt 3 |}
      [] [("x", VInt 1); ("y", VInt 2)]%string.
Proof. vm_compute. reflexivity. Qed.

(** ** Dictionaries *)

Section PyDictFacts.
Context {V : Type}.
Implicit Types (d : list (string * V)) (k : string) (v : V).

Lemma dict_get_In k v d : dict_get k d = Some v -> In (k, v) d.
Proof.
  induction d as [|[k' v'] d IH]; simpl; [discriminate|].
  destruct (String.eqb_spec k' k) as [->|Hne].
  - intros [= ->]. now left.
  - intros H. right. now apply IH.
Qed.

Lemma dict_get_None k d : dict_get k d = None <-> ~ In k (dict_keys d).
Proof.
  induction d as [|[k' v'] d IH]; simpl.
  - split; [intros _ [] | reflexivity].
  - destruct (String.eqb_spec k' k) as [->|Hne].
    + split; [discriminate | intros H; exfalso; apply H; now left].
    + rewrite IH. split; [intros H [E|I]; [congruence | auto] | intros H I; apply H; now right].
Qed.

Lemma dict_get_Some_key k v d : dict_get k d = Some v -> In k (dict_keys d).
Proof.
  intros H. apply dict_get_In in H. unfold dict_keys.
  change k with (fst (k, v)). now apply in_map.
Qed.

Lemma In_dict_get k v d : dict_wf d -> In (k, v) d -> dict_get k d = Some v.
Proof.
  unfold dict_wf. induction d as [|[k' v'] d IH]; simpl; [intros _ []|].
  intros Hnd [E|I].
  - injection E as -> ->. now rewrite String.eqb_refl.
  - inversion Hnd as [|? ? Hnotin Hnd']; subst.
    destruct (String.eqb_spec k' k) as [->|Hne].
    + exfalso. apply Hnotin. change k with (fst (k, v)). now apply in_map.
    + now apply IH.
Qed.

Lemma dict_mem_true k d : dict_mem k d = true <-> exists v, dict_get k d = Some v.
Proof.
  unfold dict_mem. destruct (dict_get k d) as [v|].
  - split; [eauto | reflexivity].
  - split; [discriminate | intros [v [=]]].
Qed.

Lemma dict_mem_false k d : dict_mem k d = false <-> dict_get k d = None.
Proof.
  unfold dict_mem. destruct (dict_get k d); split; congruence.
Qed.

Lemma dict_get_del k k' d :
  dict_get k' (dict_del k d) = if String.eqb k k' then None else dict_get k' d.
Proof.
  induction d as [|[k0 v0] d IH]; simpl.
  - now destruct (String.eqb k k').
  - destruct (String.eqb_spec k0 k) as [->|Hne]; simpl.
    + rewrite IH. destruct (String.eqb_spec k k'); reflexivity.
    + rewrite IH. destruct (String.eqb_spec k0 k') as [->|Hne'].
      * destruct (String.eqb_spec k k'); congruence.
      * reflexivity.
Qed.

Lemma dict_get_del_eq k d : dict_get k (dict_del k d) = None.
Proof. rewrite dict_get_del. now rewrite String.eqb_refl. Qed.

Lemma dict_get_del_ne k k' d : k <> k' -> dict_get k' (dict_del k d) = dict_get k' d.
Proof.
  intros H. rewrite dict_get_del. destruct (String.eqb_spec k k'); congruence.
Qed.

Lemma dict_get_set k k' v d :
  dict_get k' (dict_set k v d) = if String.eqb k k' then Some v else dict_get k' d.
Proof.
  induction d as [|[k0 v0] d IH]; simpl.
  - reflexivity.
  - destruct (String.eqb_spec k0 k) as [->|Hne]; simpl.
    + destruct (String.eqb_spec k k'); reflexivity.
    + rewrite IH. destruct (String.eqb_spec k0 k') as [->|Hne'].
      * destruct (String.eqb_spec k k'); congruence.
      * reflexivity.
Qed.

Lemma dict_get_set_eq k v d : dict_get k (dict_set k v d) = Some v.
Proof. rewrite dict_get_set. now rewrite String.eqb_refl. Qed.

Lemma dict_get_set_ne k k' v d : k <> k' -> dict_get k' (dict_set k v d) = dict_get k' d.
Proof.
  intros H. rewrite dict_get_set. destruct (String.eqb_spec k k'); congruence.
Qed.

Lemma dict_del_absent k d : dict_get k d = None -> dict_del k d = d.
Proof.
  induction d as [|[k0 v0] d IH]; simpl; [reflexivity|].
  destruct (String.eqb_spec k0 k); [discriminate|]. simpl.
  intros H. now rewrite IH.
Qed.

Lemma dict_set_absent k v d : dict_get k d = None -> dict_set k v d = d ++ [(k, v)].
Proof.
  induction d as [|[k0 v0] d IH]; simpl; [reflexivity|].
  destruct (String.eqb_spec k0 k); [discriminate|].
  intros H. now rewrite IH.
Qed.

Lemma dict_keys_set_present k v v' d :
  dict_get k d = Some v' -> dict_keys (dict_set k v d) = dict_keys d.
Proof.
  induction d as [|[k0 v0] d IH]; simpl; [discriminate|].
  destruct (String.eqb_spec k0 k) as [->|Hne]; simpl; [reflexivity|].
  intros H. now rewrite IH.
Qed.

Lemma length_dict_set_present k v v' d :
  dict_get k d = Some v' -> List.length (dict_set k v d) = List.length d.
Proof.
  intros H. apply (dict_keys_set_present k v) in H.
  unfold dict_keys in H.
  rewrite <- (List.length_map fst (dict_set k v d)), H. apply List.length_map.
Qed.

Lemma length_dict_del_le k d : (List.length (dict_del k d) <= List.length d)%nat.
Proof. apply List.filter_length_le. Qed.

Lemma length_dict_del_present k v d :
  dict_wf d -> dict_get k d = Some v -> S (List.length (dict_del k d)) = List.length d.
Proof.
  unfold dict_wf. induction d as [|[k0 v0] d IH]; simpl; [discriminate|].
  intros Hnd. inversion Hnd as [|? ? Hnotin Hnd']; subst.
  destruct (String.eqb_spec k0 k) as [->|Hne]; simpl.
  - intros _. f_equal. fold (dict_del k d). rewrite dict_del_absent; [reflexivity|].
    now apply dict_get_None.
  - intros H. f_equal. now apply IH.
Qed.

Lemma dict_keys_del k d :
  dict_keys (dict_del k d) = List.filter (fun k' => negb (String.eqb k' k)) (dict_keys d).
Proof.
  induction d as [|[k0 v0] d IH]; simpl; [reflexivity|].
  destruct (String.eqb k0 k); simpl; now rewrite IH.
Qed.

Lemma dict_wf_del k d : dict_wf d -> dict_wf (dict_del k d).
Proof.
  unfold dict_wf. rewrite dict_keys_del. apply List.NoDup_filter.
Qed.

Lemma dict_wf_set k v d : dict_wf d -> dict_wf (dict_set k v d).
Proof.
  intros H. destruct (dict_get k d) as [v'|] eqn:E.
  - unfold dict_wf. now rewrite (dict_keys_set_present k v v').
  - rewrite dict_set_absent by assumption. unfold dict_wf, dict_keys.
    rewrite List.map_app. simpl. apply dict_get_None in E.
    apply List.NoDup_app; [exact H| |].
    + constructor; [intros []|constructor].
    + intros x Hx [<-|[]]. now apply E.
Qed.

Lemma dict_wf_nil : dict_wf (@nil (string * V)).
Proof. constructor. Qed.
End PyDictFacts.

(** ** [min] with a key function *)

Lemma min_by_split {A : Type} (f : A -> Z) (xs : list A) :
  forall (best : A) (l1 mid : list A),
    (forall x, In x l1 -> f best < f x) ->
    (forall x, In x mid -> f best <= f x) ->
    exists l1' l2',
      l1 ++ best :: mid ++ xs = l1' ++ min_by f best xs :: l2'
      /\ (forall x, In x l1' -> f (min_by f best xs) < f x)
      /\ (forall x, In x l2' -> f (min_by f best xs) <= f x).
Proof.
  induction xs as [|x xs IH]; intros best l1 mid H1 H2; simpl.
  - exists l1, mid. rewrite List.app_nil_r. auto.
  - destruct (Z.ltb_spec (f x) (f best)) as [Hlt|Hge].
    + destruct (IH x (l1 ++ best :: mid) []) as (l1' & l2' & E & P1 & P2).
      * intros y Hy. apply List.in_app_or in Hy as [Hy|[<-|Hy]].
        -- specialize (H1 y Hy). lia.
        -- exact Hlt.
        -- specialize (H2 y Hy). lia.
      * intros y [].
      * exists l1', l2'. split; [|auto].
        rewrite <- E. simpl. now rewrite <- List.app_assoc.
    + destruct (IH best l1 (mid ++ [x])) as (l1' & l2' & E & P1 & P2).
      * exact H1.
      * intros y Hy. apply List.in_app_or in Hy as [Hy|[<-|[]]]; auto.
      * exists l1', l2'. split; [|auto].
        rewrite <- E. now rewrite <- List.app_assoc.
Qed.

(** ** [MemoryCache]: eviction *)

Section MemoryFacts.
Import MemoryCache.
Implicit Types (m : MemoryCache.t) (c : list (string * CacheEntry.t)) (k : string).

Lemma last_access_of_In c k e :
  dict_wf c -> In (k, e) c -> last_access_of c k = CacheEntry.last_access e.
Proof.
  intros Hwf Hin. unfold last_access_of. now rewrite (In_dict_get k e c Hwf Hin).
Qed.

Lemma dict_del_middle c1 c2 k e :
  dict_wf (c1 ++ (k, e) :: c2) -> dict_del k (c1 ++ (k, e) :: c2) = c1 ++ c2.
Proof.
  unfold dict_wf, dict_keys, dict_del. rewrite List.map_app. simpl.
  intros Hnd. apply List.NoDup_remove in Hnd as [_ Hnot].
  rewrite List.filter_app. simpl. rewrite String.eqb_refl. simpl.
  assert (Hkeep : forall l, (forall kv, In kv l -> fst kv <> k) ->
              List.filter (fun kv : string * CacheEntry.t => negb (String.eqb (fst kv) k)) l = l).
  { induction l as [|kv l IHl]; simpl; [reflexivity|]. intros Hl.
    destruct (String.eqb_spec (fst kv) k) as [E|_].
    - exfalso. apply (Hl kv); auto.
    - simpl. rewrite IHl; auto. }
  rewrite !Hkeep; [reflexivity| |].
  - intros kv Hkv E. apply Hnot. apply List.in_or_app. right.
    rewrite <- E. now apply List.in_map.
  - intros kv Hkv E. apply Hnot. apply List.in_or_app. left.
    rewrite <- E. now apply List.in_map.
Qed.

(** The key [_evict_lru] picks belongs to the first entry, in insertion
    order, whose [last_access] is the smallest. *)
Lemma lru_key_split c :
  dict_wf c -> c <> [] ->
  exists before k e after,
    c = before ++ (k, e) :: after
    /\ lru_key c = Some k
    /\ (forall kv, In kv before -> CacheEntry.last_access e < CacheEntry.last_access (snd kv))
    /\ (forall kv, In kv after -> CacheEntry.last_access e <= CacheEntry.last_access (snd kv)).
Proof.
  intros Hwf Hne. unfold lru_key.
  destruct c as [|[k0 e0] c']; [congruence|]. simpl.
  set (c := (k0, e0) :: c') in *.
  destruct (min_by_split (last_access_of c) (dict_keys c') k0 [] [])
    as (l1 & l2 & E & P1 & P2); [intros ? []|intros ? []|].
  simpl in E. set (r := min_by (last_access_of c) k0 (dict_keys c')) in *.
  assert (Ec : dict_keys c = l1 ++ r :: l2) by exact E.
  unfold dict_keys in Ec.
  apply List.map_eq_app in Ec as (before & rest & Ec & Eb & Er).
  apply List.map_eq_cons in Er as ([k e] & after & Er & Ek & Ea).
  simpl in Ek. subst rest l1 l2 k.
  exists before, r, e, after. split; [exact Ec|]. split; [reflexivity|].
  assert (Hr : last_access_of c r = CacheEntry.last_access e).
  { apply last_access_of_In; [exact Hwf|]. rewrite Ec.
    apply List.in_or_app. right. now left. }
  split.
  - intros [k1 e1] Hin. simpl. rewrite <- Hr.
    rewrite <- (last_access_of_In c k1 e1 Hwf).
    + apply P1. change k1 with (fst (k1, e1)). now apply List.in_map.
    + rewrite Ec. apply List.in_or_app. now left.
  - intros [k1 e1] Hin. simpl. rewrite <- Hr.
    rewrite <- (last_access_of_In c k1 e1 Hwf).
    + apply P2. change k1 with (fst (k1, e1)). now apply List.in_map.
    + rewrite Ec. apply List.in_or_app. right. now right.
Qed.

Lemma lru_key_nil c : lru_key c = None <-> c = [].
Proof.
  unfold lru_key. destruct c as [|[k e] c']; simpl; split; congruence.
Qed.

Lemma evict_lru_length m :
  dict_wf (_cache m) -> _cache m <> [] ->
  S (List.length (_cache (_evict_lru m))) = List.length (_cache m).
Proof.
  intros Hwf Hne.
  destruct (lru_key_split (_cache m) Hwf Hne) as (before & k & e & after & E & Hk & _).
  unfold _evict_lru. rewrite Hk. simpl.
  apply (length_dict_del_present k e); [exact Hwf|].
  apply In_dict_get; [exact Hwf|]. rewrite E. apply List.in_or_app. right. now left.
Qed.

Lemma evict_lru_wf m : dict_wf (_cache m) -> dict_wf (_cache (_evict_lru m)).
Proof.
  intros Hwf. unfold _evict_lru. destruct (lru_key (_cache m)); [|exact Hwf].
  simpl. now apply dict_wf_del.
Qed.

Lemma evict_lru_max_size m : max_size (_evict_lru m) = max_size m.
Proof. unfold _evict_lru. now destruct (lru_key (_cache m)). Qed.
End MemoryFacts.

(** ** [MemoryCache]: the bound on the number of entries *)

Section MemoryInvariant.
Import MemoryCache.
Implicit Types (m : MemoryCache.t) (c : list (string * CacheEntry.t)) (k : string).

(** What [set] computes, with the deletion of the old entry made
    unconditional (deleting an absent key changes nothing). *)
Lemma set_unfold m k v ttl now :
  set m k v ttl now =
    let m1 := with_cache m (dict_del k (_cache m)) in
    let m2 := if dict_len (_cache m1) >=? max_size m then _evict_lru m1 else m1 in
    with_cache m2 (dict_set k (CacheEntry.new k v now (ttl_or_default m ttl)) (_cache m2)).
Proof.
  unfold set. destruct (dict_mem k (_cache m)) eqn:Hmem; [reflexivity|].
  apply dict_mem_false in Hmem. rewrite (dict_del_absent k (_cache m) Hmem).
  now destruct m.
Qed.

Lemma length_dict_set_le {V : Type} k (v : V) (d : list (string * V)) :
  (List.length (dict_set k v d) <= S (List.length d))%nat.
Proof.
  destruct (dict_get k d) as [v'|] eqn:E.
  - rewrite (length_dict_set_present k v v' d E). lia.
  - rewrite (dict_set_absent k v d E), List.length_app. simpl. lia.
Qed.

Lemma new_bounded max_size default_ttl :
  0 <= max_size -> bounded (MemoryCache.new max_size default_ttl).
Proof. intros H. split; [apply dict_wf_nil | unfold size, dict_len; simpl; lia]. Qed.

Lemma set_max_size m k v ttl now : max_size (set m k v ttl now) = max_size m.
Proof.
  rewrite set_unfold. cbv zeta.
  destruct (_ >=? _); simpl; [now rewrite evict_lru_max_size | reflexivity].
Qed.

Lemma set_bounded m k v ttl now :
  1 <= max_size m -> bounded m -> bounded (set m k v ttl now).
Proof.
  intros Hpos [Hwf Hsz]. unfold bounded. rewrite set_max_size.
  rewrite set_unfold. cbv zeta.
  set (m1 := with_cache m (dict_del k (_cache m))).
  assert (Hwf1 : dict_wf (_cache m1)) by (apply dict_wf_del; exact Hwf).
  assert (Hsz1 : size m1 <= max_size m).
  { pose proof (length_dict_del_le k (_cache m)).
    unfold size, dict_len in *. simpl. lia. }
  destruct (Z.geb_spec (dict_len (_cache m1)) (max_size m)) as [Hfull|Hroom].
  - assert (Hne : _cache m1 <> []).
    { intros E. unfold dict_len in Hfull. rewrite E in Hfull. simpl in Hfull. lia. }
    pose proof (evict_lru_length m1 Hwf1 Hne) as Hlen.
    pose proof (evict_lru_wf m1 Hwf1) as Hwf2.
    split; [simpl; now apply dict_wf_set|].
    pose proof (length_dict_set_le k (CacheEntry.new k v now (ttl_or_default m ttl))
                  (_cache (_evict_lru m1))).
    unfold size, dict_len in *. simpl. lia.
  - split; [simpl; now apply dict_wf_set|].
    pose proof (length_dict_set_le k (CacheEntry.new k v now (ttl_or_default m ttl))
                  (_cache m1)).
    unfold size, dict_len in *. cbn [_cache with_cache] in *. lia.
Qed.

Lemma get_max_size m k now : max_size (snd (get m k now)) = max_size m.
Proof.
  unfold get. destruct (dict_get k (_cache m)) as [e|]; [|reflexivity].
  destruct (CacheEntry.is_expired e now); reflexivity.
Qed.

Lemma get_bounded m k now : bounded m -> bounded (snd (get m k now)).
Proof.
  intros [Hwf Hsz]. unfold bounded. rewrite get_max_size.
  unfold get. destruct (dict_get k (_cache m)) as [e|] eqn:E; [|now split].
  destruct (CacheEntry.is_expired e now); simpl.
  - split; [now apply dict_wf_del|].
    pose proof (length_dict_del_le k (_cache m)). unfold size, dict_len in *. simpl. lia.
  - split; [now apply dict_wf_set|].
    unfold size, dict_len in *. simpl.
    now rewrite (length_dict_set_present k _ e).
Qed.

Lemma delete_bounded m k : bounded m -> bounded (snd (delete m k)).
Proof.
  intros [Hwf Hsz]. unfold delete. destruct (dict_mem k (_cache m)); [|now split].
  split; simpl; [now apply dict_wf_del|].
  pose proof (length_dict_del_le k (_cache m)). unfold size, dict_len in *. simpl. lia.
Qed.

Lemma delete_max_size m k : max_size (snd (delete m k)) = max_size m.
Proof. unfold delete. now destruct (dict_mem k (_cache m)). Qed.

Lemma expire_keys_bounded ks : forall m,
  bounded m ->
  bounded (List.fold_left expire_key ks m)
  /\ max_size (List.fold_left expire_key ks m) = max_size m.
Proof.
  induction ks as [|k ks IH]; intros m Hb; simpl; [now split|].
  destruct (IH (expire_key m k)) as [Hb' Hmax].
  - destruct Hb as [Hwf Hsz]. split; simpl; [now apply dict_wf_del|].
    pose proof (length_dict_del_le k (_cache m)). unfold size, dict_len in *. simpl. lia.
  - split; [exact Hb' | now rewrite Hmax].
Qed.

Lemma step_bounded m o :
  1 <= max_size m -> bounded m ->
  bounded (mem_step m o) /\ max_size (mem_step m o) = max_size m.
Proof.
  intros Hpos Hb. destruct o as [k now|k v ttl now|k| |now]; simpl.
  - split; [now apply get_bounded | apply get_max_size].
  - split; [now apply set_bounded | apply (set_max_size m k v ttl now)].
  - split; [now apply delete_bounded | apply delete_max_size].
  - split; [|reflexivity]. destruct Hb as [_ Hsz].
    split; [apply dict_wf_nil | unfold size, dict_len in *; simpl; lia].
  - now apply expire_keys_bounded.
Qed.

Lemma run_bounded ops : forall m,
  1 <= max_size m -> bounded m ->
  bounded (mem_run m ops) /\ max_size (mem_run m ops) = max_size m.
Proof.
  unfold mem_run. induction ops as [|o ops IH]; intros m Hpos Hb; simpl; [now split|].
  destruct (step_bounded m o Hpos Hb) as [Hb' Hmax].
  destruct (IH (mem_step m o)) as [Hb'' Hmax']; [lia | exact Hb' |].
  split; [exact Hb'' | lia].
Qed.

(** Whatever [max_size] is, the keys of a store stay distinct: the
    hypothesis [dict_wf] of the statements below holds in every state a
    [MemoryCache] can reach. *)
Lemma step_wf m o : dict_wf (_cache m) -> dict_wf (_cache (mem_step m o)).
Proof.
  intros Hwf. destruct o as [k now|k v ttl now|k| |now]; cbn [mem_step].
  - unfold get. destruct (dict_get k (_cache m)) as [e|]; [|exact Hwf].
    destruct (CacheEntry.is_expired e now); simpl;
      [now apply dict_wf_del | now apply dict_wf_set].
  - rewrite set_unfold. cbv zeta. cbn [_cache with_cache].
    apply dict_wf_set. destruct (_ >=? _).
    + apply evict_lru_wf. simpl. now apply dict_wf_del.
    + simpl. now apply dict_wf_del.
  - unfold delete. destruct (dict_mem k (_cache m)); simpl;
      [now apply dict_wf_del | exact Hwf].
  - apply dict_wf_nil.
  - unfold cleanup_expired. cbn [snd].
    generalize (expired_keys (_cache m) now). intros ks. revert m Hwf.
    induction ks as [|k ks IH]; intros m Hwf; simpl; [exact Hwf|].
    apply IH. simpl. now apply dict_wf_del.
Qed.

Lemma run_wf ops : forall max_size default_ttl,
  dict_wf (_cache (mem_run (MemoryCache.new max_size default_ttl) ops)).
Proof.
  intros max_size default_ttl. unfold mem_run.
  assert (H : forall m, dict_wf (_cache m) -> dict_wf (_cache (List.fold_left mem_step ops m))).
  { induction ops as [|o ops IH]; intros m Hwf; simpl; [exact Hwf|].
    apply IH. now apply step_wf. }
  apply H. apply dict_wf_nil.
Qed.

(** Overwriting a key in a cache within its bound evicts nothing. *)
Lemma set_overwrite m k v ttl now old :
  bounded m -> dict_get k (_cache m) = Some old ->
  _cache (set m k v ttl now) =
    dict_del k (_cache m) ++ [(k, CacheEntry.new k v now (ttl_or_default m ttl))]
  /\ _stats (set m k v ttl now) = _stats m.
Proof.
  intros [Hwf Hsz] Hk. rewrite set_unfold. cbv zeta.
  pose proof (length_dict_del_present k old (_cache m) Hwf Hk) as Hlen.
  destruct (Z.geb_spec (dict_len (_cache (with_cache m (dict_del k (_cache m)))))
              (max_size m)) as [Hfull|Hroom].
  - exfalso. unfold size, dict_len in *. simpl in Hfull. lia.
  - simpl. split; [|reflexivity].
    apply dict_set_absent, dict_get_del_eq.
Qed.
End MemoryInvariant.

(** C9. A [MemoryCache] built with [max_size >= 1] never holds more than
    [max_size] entries, whatever sequence of [get], [set], [delete], [clear]
    and [cleanup_expired] it has gone through; and in any state so reached
    (at capacity in particular) a [set] of a key already present removes the
    old entry of that key first, evicts nothing, leaves the entry of every
    other key as it was and keeps the number of entries. *)
Theorem memory_size_never_exceeds_max_size
  (max_size default_ttl : Z) (ops : list mem_op) :
  1 <= max_size ->
  MemoryCache.size (mem_run (MemoryCache.new max_size default_ttl) ops) <= max_size
  /\ forall (k : string) (v : pyval) (ttl : option Z) (now : Z) (old : CacheEntry.t),
       dict_get k (MemoryCache._cache (mem_run (MemoryCache.new max_size default_ttl) ops))
         = Some old ->
       MemoryCache.evictions
         (MemoryCache._stats
            (MemoryCache.set (mem_run (MemoryCache.new max_size default_ttl) ops) k v ttl now))
       = MemoryCache.evictions
           (MemoryCache._stats (mem_run (MemoryCache.new max_size default_ttl) ops))
       /\ (forall k', k' <> k ->
             dict_get k'
               (MemoryCache._cache
                  (MemoryCache.set (mem_run (MemoryCache.new max_size default_ttl) ops) k v ttl now))
             = dict_get k'
                 (MemoryCache._cache (mem_run (MemoryCache.new max_size default_ttl) ops)))
       /\ MemoryCache.size
            (MemoryCache.set (mem_run (MemoryCache.new max_size default_ttl) ops) k v ttl now)
          = MemoryCache.size (mem_run (MemoryCache.new max_size default_ttl) ops).
Proof.
  intros Hpos.
  destruct (run_bounded ops (MemoryCache.new max_size default_ttl)) as [Hb Hmax];
    [exact Hpos | apply new_bounded; lia |].
  set (m := mem_run (MemoryCache.new max_size default_ttl) ops) in *.
  simpl in Hmax. split; [destruct Hb; lia|].
  intros k v ttl now old Hk.
  destruct (set_overwrite m k v ttl now old Hb Hk) as [Hc Hs].
  rewrite Hs. split; [reflexivity|]. split.
  - intros k' Hne. rewrite Hc.
    rewrite <- (dict_set_absent k _ (dict_del k (MemoryCache._cache m)))
      by apply dict_get_del_eq.
    rewrite dict_get_set_ne by congruence. apply dict_get_del_ne. congruence.
  - unfold MemoryCache.size, dict_len. rewrite Hc, List.length_app. simpl.
    destruct Hb as [Hwf _].
    pose proof (length_dict_del_present k old (MemoryCache._cache m) Hwf Hk). lia.
Qed.

Lemma memory_size_never_exceeds_max_size_witness :
  MemoryCache.size
    (mem_run (MemoryCache.new 2 3600)
       [ OpSet "a" (VInt 1) None 10; OpSet "b" (VInt 2) None 11; OpGet "a" 12;
         OpSet "c" (VInt 3) (Some 5) 13; OpCleanup 100; OpSet "b" (VInt 4) None 101 ]) <= 2
  /\ MemoryCache.evictions
       (MemoryCache._stats
          (MemoryCache.set
             (mem_run (MemoryCache.new 2 3600)
                [ OpSet "a" (VInt 1) None 10; OpSet "b" (VInt 2) None 11 ])
             "a" (VInt 5) None 12))
     = MemoryCache.evictions
         (MemoryCache._stats
            (mem_run (MemoryCache.new 2 3600)
               [ OpSet "a" (VInt 1) None 10; OpSet "b" (VInt 2) None 11 ])).
Proof.
  split.
  - apply (memory_size_never_exceeds_max_size 2 3600); lia.
  - destruct (memory_size_never_exceeds_max_size 2 3600
                [ OpSet "a" (VInt 1) None 10; OpSet "b" (VInt 2) None 11 ]) as [_ Hover];
      [lia|].
    destruct (Hover "a" (VInt 5) None 12 (CacheEntry.new "a" (VInt 1) 10 3600)) as [He _];
      [reflexivity | exact He].
Defined.

(** C3, as the code has it. In a [MemoryCache] at capacity that holds at
    least one entry, a [set] of a key not already present evicts exactly one
    entry before it inserts: the store was [before ++ victim :: after], the
    victim's [last_access] is strictly below that of every entry before it in
    insertion order and at most that of every entry after it, and the store
    becomes [before ++ after] followed by the new entry. *)
Theorem set_at_capacity_evicts_lru
  (m : MemoryCache.t) (k : string) (v : pyval) (ttl : option Z) (now : Z) :
  dict_wf (MemoryCache._cache m) ->
  MemoryCache._cache m <> [] ->
  MemoryCache.max_size m <= MemoryCache.size m ->
  dict_get k (MemoryCache._cache m) = None ->
  exists before victim after,
    MemoryCache._cache m = before ++ victim :: after
    /\ (forall kv, In kv before ->
          CacheEntry.last_access (snd victim) < CacheEntry.last_access (snd kv))
    /\ (forall kv, In kv after ->
          CacheEntry.last_access (snd victim) <= CacheEntry.last_access (snd kv))
    /\ MemoryCache._cache (MemoryCache.set m k v ttl now)
       = before ++ after
           ++ [(k, CacheEntry.new k v now (MemoryCache.ttl_or_default m ttl))]
    /\ MemoryCache.evictions (MemoryCache._stats (MemoryCache.set m k v ttl now))
       = MemoryCache.evictions (MemoryCache._stats m) + 1.
Proof.
  intros Hwf Hne Hfull Hk.
  destruct (lru_key_split (MemoryCache._cache m) Hwf Hne)
    as (before & r & e & after & E & Hr & P1 & P2).
  exists before, (r, e), after. split; [exact E|]. split; [exact P1|]. split; [exact P2|].
  rewrite set_unfold. cbv zeta.
  rewrite (dict_del_absent k (MemoryCache._cache m) Hk).
  replace (MemoryCache.with_cache m (MemoryCache._cache m)) with m by now destruct m.
  destruct (Z.geb_spec (dict_len (MemoryCache._cache m)) (MemoryCache.max_size m))
    as [_|Hroom]; [|unfold MemoryCache.size in Hfull; lia].
  unfold MemoryCache._evict_lru. rewrite Hr. simpl.
  assert (Hdel : dict_del r (MemoryCache._cache m) = before ++ after).
  { rewrite E. apply dict_del_middle. now rewrite <- E. }
  rewrite Hdel. split; [|reflexivity].
  rewrite dict_set_absent; [now rewrite <- List.app_assoc|].
  rewrite <- Hdel. rewrite dict_get_del. rewrite Hk. now destruct (String.eqb r k).
Qed.

Lemma set_at_capacity_evicts_lru_witness :
  exists before victim after,
    [ ("a", CacheEntry.make "a" (VInt 1) 10 0 1 30);
      ("b", CacheEntry.make "b" (VInt 2) 20 0 0 20);
      ("c", CacheEntry.make "c" (VInt 3) 20 0 0 20) ]
    = before ++ victim :: after
    /\ (forall kv, In kv before ->
          CacheEntry.last_access (snd victim) < CacheEntry.last_access (snd kv))
    /\ (forall kv, In kv after ->
          CacheEntry.last_access (snd victim) <= CacheEntry.last_access (snd kv))
    /\ MemoryCache._cache
         (MemoryCache.set
            (MemoryCache.make 3 3600
               [ ("a", CacheEntry.make "a" (VInt 1) 10 0 1 30);
                 ("b", CacheEntry.make "b" (VInt 2) 20 0 0 20);
                 ("c", CacheEntry.make "c" (VInt 3) 20 0 0 20) ]
               (MemoryCache.make_stats 1 0 0 0))
            "d" (VInt 4) None 40)
       = before ++ after ++ [("d", CacheEntry.new "d" (VInt 4) 40 3600)]
    /\ MemoryCache.evictions
         (MemoryCache._stats
            (MemoryCache.set
               (MemoryCache.make 3 3600
                  [ ("a", CacheEntry.make "a" (VInt 1) 10 0 1 30);
                    ("b", CacheEntry.make "b" (VInt 2) 20 0 0 20);
                    ("c", CacheEntry.make "c" (VInt 3) 20 0 0 20) ]
                  (MemoryCache.make_stats 1 0 0 0))
               "d" (VInt 4) None 40))
       = 0 + 1.
Proof.
  apply (set_at_capacity_evicts_lru
           (MemoryCache.make 3 3600
              [ ("a", CacheEntry.make "a" (VInt 1) 10 0 1 30);
                ("b", CacheEntry.make "b" (VInt 2) 20 0 0 20);
                ("c", CacheEntry.make "c" (VInt 3) 20 0 0 20) ]
              (MemoryCache.make_stats 1 0 0 0))
           "d" (VInt 4) None 40).
  - repeat constructor; simpl; intuition discriminate.
  - discriminate.
  - vm_compute. discriminate.
  - reflexivity.
Defined.

(** C3 as stated fails where the store is at capacity and empty: with
    [max_size = 0] the guard of [_evict_lru] returns at once, nothing is
    evicted, and the insert goes through. *)
Lemma set_at_capacity_evicts_lru_counterexample :
  MemoryCache.max_size (MemoryCache.new 0 3600)
    <= MemoryCache.size (MemoryCache.new 0 3600)
  /\ dict_get "a" (MemoryCache._cache (MemoryCache.new 0 3600)) = None
  /\ MemoryCache.evictions
       (MemoryCache._stats (MemoryCache.set (MemoryCache.new 0 3600) "a" (VInt 1) None 5)) = 0
  /\ MemoryCache._cache (MemoryCache.set (MemoryCache.new 0 3600) "a" (VInt 1) None 5)
     = MemoryCache._cache (MemoryCache.new 0 3600)
         ++ [("a", CacheEntry.new "a" (VInt 1) 5 3600)].
Proof.
  vm_compute. repeat split; discriminate.
Qed.

(** ** Expiry *)

(** C2. An entry whose [ttl] is 0 is never expired, however late the clock;
    an entry of a store with [ttl = T > 0] is served by [MemoryCache.get] at
    every time up to and including [timestamp + T] (the value is returned, a
    hit is counted, the access is recorded and the store keeps its size), and
    strictly after [timestamp + T] the call is a miss that removes the entry:
    it returns [None], the key is gone, every other key is untouched, the
    size went down by one and an expiry and a miss are counted. *)
Theorem ttl_expiry_boundary :
  (forall (e : CacheEntry.t) (now : Z),
      CacheEntry.ttl e = 0 -> CacheEntry.is_expired e now = false)
  /\
  (forall (m : MemoryCache.t) (k : string) (e : CacheEntry.t) (now : Z),
      dict_wf (MemoryCache._cache m) ->
      dict_get k (MemoryCache._cache m) = Some e ->
      0 < CacheEntry.ttl e ->
      (now <= CacheEntry.timestamp e + CacheEntry.ttl e ->
         fst (MemoryCache.get m k now) = CacheEntry.value e
         /\ MemoryCache._stats (snd (MemoryCache.get m k now))
            = MemoryCache.count_hit (MemoryCache._stats m)
         /\ dict_get k (MemoryCache._cache (snd (MemoryCache.get m k now)))
            = Some (CacheEntry.make (CacheEntry.key e) (CacheEntry.value e)
                      (CacheEntry.timestamp e) (CacheEntry.ttl e)
                      (CacheEntry.access_count e + 1) now)
         /\ MemoryCache.size (snd (MemoryCache.get m k now)) = MemoryCache.size m)
      /\
      (CacheEntry.timestamp e + CacheEntry.ttl e < now ->
         fst (MemoryCache.get m k now) = VNone
         /\ dict_get k (MemoryCache._cache (snd (MemoryCache.get m k now))) = None
         /\ (forall k', k' <> k ->
               dict_get k' (MemoryCache._cache (snd (MemoryCache.get m k now)))
               = dict_get k' (MemoryCache._cache m))
         /\ MemoryCache.size (snd (MemoryCache.get m k now)) = MemoryCache.size m - 1
         /\ MemoryCache._stats (snd (MemoryCache.get m k now))
            = MemoryCache.count_miss (MemoryCache.count_expire (MemoryCache._stats m)))).
Proof.
  split.
  - intros e now H. unfold CacheEntry.is_expired. now rewrite H.
  - intros m k e now Hwf Hk Hpos. unfold MemoryCache.get. rewrite Hk.
    unfold CacheEntry.is_expired.
    destruct (Z.leb_spec (CacheEntry.ttl e) 0) as [Hle|_]; [lia|].
    split; intros Ht.
    + destruct (Z.gtb_spec (now - CacheEntry.timestamp e) (CacheEntry.ttl e)); [lia|].
      simpl. split; [reflexivity|]. split; [reflexivity|]. split.
      * apply dict_get_set_eq.
      * unfold MemoryCache.size, dict_len. simpl.
        now rewrite (length_dict_set_present k _ e).
    + destruct (Z.gtb_spec (now - CacheEntry.timestamp e) (CacheEntry.ttl e)); [|lia].
      simpl. split; [reflexivity|]. split; [apply dict_get_del_eq|]. split.
      * intros k' Hne. apply dict_get_del_ne. congruence.
      * split; [|reflexivity]. unfold MemoryCache.size, dict_len. simpl.
        pose proof (length_dict_del_present k e (MemoryCache._cache m) Hwf Hk). lia.
Qed.

Lemma ttl_expiry_boundary_witness :
  CacheEntry.is_expired (CacheEntry.new "x" (VInt 1) 100 0) 100000000000 = false
  /\ fst (MemoryCache.get (MemoryCache.set (MemoryCache.new 4 3600) "x" (VInt 1) (Some 60) 100)
            "x" 160) = VInt 1
  /\ fst (MemoryCache.get (MemoryCache.set (MemoryCache.new 4 3600) "x" (VInt 1) (Some 60) 100)
            "x" 161) = VNone.
Proof.
  destruct ttl_expiry_boundary as [Hzero Hpos]. split; [now apply Hzero|].
  destruct (Hpos (MemoryCache.set (MemoryCache.new 4 3600) "x" (VInt 1) (Some 60) 100)
              "x" (CacheEntry.new "x" (VInt 1) 100 60) 160) as [Hhit _].
  { repeat constructor; simpl; intuition discriminate. }
  { reflexivity. }
  { reflexivity. }
  destruct (Hpos (MemoryCache.set (MemoryCache.new 4 3600) "x" (VInt 1) (Some 60) 100)
              "x" (CacheEntry.new "x" (VInt 1) 100 60) 161) as [_ Hmiss].
  { repeat constructor; simpl; intuition discriminate. }
  { reflexivity. }
  { reflexivity. }
  split.
  - apply Hhit. vm_compute. discriminate.
  - apply Hmiss. reflexivity.
Defined.

(** ** [MemoryCache.cleanup_expired] *)

Section MemoryCleanup.
Import MemoryCache.
Implicit Types (m : MemoryCache.t) (c : list (string * CacheEntry.t)) (k : string).

Lemma expire_keys_cache ks : forall m,
  _cache (List.fold_left expire_key ks m)
  = List.filter (fun kv => negb (existsb (String.eqb (fst kv)) ks)) (_cache m).
Proof.
  induction ks as [|k ks IH]; intros m; simpl.
  - induction (_cache m) as [|kv c IHc]; simpl; [reflexivity|]. now rewrite <- IHc.
  - rewrite IH. simpl. unfold dict_del.
    induction (_cache m) as [|kv c IHc]; simpl; [reflexivity|].
    destruct (String.eqb (fst kv) k); simpl; [exact IHc|].
    destruct (existsb (String.eqb (fst kv)) ks); simpl; [exact IHc | now rewrite IHc].
Qed.

Lemma expire_keys_stats ks : forall m,
  expires (_stats (List.fold_left expire_key ks m))
  = expires (_stats m) + Z.of_nat (List.length ks)
  /\ hits (_stats (List.fold_left expire_key ks m)) = hits (_stats m)
  /\ misses (_stats (List.fold_left expire_key ks m)) = misses (_stats m)
  /\ evictions (_stats (List.fold_left expire_key ks m)) = evictions (_stats m).
Proof.
  induction ks as [|k ks IH]; intros m; [simpl; repeat split; lia|].
  cbn [List.fold_left List.length]. destruct (IH (expire_key m k)) as (E1 & E2 & E3 & E4).
  rewrite E1, E2, E3, E4. simpl. repeat split; lia.
Qed.

(** In a store with distinct keys, a key is collected exactly when its
    entry is expired. *)
Lemma expired_keys_mem c now k e :
  dict_wf c -> In (k, e) c ->
  existsb (String.eqb k) (expired_keys c now) = CacheEntry.is_expired e now.
Proof.
  intros Hwf Hin. unfold expired_keys.
  destruct (CacheEntry.is_expired e now) eqn:Hexp.
  - apply List.existsb_exists. exists k. split; [|apply String.eqb_refl].
    change k with (fst (k, e)). apply List.in_map.
    apply List.filter_In. split; [exact Hin | exact Hexp].
  - apply Bool.not_true_is_false. intros H.
    apply List.existsb_exists in H as (k' & Hk' & Heq).
    apply String.eqb_eq in Heq. subst k'.
    apply List.in_map_iff in Hk' as ([k2 e2] & Ek & Hin2). simpl in Ek. subst k2.
    apply List.filter_In in Hin2 as [Hin2 Hexp2]. simpl in Hexp2.
    pose proof (In_dict_get k e c Hwf Hin) as G1.
    pose proof (In_dict_get k e2 c Hwf Hin2) as G2.
    congruence.
Qed.

Lemma cleanup_expired_cache m now :
  dict_wf (_cache m) ->
  _cache (snd (cleanup_expired m now))
  = List.filter (fun kv => negb (CacheEntry.is_expired (snd kv) now)) (_cache m).
Proof.
  intros Hwf. unfold cleanup_expired. simpl. rewrite expire_keys_cache.
  apply List.filter_ext_in. intros [k e] Hin. simpl.
  now rewrite (expired_keys_mem (_cache m) now k e Hwf Hin).
Qed.
End MemoryCleanup.

(** C6. [MemoryCache.cleanup_expired] removes exactly the entries that are
    expired at the time of the scan: the store that remains is the old one
    restricted to the entries that are not expired, each unchanged and in its
    place; the number returned is the number of expired entries, which is the
    number of entries removed and the increase of the [expires] counter; and
    an entry whose [ttl] is 0 is still there afterwards. *)
Theorem cleanup_expired_removes_exactly_the_expired (m : MemoryCache.t) (now : Z) :
  dict_wf (MemoryCache._cache m) ->
  MemoryCache._cache (snd (MemoryCache.cleanup_expired m now))
  = List.filter (fun kv => negb (CacheEntry.is_expired (snd kv) now)) (MemoryCache._cache m)
  /\ fst (MemoryCache.cleanup_expired m now)
     = Z.of_nat (List.length
                   (List.filter (fun kv => CacheEntry.is_expired (snd kv) now)
                      (MemoryCache._cache m)))
  /\ fst (MemoryCache.cleanup_expired m now)
     = MemoryCache.size m - MemoryCache.size (snd (MemoryCache.cleanup_expired m now))
  /\ MemoryCache.expires (MemoryCache._stats (snd (MemoryCache.cleanup_expired m now)))
     = MemoryCache.expires (MemoryCache._stats m) + fst (MemoryCache.cleanup_expired m now)
  /\ (forall k e,
        dict_get k (MemoryCache._cache m) = Some e ->
        CacheEntry.is_expired e now = true ->
        dict_get k (MemoryCache._cache (snd (MemoryCache.cleanup_expired m now))) = None)
  /\ (forall k e,
        dict_get k (MemoryCache._cache m) = Some e ->
        CacheEntry.is_expired e now = false ->
        dict_get k (MemoryCache._cache (snd (MemoryCache.cleanup_expired m now))) = Some e)
  /\ (forall k e,
        dict_get k (MemoryCache._cache m) = Some e ->
        CacheEntry.ttl e = 0 ->
        dict_get k (MemoryCache._cache (snd (MemoryCache.cleanup_expired m now))) = Some e).
Proof.
  intros Hwf.
  pose proof (cleanup_expired_cache m now Hwf) as Hc.
  assert (Hcount : fst (MemoryCache.cleanup_expired m now)
                   = Z.of_nat (List.length
                       (List.filter (fun kv => CacheEntry.is_expired (snd kv) now)
                          (MemoryCache._cache m)))).
  { unfold MemoryCache.cleanup_expired, MemoryCache.expired_keys. simpl.
    now rewrite List.length_map. }
  assert (Hwf' : dict_wf (List.filter (fun kv => negb (CacheEntry.is_expired (snd kv) now))
                            (MemoryCache._cache m))).
  { unfold dict_wf, dict_keys in *. clear Hc Hcount.
    induction (MemoryCache._cache m) as [|[k e] c IH]; simpl; [constructor|].
    inversion Hwf as [|? ? Hnotin Hnd]; subst.
    destruct (CacheEntry.is_expired e now); simpl; [now apply IH|].
    constructor; [|now apply IH].
    intros Hin. apply Hnotin. apply List.in_map_iff in Hin as (kv & Ek & Hkv).
    apply List.filter_In in Hkv as [Hkv _]. rewrite <- Ek. now apply List.in_map. }
  assert (Hgone : forall k e,
             dict_get k (MemoryCache._cache m) = Some e ->
             CacheEntry.is_expired e now = true ->
             dict_get k (MemoryCache._cache (snd (MemoryCache.cleanup_expired m now))) = None).
  { intros k e Hk Hexp. rewrite Hc. apply dict_get_None. intros Hin.
    apply List.in_map_iff in Hin as ([k2 e2] & Ek & Hkv). simpl in Ek. subst k2.
    apply List.filter_In in Hkv as [Hkv Hlive]. simpl in Hlive.
    pose proof (In_dict_get k e2 _ Hwf Hkv). assert (e2 = e) by congruence. subst e2.
    rewrite Hexp in Hlive. discriminate. }
  assert (Hkept : forall k e,
             dict_get k (MemoryCache._cache m) = Some e ->
             CacheEntry.is_expired e now = false ->
             dict_get k (MemoryCache._cache (snd (MemoryCache.cleanup_expired m now))) = Some e).
  { intros k e Hk Hlive. rewrite Hc. apply In_dict_get; [exact Hwf'|].
    apply List.filter_In. split; [now apply dict_get_In|]. simpl. now rewrite Hlive. }
  split; [exact Hc|]. split; [exact Hcount|]. split.
  { rewrite Hcount. unfold MemoryCache.size, dict_len. rewrite Hc.
    pose proof (List.filter_length (fun kv => CacheEntry.is_expired (snd kv) now)
                  (MemoryCache._cache m)). lia. }
  split.
  { unfold MemoryCache.cleanup_expired. cbn [fst snd].
    now destruct (expire_keys_stats (MemoryCache.expired_keys (MemoryCache._cache m) now) m)
      as [-> _]. }
  split; [exact Hgone|]. split; [exact Hkept|].
  intros k e Hk Httl. apply Hkept; [exact Hk|].
  unfold CacheEntry.is_expired. now rewrite Httl.
Qed.

Lemma cleanup_expired_removes_exactly_the_expired_witness :
  MemoryCache._cache
    (snd (MemoryCache.cleanup_expired
            (MemoryCache.make 3 3600
               [ ("a", CacheEntry.make "a" (VInt 1) 10 5 0 10);
                 ("b", CacheEntry.make "b" (VInt 2) 10 0 0 10);
                 ("c", CacheEntry.make "c" (VInt 3) 10 500 0 10) ]
               (MemoryCache.make_stats 0 0 0 0)) 100))
  = [ ("b", CacheEntry.make "b" (VInt 2) 10 0 0 10);
      ("c", CacheEntry.make "c" (VInt 3) 10 500 0 10) ]
  /\ fst (MemoryCache.cleanup_expired
            (MemoryCache.make 3 3600
               [ ("a", CacheEntry.make "a" (VInt 1) 10 5 0 10);
                 ("b", CacheEntry.make "b" (VInt 2) 10 0 0 10);
                 ("c", CacheEntry.make "c" (VInt 3) 10 500 0 10) ]
               (MemoryCache.make_stats 0 0 0 0)) 100) = 1.
Proof.
  destruct (cleanup_expired_removes_exactly_the_expired
              (MemoryCache.make 3 3600
                 [ ("a", CacheEntry.make "a" (VInt 1) 10 5 0 10);
                   ("b", CacheEntry.make "b" (VInt 2) 10 0 0 10);
                   ("c", CacheEntry.make "c" (VInt 3) 10 500 0 10) ]
                 (MemoryCache.make_stats 0 0 0 0)) 100) as (Hc & Hn & _).
  - repeat constructor; simpl; intuition discriminate.
  - split; [rewrite Hc | rewrite Hn]; reflexivity.
Defined.

(** ** Entries on disk *)

Section EntryFacts.
Import CacheEntry.

Lemma new_eq k v ts tl : CacheEntry.new k v ts tl = CacheEntry.make k v ts tl 0 ts.
Proof. reflexivity. Qed.

Lemma post_init_fields e :
  key (post_init e) = key e /\ value (post_init e) = value e
  /\ timestamp (post_init e) = timestamp e /\ ttl (post_init e) = ttl e
  /\ access_count (post_init e) = access_count e.
Proof. unfold post_init. destruct (last_access e =? 0); simpl; auto. Qed.

Lemma post_init_new k v ts tl :
  post_init (CacheEntry.new k v ts tl) = CacheEntry.new k v ts tl.
Proof.
  rewrite new_eq. unfold post_init. simpl. now destruct (ts =? 0).
Qed.

Lemma is_expired_post_init e now : is_expired (post_init e) now = is_expired e now.
Proof.
  unfold is_expired. destruct (post_init_fields e) as (_ & _ & -> & -> & _). reflexivity.
Qed.

Lemma picklable_to_dict e : picklable (to_dict e) = picklable (value e).
Proof. simpl. now rewrite Bool.andb_true_r. Qed.

(** What [to_dict] writes, the constructor reads back. *)
Lemma of_dict_to_dict e : of_dict (to_dict e) = Ok (post_init e).
Proof. destruct e. reflexivity. Qed.

Lemma is_expired_within e now :
  ttl e <= 0 \/ now - timestamp e <= ttl e -> is_expired e now = false.
Proof.
  unfold is_expired. intros H.
  destruct (Z.leb_spec (ttl e) 0); [reflexivity|].
  destruct (Z.gtb_spec (now - timestamp e) (ttl e)); [lia | reflexivity].
Qed.
End EntryFacts.

(** ** [PersistentCache] *)

Section PersistentFacts.
Import PersistentCache.
Implicit Types (p : PersistentCache.t) (k : string) (dir : gmap string file).

Lemma ends_with_app suffix s : ends_with suffix (s +:+ suffix) = true.
Proof.
  induction s as [|c s IH].
  - change (EmptyString +:+ suffix) with suffix.
    destruct suffix; cbn [ends_with]; now rewrite String.eqb_refl.
  - change (String c s +:+ suffix) with (String c (s +:+ suffix)).
    cbn [ends_with]. rewrite IH. apply Bool.orb_true_r.
Qed.

Lemma cache_file_is_managed k : ends_with ".cache" (_get_cache_file k) = true.
Proof. apply ends_with_app. Qed.

Lemma load_entry_pickled e :
  load_entry (Pickled e) = Ok (CacheEntry.post_init e).
Proof. unfold load_entry. simpl. apply of_dict_to_dict. Qed.

Lemma get_absent p k now :
  cache_dir p !! _get_cache_file k = None -> get p k now = (VNone, p).
Proof. intros H. unfold get. cbv zeta. now rewrite H. Qed.

Lemma get_unreadable p k f e now :
  cache_dir p !! _get_cache_file k = Some f -> load_entry f = Raise e ->
  get p k now = (VNone, with_dir p (base.delete (_get_cache_file k) (cache_dir p))).
Proof. intros H E. unfold get. cbv zeta. now rewrite H, E. Qed.

Lemma get_expired p k f e now :
  cache_dir p !! _get_cache_file k = Some f -> load_entry f = Ok e ->
  CacheEntry.is_expired e now = true ->
  get p k now = (VNone, with_dir p (base.delete (_get_cache_file k) (cache_dir p))).
Proof. intros H E X. unfold get. cbv zeta. now rewrite H, E, X. Qed.

Lemma get_live p k f e now :
  cache_dir p !! _get_cache_file k = Some f -> load_entry f = Ok e ->
  CacheEntry.is_expired e now = false ->
  picklable (CacheEntry.value e) = true ->
  get p k now
  = (CacheEntry.value e,
     with_dir p (<[_get_cache_file k :=
                     Pickled (snd (CacheEntry.access e now))]>
                   (cache_dir p))).
Proof.
  intros H E X P. unfold get. cbv zeta. rewrite H, E, X.
  unfold CacheEntry.access, pickle_dump.
  rewrite picklable_to_dict. cbn [CacheEntry.value]. now rewrite P.
Qed.

(** The file [set] leaves for a value that pickles. *)
Lemma set_dir p k v ttl now :
  picklable v = true ->
  cache_dir (set p k v ttl now)
  = <[_get_cache_file k :=
        Pickled (CacheEntry.new k v now
                   (match ttl with Some n => n | None => default_ttl p end))]>
      (cache_dir p).
Proof.
  intros P. unfold set. cbv zeta. unfold pickle_dump.
  rewrite picklable_to_dict. cbn [CacheEntry.value CacheEntry.new CacheEntry.post_init].
  rewrite new_eq. cbn [CacheEntry.value]. now rewrite P.
Qed.

(** A value that does not pickle leaves a file that cannot be read. *)
Lemma set_dir_unpicklable p k v ttl now :
  picklable v = false ->
  cache_dir (set p k v ttl now) = <[_get_cache_file k := Junk]> (cache_dir p).
Proof.
  intros P. unfold set. cbv zeta. unfold pickle_dump.
  rewrite picklable_to_dict. rewrite new_eq. cbn [CacheEntry.value]. now rewrite P.
Qed.

Lemma get_after_set p k v ttl t0 t1 :
  picklable v = true ->
  CacheEntry.is_expired
    (CacheEntry.new k v t0 (match ttl with Some n => n | None => default_ttl p end)) t1
  = false ->
  forall p', cache_dir p' = cache_dir (set p k v ttl t0) ->
  fst (get p' k t1) = v.
Proof.
  intros P X p' Hdir.
  rewrite (get_live p' k
             (Pickled (CacheEntry.new k v t0
                         (match ttl with Some n => n | None => default_ttl p end)))
             (CacheEntry.new k v t0
                (match ttl with Some n => n | None => default_ttl p end)) t1).
  - reflexivity.
  - rewrite Hdir, (set_dir p k v ttl t0 P). apply lookup_insert_eq.
  - rewrite load_entry_pickled. now rewrite post_init_new.
  - exact X.
  - exact P.
Qed.

(** The loop of [cleanup_expired], over any list of names. *)
Lemma sweep_spec now names : forall n0 dir,
  (forall name,
      snd (List.fold_left (sweep_file now) names (n0, dir)) !! name
      = match dir !! name with
        | Some f => if existsb (String.eqb name) names && stale now f then None else Some f
        | None => None
        end)
  /\ fst (List.fold_left (sweep_file now) names (n0, dir))
     = n0 + Z.of_nat (size dir)
       - Z.of_nat (size (snd (List.fold_left (sweep_file now) names (n0, dir)))).
Proof.
  induction names as [|a names IH]; intros n0 dir.
  - simpl. split; [|lia]. intros name. now destruct (dir !! name).
  - cbn [List.fold_left]. unfold sweep_file at 2 4 6.
    destruct (dir !! a) as [fa|] eqn:Ea.
    + destruct (stale now fa) eqn:Sa.
      * destruct (IH (n0 + 1) (base.delete a dir)) as [Hl Hn]. split.
        -- intros name. rewrite Hl. cbn [existsb].
           destruct (String.eqb_spec name a) as [->|Hne].
           ++ rewrite lookup_delete_eq, Ea. simpl. now rewrite Sa.
           ++ rewrite lookup_delete_ne by congruence. reflexivity.
        -- rewrite Hn. rewrite (map_size_delete_Some a dir) by (rewrite Ea; eauto).
           assert (size dir <> 0%nat).
           { intros Hz. apply map_size_empty_inv in Hz. subst dir.
             rewrite lookup_empty in Ea. discriminate. }
           lia.
      * destruct (IH n0 dir) as [Hl Hn]. split; [|exact Hn].
        intros name. rewrite Hl. cbn [existsb].
        destruct (String.eqb_spec name a) as [->|Hne]; [|reflexivity].
        rewrite Ea. simpl. rewrite Sa. now rewrite Bool.andb_false_r.
    + destruct (IH n0 dir) as [Hl Hn]. split; [|exact Hn].
      intros name. rewrite Hl. cbn [existsb].
      destruct (String.eqb_spec name a) as [->|Hne]; [|reflexivity].
      now rewrite Ea.
Qed.

Lemma glob_mem dir name f :
  dir !! name = Some f ->
  existsb (String.eqb name) (glob dir) = ends_with ".cache" name.
Proof.
  intros H. unfold glob.
  destruct (ends_with ".cache" name) eqn:En.
  - apply List.existsb_exists. exists name. split; [|apply String.eqb_refl].
    apply List.filter_In. split; [|exact En].
    change name with (fst (name, f)). apply List.in_map.
    apply list_elem_of_In. now apply elem_of_map_to_list.
  - apply Bool.not_true_is_false. intros Hex.
    apply List.existsb_exists in Hex as (name' & Hin & Heq).
    apply String.eqb_eq in Heq. subst name'.
    apply List.filter_In in Hin as [_ En']. congruence.
Qed.

Lemma cleanup_expired_lookup p now name :
  cache_dir (snd (cleanup_expired p now)) !! name
  = match cache_dir p !! name with
    | Some f => if ends_with ".cache" name && stale now f then None else Some f
    | None => None
    end.
Proof.
  unfold cleanup_expired.
  destruct (sweep_spec now (glob (cache_dir p)) 0 (cache_dir p)) as [Hl _].
  destruct (List.fold_left _ _ _) as [n dir'] eqn:E. simpl in *.
  rewrite Hl. destruct (cache_dir p !! name) as [f|] eqn:Ef; [|reflexivity].
  now rewrite (glob_mem (cache_dir p) name f Ef).
Qed.

Lemma cleanup_expired_count p now :
  fst (cleanup_expired p now)
  = Z.of_nat (size (cache_dir p))
    - Z.of_nat (size (cache_dir (snd (cleanup_expired p now)))).
Proof.
  unfold cleanup_expired.
  destruct (sweep_spec now (glob (cache_dir p)) 0 (cache_dir p)) as [_ Hn].
  destruct (List.fold_left _ _ _) as [n dir'] eqn:E. simpl in *. lia.
Qed.
End PersistentFacts.

(** C7. When the file of a key exists but cannot be turned back into an
    entry, [PersistentCache.get] returns the miss [None] (it returns a value,
    no exception leaves it), deletes the file, and ends in the very state that
    a [get] of the key reaches when the file is missing. The sweep
    [PersistentCache.cleanup_expired] deletes every [*.cache] file that is
    unreadable or holds an expired entry, keeps every other file as it is, and
    returns the number of files it deleted. *)
Theorem corrupted_file_is_a_miss_and_is_removed :
  (forall (p : PersistentCache.t) (k : string) (f : file) (e : exn) (now : Z),
      PersistentCache.cache_dir p !! PersistentCache._get_cache_file k = Some f ->
      PersistentCache.load_entry f = Raise e ->
      PersistentCache.get p k now
      = (VNone,
         PersistentCache.with_dir p
           (delete (PersistentCache._get_cache_file k) (PersistentCache.cache_dir p)))
      /\ PersistentCache.cache_dir (snd (PersistentCache.get p k now))
           !! PersistentCache._get_cache_file k = None
      /\ PersistentCache.get
           (PersistentCache.with_dir p
              (delete (PersistentCache._get_cache_file k) (PersistentCache.cache_dir p)))
           k now
         = PersistentCache.get p k now)
  /\
  (forall (p : PersistentCache.t) (now : Z),
      (forall name f e,
          PersistentCache.cache_dir p !! name = Some f ->
          ends_with ".cache" name = true ->
          PersistentCache.load_entry f = Raise e ->
          PersistentCache.cache_dir (snd (PersistentCache.cleanup_expired p now)) !! name = None)
      /\ (forall name f entry,
            PersistentCache.cache_dir p !! name = Some f ->
            ends_with ".cache" name = true ->
            PersistentCache.load_entry f = Ok entry ->
            CacheEntry.is_expired entry now = true ->
            PersistentCache.cache_dir (snd (PersistentCache.cleanup_expired p now)) !! name
            = None)
      /\ (forall name f entry,
            PersistentCache.cache_dir p !! name = Some f ->
            PersistentCache.load_entry f = Ok entry ->
            CacheEntry.is_expired entry now = false ->
            PersistentCache.cache_dir (snd (PersistentCache.cleanup_expired p now)) !! name
            = Some f)
      /\ (forall name,
            ends_with ".cache" name = false ->
            PersistentCache.cache_dir (snd (PersistentCache.cleanup_expired p now)) !! name
            = PersistentCache.cache_dir p !! name)
      /\ fst (PersistentCache.cleanup_expired p now)
         = Z.of_nat (size (PersistentCache.cache_dir p))
           - Z.of_nat (size (PersistentCache.cache_dir
                               (snd (PersistentCache.cleanup_expired p now))))).
Proof.
  split.
  - intros p k f e now Hf He.
    rewrite (get_unreadable p k f e now Hf He). cbn [snd PersistentCache.with_dir
      PersistentCache.cache_dir]. split; [reflexivity|]. split; [apply lookup_delete_eq|].
    rewrite get_absent by apply lookup_delete_eq. reflexivity.
  - intros p now. repeat split.
    + intros name f e Hf Hn He. rewrite cleanup_expired_lookup, Hf, Hn.
      unfold PersistentCache.stale. now rewrite He.
    + intros name f entry Hf Hn He Hx. rewrite cleanup_expired_lookup, Hf, Hn.
      unfold PersistentCache.stale. now rewrite He, Hx.
    + intros name f entry Hf He Hx. rewrite cleanup_expired_lookup, Hf.
      unfold PersistentCache.stale. rewrite He, Hx. now rewrite Bool.andb_false_r.
    + intros name Hn. rewrite cleanup_expired_lookup, Hn.
      now destruct (PersistentCache.cache_dir p !! name).
    + apply cleanup_expired_count.
Qed.

Lemma corrupted_file_is_a_miss_and_is_removed_witness :
  PersistentCache.get
    (PersistentCache.new {[ PersistentCache._get_cache_file "k" := Junk ]} 86400) "k" 7
  = (VNone, PersistentCache.new ∅ 86400)
  /\ PersistentCache.cache_dir
       (snd (PersistentCache.cleanup_expired
               (PersistentCache.new {[ PersistentCache._get_cache_file "k" := Junk ]} 86400) 7))
       !! PersistentCache._get_cache_file "k" = None.
Proof.
  destruct corrupted_file_is_a_miss_and_is_removed as [Hget Hsweep]. split.
  - destruct (Hget (PersistentCache.new {[ PersistentCache._get_cache_file "k" := Junk ]} 86400)
                "k" Junk UnpicklingError 7) as (-> & _).
    + vm_compute. reflexivity.
    + reflexivity.
    + vm_compute. reflexivity.
  - destruct (Hsweep (PersistentCache.new {[ PersistentCache._get_cache_file "k" := Junk ]} 86400)
                7) as (Hjunk & _).
    apply (Hjunk _ Junk UnpicklingError).
    + vm_compute. reflexivity.
    + vm_compute. reflexivity.
    + reflexivity.
Defined.

(** ** [CacheManager.get], level by level *)

Section ManagerFacts.
Import CacheManager.
Implicit Types (c : CacheManager.t) (k : string).

Lemma get_memory_only c k now :
  get c k MEMORY_ONLY now
  = (fst (MemoryCache.get (memory_cache c) k now),
     with_memory c (snd (MemoryCache.get (memory_cache c) k now))).
Proof.
  unfold get. cbn [uses_memory uses_persistent].
  destruct (MemoryCache.get (memory_cache c) k now) as [v m]. now destruct v.
Qed.

Lemma get_persistent_only c k now :
  get c k PERSISTENT_ONLY now
  = (fst (PersistentCache.get (persistent_cache c) k now),
     with_persistent c (snd (PersistentCache.get (persistent_cache c) k now))).
Proof.
  unfold get. cbn [uses_memory uses_persistent is_both].
  destruct (PersistentCache.get (persistent_cache c) k now) as [v p]. now destruct v.
Qed.

Lemma get_both_memory_hit c k now :
  is_none (fst (MemoryCache.get (memory_cache c) k now)) = false ->
  get c k BOTH now
  = (fst (MemoryCache.get (memory_cache c) k now),
     with_memory c (snd (MemoryCache.get (memory_cache c) k now))).
Proof.
  unfold get. cbn [uses_memory uses_persistent].
  destruct (MemoryCache.get (memory_cache c) k now) as [v m]. simpl. now intros ->.
Qed.

(** When the memory tier returns [None], the persistent tier is asked, and
    what it returns, if it is not [None], is written to the memory tier. *)
Lemma get_both_memory_miss c k now :
  fst (MemoryCache.get (memory_cache c) k now) = VNone ->
  get c k BOTH now
  = (fst (PersistentCache.get (persistent_cache c) k now),
     if is_none (fst (PersistentCache.get (persistent_cache c) k now))
     then make (snd (MemoryCache.get (memory_cache c) k now))
               (snd (PersistentCache.get (persistent_cache c) k now))
     else make (MemoryCache.set (snd (MemoryCache.get (memory_cache c) k now)) k
                  (fst (PersistentCache.get (persistent_cache c) k now)) None now)
               (snd (PersistentCache.get (persistent_cache c) k now))).
Proof.
  unfold get. cbn [uses_memory uses_persistent is_both].
  destruct (MemoryCache.get (memory_cache c) k now) as [v m]. simpl. intros ->. simpl.
  destruct (PersistentCache.get (persistent_cache c) k now) as [v p]. simpl.
  now destruct v.
Qed.
End ManagerFacts.

(** C8. For a value that pickles, [set(k, v, ttl=60, level=PERSISTENT_ONLY)]
    followed by [get(k, level=PERSISTENT_ONLY)] no later than 60 seconds after
    returns [v]; and so does the [get] of any other instance opened on the
    directory the [set] left: a new [CacheManager], or a new
    [PersistentCache] whatever its default time to live. *)
Theorem persistent_round_trip
  (c : CacheManager.t) (k : string) (v : pyval) (t0 t1 : Z) :
  picklable v = true ->
  t1 - t0 <= 60 ->
  fst (CacheManager.get (CacheManager.set c k v (Some 60) PERSISTENT_ONLY t0)
         k PERSISTENT_ONLY t1) = v
  /\ (forall memory_size,
        fst (CacheManager.get
               (CacheManager.new
                  (PersistentCache.cache_dir
                     (CacheManager.persistent_cache
                        (CacheManager.set c k v (Some 60) PERSISTENT_ONLY t0)))
                  memory_size)
               k PERSISTENT_ONLY t1) = v)
  /\ (forall default_ttl,
        fst (PersistentCache.get
               (PersistentCache.new
                  (PersistentCache.cache_dir
                     (CacheManager.persistent_cache
                        (CacheManager.set c k v (Some 60) PERSISTENT_ONLY t0)))
                  default_ttl)
               k t1) = v).
Proof.
  intros P Ht.
  assert (X : CacheEntry.is_expired (CacheEntry.new k v t0 60) t1 = false).
  { apply is_expired_within. right. rewrite new_eq. simpl. lia. }
  unfold CacheManager.set. cbn [uses_memory uses_persistent].
  cbn [CacheManager.persistent_cache CacheManager.with_persistent].
  split; [|split].
  - rewrite get_persistent_only. cbn [fst CacheManager.persistent_cache
      CacheManager.with_persistent].
    now apply (get_after_set (CacheManager.persistent_cache c) k v (Some 60) t0 t1 P X).
  - intros memory_size. rewrite get_persistent_only.
    cbn [fst CacheManager.persistent_cache CacheManager.new].
    now apply (get_after_set (CacheManager.persistent_cache c) k v (Some 60) t0 t1 P X).
  - intros default_ttl.
    now apply (get_after_set (CacheManager.persistent_cache c) k v (Some 60) t0 t1 P X).
Qed.

Lemma persistent_round_trip_witness :
  fst (CacheManager.get
         (CacheManager.set (CacheManager.new ∅ 1000) "k"
            (VDict [(VStr "model", VStr "S20"); (VStr "locked", VBool true)])
            (Some 60) PERSISTENT_ONLY 100)
         "k" PERSISTENT_ONLY 160)
  = VDict [(VStr "model", VStr "S20"); (VStr "locked", VBool true)].
Proof.
  destruct (persistent_round_trip (CacheManager.new ∅ 1000) "k"
              (VDict [(VStr "model", VStr "S20"); (VStr "locked", VBool true)]) 100 160)
    as [H _].
  - reflexivity.
  - lia.
  - exact H.
Defined.

(** ** Values of [None] *)

Section NoneFacts.
Implicit Types (m : MemoryCache.t) (p : PersistentCache.t) (c : CacheManager.t) (k : string).

Lemma memory_get_absent m k now :
  dict_get k (MemoryCache._cache m) = None ->
  MemoryCache.get m k now
  = (VNone, MemoryCache.with_stats m (MemoryCache.count_miss (MemoryCache._stats m))).
Proof. intros H. unfold MemoryCache.get. now rewrite H. Qed.

Lemma memory_get_live m k e now :
  dict_get k (MemoryCache._cache m) = Some e ->
  CacheEntry.is_expired e now = false ->
  MemoryCache.get m k now
  = (CacheEntry.value e,
     MemoryCache.make (MemoryCache.max_size m) (MemoryCache.default_ttl m)
       (dict_set k (snd (CacheEntry.access e now)) (MemoryCache._cache m))
       (MemoryCache.count_hit (MemoryCache._stats m))).
Proof. intros H X. unfold MemoryCache.get. now rewrite H, X. Qed.

Lemma memory_get_default_ttl m k now :
  MemoryCache.default_ttl (snd (MemoryCache.get m k now)) = MemoryCache.default_ttl m.
Proof.
  unfold MemoryCache.get. destruct (dict_get k (MemoryCache._cache m)) as [e|]; [|reflexivity].
  now destruct (CacheEntry.is_expired e now).
Qed.

Lemma memory_get_no_value m k now :
  memory_value m k = VNone ->
  fst (MemoryCache.get m k now) = VNone
  /\ memory_value (snd (MemoryCache.get m k now)) k = VNone.
Proof.
  unfold memory_value, MemoryCache.get.
  destruct (dict_get k (MemoryCache._cache m)) as [e|] eqn:E.
  - intros Hv. destruct (CacheEntry.is_expired e now); simpl.
    + now rewrite dict_get_del_eq.
    + now rewrite dict_get_set_eq.
  - intros _. simpl. now rewrite E.
Qed.

Lemma memory_set_lookup m k v ttl now :
  dict_get k (MemoryCache._cache (MemoryCache.set m k v ttl now))
  = Some (CacheEntry.new k v now (MemoryCache.ttl_or_default m ttl)).
Proof. rewrite set_unfold. cbv zeta. simpl. apply dict_get_set_eq. Qed.

Lemma memory_set_value m k v ttl now :
  memory_value (MemoryCache.set m k v ttl now) k = v.
Proof. unfold memory_value. now rewrite memory_set_lookup. Qed.

(** A [set] does not bring in a key other than its own. *)
Lemma memory_set_other_absent m k k' v ttl now :
  k <> k' -> dict_get k' (MemoryCache._cache m) = None ->
  dict_get k' (MemoryCache._cache (MemoryCache.set m k v ttl now)) = None.
Proof.
  intros Hne H. rewrite set_unfold. cbv zeta.
  cbn [MemoryCache._cache MemoryCache.with_cache].
  rewrite dict_get_set_ne by exact Hne.
  assert (H1 : dict_get k' (dict_del k (MemoryCache._cache m)) = None)
    by (rewrite dict_get_del, H; now destruct (String.eqb k k')).
  destruct (_ >=? _); [|exact H1].
  unfold MemoryCache._evict_lru. cbn [MemoryCache._cache MemoryCache.with_cache].
  destruct (MemoryCache.lru_key _) as [r|]; [|exact H1].
  cbn [MemoryCache._cache]. rewrite dict_get_del, H1. now destruct (String.eqb r k').
Qed.

(** With room left, a [set] leaves the entries of the other keys alone. *)
Lemma memory_set_other_room m k k' v ttl now :
  k <> k' -> MemoryCache.size m < MemoryCache.max_size m ->
  dict_get k' (MemoryCache._cache (MemoryCache.set m k v ttl now))
  = dict_get k' (MemoryCache._cache m)
  /\ MemoryCache.size (MemoryCache.set m k v ttl now) <= MemoryCache.size m + 1
  /\ MemoryCache.max_size (MemoryCache.set m k v ttl now) = MemoryCache.max_size m.
Proof.
  intros Hne Hroom. split; [|split; [|apply set_max_size]].
  - rewrite set_unfold. cbv zeta. cbn [MemoryCache._cache MemoryCache.with_cache].
    pose proof (length_dict_del_le k (MemoryCache._cache m)) as Hle.
    destruct (Z.geb_spec (dict_len (dict_del k (MemoryCache._cache m)))
                (MemoryCache.max_size m)) as [Hfull|_].
    + unfold MemoryCache.size, dict_len in *. lia.
    + cbn [MemoryCache._cache MemoryCache.with_cache].
      rewrite dict_get_set_ne by exact Hne. now apply dict_get_del_ne.
  - rewrite set_unfold. cbv zeta. cbn [MemoryCache._cache MemoryCache.with_cache].
    pose proof (length_dict_del_le k (MemoryCache._cache m)) as Hle.
    destruct (Z.geb_spec (dict_len (dict_del k (MemoryCache._cache m)))
                (MemoryCache.max_size m)) as [Hfull|_].
    + unfold MemoryCache.size, dict_len in *. lia.
    + unfold MemoryCache.size, dict_len. cbn [MemoryCache._cache MemoryCache.with_cache].
      pose proof (length_dict_set_le k
                    (CacheEntry.new k v now (MemoryCache.ttl_or_default m ttl))
                    (dict_del k (MemoryCache._cache m))). lia.
Qed.

Lemma persistent_get_no_value p k now :
  persistent_value p k = VNone ->
  fst (PersistentCache.get p k now) = VNone
  /\ persistent_value (snd (PersistentCache.get p k now)) k = VNone.
Proof.
  unfold persistent_value.
  destruct (PersistentCache.cache_dir p !! PersistentCache._get_cache_file k)
    as [f|] eqn:Ef.
  - destruct (PersistentCache.load_entry f) as [e|x] eqn:El.
    + intros Hv. destruct (CacheEntry.is_expired e now) eqn:X.
      * rewrite (get_expired p k f e now Ef El X). simpl. now rewrite lookup_delete_eq.
      * rewrite (get_live p k f e now Ef El X) by now rewrite Hv.
        simpl. rewrite lookup_insert_eq, load_entry_pickled.
        split; [exact Hv|].
        now destruct (post_init_fields
                        (CacheEntry.make (CacheEntry.key e) (CacheEntry.value e)
                           (CacheEntry.timestamp e) (CacheEntry.ttl e)
                           (CacheEntry.access_count e + 1) now)) as (_ & -> & _).
    + intros _. rewrite (get_unreadable p k f x now Ef El). simpl.
      now rewrite lookup_delete_eq.
  - intros _. rewrite (get_absent p k now Ef). simpl. now rewrite Ef.
Qed.

Lemma persistent_set_value p k v ttl now :
  persistent_value (PersistentCache.set p k v ttl now) k
  = if picklable v then v else VNone.
Proof.
  unfold persistent_value. destruct (picklable v) eqn:P.
  - rewrite (set_dir p k v ttl now P), lookup_insert_eq, load_entry_pickled.
    now rewrite post_init_new.
  - now rewrite (set_dir_unpicklable p k v ttl now P), lookup_insert_eq.
Qed.

Lemma persistent_set_other p k k' v ttl now :
  PersistentCache._get_cache_file k <> PersistentCache._get_cache_file k' ->
  PersistentCache.cache_dir (PersistentCache.set p k v ttl now)
    !! PersistentCache._get_cache_file k'
  = PersistentCache.cache_dir p !! PersistentCache._get_cache_file k'.
Proof.
  intros Hne. destruct (picklable v) eqn:P.
  - rewrite (set_dir p k v ttl now P). now apply lookup_insert_ne.
  - rewrite (set_dir_unpicklable p k v ttl now P). now apply lookup_insert_ne.
Qed.

Lemma manager_get_no_value c k level now :
  no_value_for c k level ->
  fst (CacheManager.get c k level now) = VNone
  /\ no_value_for (snd (CacheManager.get c k level now)) k level.
Proof.
  intros [Hm Hp]. destruct level.
  - rewrite get_memory_only. simpl in *.
    destruct (memory_get_no_value (CacheManager.memory_cache c) k now (Hm eq_refl)) as [E1 E2].
    split; [exact E1|]. split; [intros _; exact E2 | discriminate].
  - rewrite get_persistent_only. simpl in *.
    destruct (persistent_get_no_value (CacheManager.persistent_cache c) k now (Hp eq_refl))
      as [E1 E2].
    split; [exact E1|]. split; [discriminate | intros _; exact E2].
  - simpl in *.
    destruct (memory_get_no_value (CacheManager.memory_cache c) k now (Hm eq_refl)) as [E1 E2].
    destruct (persistent_get_no_value (CacheManager.persistent_cache c) k now (Hp eq_refl))
      as [E3 E4].
    rewrite (get_both_memory_miss c k now E1). rewrite E3. simpl.
    split; [reflexivity|]. split; intros _; assumption.
Qed.

Lemma manager_set_none c k ttl level now :
  no_value_for (CacheManager.set c k VNone ttl level now) k level.
Proof.
  unfold CacheManager.set, no_value_for.
  destruct level;
    cbn [uses_memory uses_persistent CacheManager.memory_cache
         CacheManager.persistent_cache CacheManager.with_memory
         CacheManager.with_persistent];
    split; try discriminate; intros _.
  - apply memory_set_value.
  - now rewrite persistent_set_value.
  - apply memory_set_value.
  - now rewrite persistent_set_value.
Qed.

Lemma cached_function_miss ttl level func args kwargs key now done w :
  CacheManager.function_key func args kwargs = Ok key ->
  fst (CacheManager.get (CacheManager.manager w) key level now) = VNone ->
  CacheManager.cached_function ttl level func args kwargs now done w
  = (Ok (func_call func args kwargs),
     CacheManager.World
       (CacheManager.set (snd (CacheManager.get (CacheManager.manager w) key level now)) key
          (func_call func args kwargs) (Some ttl) level done)
       (CacheManager.calls w ++ [(args, kwargs)])).
Proof.
  intros Hkey Hmiss. unfold CacheManager.cached_function. rewrite Hkey.
  destruct (CacheManager.get (CacheManager.manager w) key level now) as [v c1].
  simpl in *. now subst v.
Qed.

Lemma cached_function_hit ttl level func args kwargs key now done w :
  CacheManager.function_key func args kwargs = Ok key ->
  is_none (fst (CacheManager.get (CacheManager.manager w) key level now)) = false ->
  CacheManager.cached_function ttl level func args kwargs now done w
  = (Ok (fst (CacheManager.get (CacheManager.manager w) key level now)),
     CacheManager.World (snd (CacheManager.get (CacheManager.manager w) key level now))
       (CacheManager.calls w)).
Proof.
  intros Hkey Hhit. unfold CacheManager.cached_function. rewrite Hkey.
  destruct (CacheManager.get (CacheManager.manager w) key level now) as [v c1].
  simpl in *. now rewrite Hhit.
Qed.

(** A call of a memoized function that returns [None], in a cache that
    holds no value under its key. *)
Lemma cached_function_none ttl level func args kwargs key now done w :
  CacheManager.function_key func args kwargs = Ok key ->
  func_call func args kwargs = VNone ->
  no_value_for (CacheManager.manager w) key level ->
  fst (CacheManager.cached_function ttl level func args kwargs now done w) = Ok VNone
  /\ CacheManager.calls
       (snd (CacheManager.cached_function ttl level func args kwargs now done w))
     = CacheManager.calls w ++ [(args, kwargs)]
  /\ no_value_for
       (CacheManager.manager
          (snd (CacheManager.cached_function ttl level func args kwargs now done w)))
       key level.
Proof.
  intros Hkey Hres Hno. unfold CacheManager.cached_function. rewrite Hkey.
  destruct (manager_get_no_value (CacheManager.manager w) key level now Hno) as [E _].
  destruct (CacheManager.get (CacheManager.manager w) key level now) as [v c1].
  simpl in E. subst v. simpl. rewrite Hres.
  split; [reflexivity|]. split; [reflexivity|]. apply manager_set_none.
Qed.
End NoneFacts.

(** C10. Through [CacheManager] a stored [None] cannot be told from a miss.
    After [set(k, None, level)], [get(k, level)] returns [None] for every
    level and at every time. With [level = BOTH], an entry of the memory tier
    that holds [None] does not end the lookup: the persistent tier is asked
    and the call returns what it returns. And a memoized function whose result
    is [None], in a cache that holds no value under its key, calls the
    function at every call: after the calls at [times] the function has been
    called once more for each of them. The same holds from any cache once a
    call has missed and the function has returned [None]. *)
Theorem none_is_a_miss :
  (forall (c : CacheManager.t) (k : string) (ttl : option Z) (level : CacheLevel) (t0 t1 : Z),
      fst (CacheManager.get (CacheManager.set c k VNone ttl level t0) k level t1) = VNone)
  /\
  (forall (c : CacheManager.t) (k : string) (e : CacheEntry.t) (now : Z),
      dict_get k (MemoryCache._cache (CacheManager.memory_cache c)) = Some e ->
      CacheEntry.value e = VNone ->
      fst (CacheManager.get c k BOTH now)
      = fst (PersistentCache.get (CacheManager.persistent_cache c) k now)
      /\ CacheManager.persistent_cache (snd (CacheManager.get c k BOTH now))
         = snd (PersistentCache.get (CacheManager.persistent_cache c) k now))
  /\
  (forall (ttl : Z) (level : CacheLevel) (func : callable) (args : list pyval)
          (kwargs : list (string * pyval)) (key : string) (w : CacheManager.world)
          (times : list (Z * Z)),
      CacheManager.function_key func args kwargs = Ok key ->
      func_call func args kwargs = VNone ->
      no_value_for (CacheManager.manager w) key level ->
      CacheManager.calls (call_at_times ttl level func args kwargs times w)
      = CacheManager.calls w ++ List.repeat (args, kwargs) (List.length times))
  /\
  (forall (ttl : Z) (level : CacheLevel) (func : callable) (args : list pyval)
          (kwargs : list (string * pyval)) (key : string) (w : CacheManager.world)
          (now done : Z) (times : list (Z * Z)),
      CacheManager.function_key func args kwargs = Ok key ->
      func_call func args kwargs = VNone ->
      fst (CacheManager.get (CacheManager.manager w) key level now) = VNone ->
      CacheManager.calls (call_at_times ttl level func args kwargs ((now, done) :: times) w)
      = CacheManager.calls w ++ List.repeat (args, kwargs) (S (List.length times))).
Proof.
  assert (Hrepeat : forall ttl level func args kwargs key times,
             CacheManager.function_key func args kwargs = Ok key ->
             func_call func args kwargs = VNone ->
             forall w, no_value_for (CacheManager.manager w) key level ->
             CacheManager.calls (call_at_times ttl level func args kwargs times w)
             = CacheManager.calls w ++ List.repeat (args, kwargs) (List.length times)).
  { intros ttl level func args kwargs key times Hkey Hres.
    induction times as [|[now done] later IH]; intros w Hno; simpl.
    - now rewrite List.app_nil_r.
    - destruct (cached_function_none ttl level func args kwargs key now done w Hkey Hres Hno)
        as (_ & Hcalls & Hno').
      rewrite (IH _ Hno'), Hcalls, <- List.app_assoc. reflexivity. }
  split; [|split; [|split]].
  - intros c k ttl level t0 t1.
    apply manager_get_no_value, manager_set_none.
  - intros c k e now Hk Hv.
    assert (Hm : memory_value (CacheManager.memory_cache c) k = VNone)
      by (unfold memory_value; now rewrite Hk).
    destruct (memory_get_no_value (CacheManager.memory_cache c) k now Hm) as [E _].
    rewrite (get_both_memory_miss c k now E). simpl.
    split; [reflexivity|]. now destruct (is_none _).
  - intros ttl level func args kwargs key w times Hkey Hres Hno.
    now apply (Hrepeat ttl level func args kwargs key times Hkey Hres w).
  - intros ttl level func args kwargs key w now done times Hkey Hres Hmiss.
    cbn [call_at_times].
    rewrite (cached_function_miss ttl level func args kwargs key now done w Hkey Hmiss).
    cbn [snd]. rewrite Hres.
    rewrite (Hrepeat ttl level func args kwargs key times Hkey Hres);
      cbn [CacheManager.manager CacheManager.calls].
    + rewrite <- List.app_assoc. reflexivity.
    + apply manager_set_none.
Qed.

Lemma none_is_a_miss_witness :
  CacheManager.calls
    (call_at_times 3600 MEMORY_ONLY
       {| func_name := "probe"; func_call := fun _ _ => VNone |}
       [VInt 1] [] [(10, 10); (11, 13); (14, 15)]
       (CacheManager.World (CacheManager.new ∅ 1000) []))
  = [([VInt 1], []); ([VInt 1], []); ([VInt 1], [])].
Proof.
  destruct none_is_a_miss as (_ & _ & H & _).
  apply (H 3600 MEMORY_ONLY {| func_name := "probe"; func_call := fun _ _ => VNone |}
           [VInt 1] [] "func:039898cf2f9c4af22f6f9a6ebe5c2d67"
           (CacheManager.World (CacheManager.new ∅ 1000) []) [(10, 10); (11, 13); (14, 15)]).
  - vm_compute. reflexivity.
  - reflexivity.
  - split; [reflexivity | discriminate].
Defined.

(** ** Promotion *)

Lemma within_ttl_not_expired k v t0 ttl now :
  within_ttl t0 ttl now -> CacheEntry.is_expired (CacheEntry.new k v t0 ttl) now = false.
Proof. intros H. apply is_expired_within. rewrite new_eq. exact H. Qed.

(** C4, as the code has it. For a value [v] other than [None] that pickles,
    and a memory tier that holds no value under [k]: after
    [set(k, v, ttl, level=PERSISTENT_ONLY)], a [get(k, level=BOTH)] made
    before the persistent entry expires returns [v] and writes into the memory
    tier an entry for [v] created at the time of the [get] with the memory
    tier's default time to live; a later [get(k, level=MEMORY_ONLY)], made
    before that entry expires, returns [v] too and leaves the persistent tier
    as it was. *)
Theorem persistent_hit_is_promoted
  (c : CacheManager.t) (k : string) (v : pyval) (ttl : option Z) (t0 t1 t2 : Z) :
  is_none v = false ->
  picklable v = true ->
  memory_value (CacheManager.memory_cache c) k = VNone ->
  within_ttl t0
    (match ttl with
     | Some n => n
     | None => PersistentCache.default_ttl (CacheManager.persistent_cache c)
     end) t1 ->
  within_ttl t1 (MemoryCache.default_ttl (CacheManager.memory_cache c)) t2 ->
  fst (CacheManager.get (CacheManager.set c k v ttl PERSISTENT_ONLY t0) k BOTH t1) = v
  /\ dict_get k
       (MemoryCache._cache
          (CacheManager.memory_cache
             (snd (CacheManager.get (CacheManager.set c k v ttl PERSISTENT_ONLY t0) k BOTH t1))))
     = Some (CacheEntry.new k v t1 (MemoryCache.default_ttl (CacheManager.memory_cache c)))
  /\ fst (CacheManager.get
            (snd (CacheManager.get (CacheManager.set c k v ttl PERSISTENT_ONLY t0) k BOTH t1))
            k MEMORY_ONLY t2) = v
  /\ CacheManager.persistent_cache
       (snd (CacheManager.get
               (snd (CacheManager.get (CacheManager.set c k v ttl PERSISTENT_ONLY t0) k BOTH t1))
               k MEMORY_ONLY t2))
     = CacheManager.persistent_cache
         (snd (CacheManager.get (CacheManager.set c k v ttl PERSISTENT_ONLY t0) k BOTH t1)).
Proof.
  intros Hv P Hm Hp Hmem.
  set (c1 := CacheManager.set c k v ttl PERSISTENT_ONLY t0).
  assert (Ec1 : c1 = CacheManager.make (CacheManager.memory_cache c)
                       (PersistentCache.set (CacheManager.persistent_cache c) k v ttl t0))
    by reflexivity.
  destruct (memory_get_no_value (CacheManager.memory_cache c) k t1 Hm) as [E1 _].
  assert (E2 : fst (PersistentCache.get (CacheManager.persistent_cache c1) k t1) = v).
  { apply (get_after_set (CacheManager.persistent_cache c) k v ttl t0 t1 P).
    - now apply within_ttl_not_expired.
    - now rewrite Ec1. }
  assert (Eget : CacheManager.get c1 k BOTH t1
                 = (v, CacheManager.make
                         (MemoryCache.set
                            (snd (MemoryCache.get (CacheManager.memory_cache c) k t1))
                            k v None t1)
                         (snd (PersistentCache.get (CacheManager.persistent_cache c1) k t1)))).
  { rewrite (get_both_memory_miss c1 k t1) by (rewrite Ec1; exact E1).
    rewrite E2, Hv. now rewrite Ec1. }
  rewrite Eget. cbn [fst snd CacheManager.memory_cache].
  assert (Elook : dict_get k
                    (MemoryCache._cache
                       (MemoryCache.set
                          (snd (MemoryCache.get (CacheManager.memory_cache c) k t1))
                          k v None t1))
                  = Some (CacheEntry.new k v t1
                            (MemoryCache.default_ttl (CacheManager.memory_cache c)))).
  { rewrite memory_set_lookup. cbn [MemoryCache.ttl_or_default].
    now rewrite memory_get_default_ttl. }
  split; [reflexivity|]. split; [exact Elook|].
  rewrite get_memory_only. cbn [fst snd CacheManager.memory_cache
    CacheManager.persistent_cache CacheManager.with_memory].
  split; [|reflexivity].
  rewrite (memory_get_live _ k _ t2 Elook) by now apply within_ttl_not_expired.
  reflexivity.
Qed.

Lemma persistent_hit_is_promoted_witness :
  fst (CacheManager.get
         (CacheManager.set (CacheManager.new ∅ 1000) "k" (VStr "v") None PERSISTENT_ONLY 0)
         "k" BOTH 86400) = VStr "v"
  /\ fst (CacheManager.get
            (snd (CacheManager.get
                    (CacheManager.set (CacheManager.new ∅ 1000) "k" (VStr "v") None
                       PERSISTENT_ONLY 0)
                    "k" BOTH 86400))
            "k" MEMORY_ONLY 90000) = VStr "v".
Proof.
  destruct (persistent_hit_is_promoted (CacheManager.new ∅ 1000) "k" (VStr "v") None
              0 86400 90000) as (H1 & _ & H2 & _).
  - reflexivity.
  - reflexivity.
  - reflexivity.
  - right. simpl. lia.
  - right. simpl. lia.
  - split; [exact H1 | exact H2].
Defined.

(** C4 as stated fails in these cases.
    - For [v = None] the persistent tier stores the entry and serves it (its
      access is recorded in the file), but [get] with [level = BOTH] writes
      nothing into the memory tier.
    - When the memory tier holds another value under [k], that value is
      returned: the tiers are not kept in step.
    - A value that does not pickle is not stored at all: the [get] misses. *)
Lemma persistent_hit_is_promoted_counterexample :
  (PersistentCache.cache_dir
     (CacheManager.persistent_cache
        (snd (CacheManager.get
                (CacheManager.set (CacheManager.new ∅ 1000) "k" VNone None PERSISTENT_ONLY 0)
                "k" BOTH 1)))
     !! PersistentCache._get_cache_file "k"
   = Some (Pickled (CacheEntry.make "k" VNone 0 86400 1 1))
   /\ MemoryCache._cache
        (CacheManager.memory_cache
           (snd (CacheManager.get
                   (CacheManager.set (CacheManager.new ∅ 1000) "k" VNone None PERSISTENT_ONLY 0)
                   "k" BOTH 1)))
      = [])
  /\
  fst (CacheManager.get
         (CacheManager.set
            (CacheManager.set (CacheManager.new ∅ 1000) "k" (VStr "old") None MEMORY_ONLY 0)
            "k" (VStr "new") None PERSISTENT_ONLY 1)
         "k" BOTH 2)
  = VStr "old"
  /\
  fst (CacheManager.get
         (CacheManager.set (CacheManager.new ∅ 1000) "k" (VObj "<handle>" false) None
            PERSISTENT_ONLY 1)
         "k" BOTH 2)
  = VNone.
Proof.
  vm_compute. repeat split.
Qed.

(** ** The memoizing wrapper *)



Section WrapperFacts.
Import CacheManager.
Implicit Types (c : CacheManager.t) (k : string) (w : CacheManager.world).

(** A lookup of a key that no selected tier holds: a miss that leaves the
    store and the directory as they were. *)
Lemma get_absent_from c k level now :
  absent_from c k level ->
  fst (get c k level now) = VNone
  /\ MemoryCache._cache (memory_cache (snd (get c k level now)))
     = MemoryCache._cache (memory_cache c)
  /\ MemoryCache.max_size (memory_cache (snd (get c k level now)))
     = MemoryCache.max_size (memory_cache c)
  /\ MemoryCache.default_ttl (memory_cache (snd (get c k level now)))
     = MemoryCache.default_ttl (memory_cache c)
  /\ persistent_cache (snd (get c k level now)) = persistent_cache c.
Proof.
  intros [Hm Hp]. destruct level; simpl in Hm, Hp.
  - rewrite get_memory_only, (memory_get_absent _ k now (Hm eq_refl)). simpl. auto.
  - rewrite get_persistent_only, (get_absent _ k now (Hp eq_refl)). simpl. auto.
  - rewrite get_both_memory_miss
      by now rewrite (memory_get_absent _ k now (Hm eq_refl)).
    rewrite (memory_get_absent _ k now (Hm eq_refl)), (get_absent _ k now (Hp eq_refl)).
    simpl. auto.
Qed.

(** What was just stored is served while it has not expired. *)
Lemma get_after_set_same_level c k v ttl level t0 t1 :
  is_none v = false ->
  (level = PERSISTENT_ONLY -> picklable v = true) ->
  within_ttl t0 ttl t1 ->
  fst (get (set c k v (Some ttl) level t0) k level t1) = v.
Proof.
  intros Hv P Ht.
  assert (Hmem : forall m,
             MemoryCache.get (MemoryCache.set m k v (Some ttl) t0) k t1
             = (v, snd (MemoryCache.get (MemoryCache.set m k v (Some ttl) t0) k t1))).
  { intros m.
    rewrite (memory_get_live _ k _ t1 (memory_set_lookup m k v (Some ttl) t0))
      by now apply within_ttl_not_expired.
    reflexivity. }
  unfold set. destruct level; cbn [uses_memory uses_persistent].
  - rewrite get_memory_only. cbn [memory_cache with_memory fst]. now rewrite Hmem.
  - rewrite get_persistent_only. cbn [persistent_cache with_persistent fst].
    apply (get_after_set (persistent_cache c) k v (Some ttl) t0 t1 (P eq_refl));
      [now apply within_ttl_not_expired | reflexivity].
  - rewrite get_both_memory_hit; cbn [memory_cache with_memory with_persistent fst];
      rewrite Hmem; [reflexivity | exact Hv].
Qed.

(** Storing under one key keeps another key absent. *)
Lemma set_keeps_absent c k k' v ttl level now :
  k <> k' ->
  (uses_persistent level = true ->
   PersistentCache._get_cache_file k <> PersistentCache._get_cache_file k') ->
  absent_from c k' level -> absent_from (set c k v ttl level now) k' level.
Proof.
  intros Hne Hfile [Hm Hp]. unfold set.
  destruct level; cbn [uses_memory uses_persistent] in *; split;
    try discriminate; intros _;
    cbn [memory_cache persistent_cache with_memory with_persistent].
  - now apply memory_set_other_absent; [|apply Hm].
  - rewrite persistent_set_other by now apply Hfile. now apply Hp.
  - now apply memory_set_other_absent; [|apply Hm].
  - rewrite persistent_set_other by now apply Hfile. now apply Hp.
Qed.

Lemma set_memory_cache c k v ttl level now :
  uses_memory level = true ->
  memory_cache (set c k v ttl level now) = MemoryCache.set (memory_cache c) k v ttl now.
Proof. unfold set. destruct level; [reflexivity | discriminate | reflexivity]. Qed.

Lemma set_persistent_cache c k v ttl level now :
  uses_persistent level = true ->
  persistent_cache (set c k v ttl level now)
  = PersistentCache.set (persistent_cache c) k v ttl now.
Proof. unfold set. destruct level; [discriminate | reflexivity | reflexivity]. Qed.
End WrapperFacts.

(** C5, as the code has it. Take a memoized function and a cache that holds
    nothing under the keys involved.
    - Two calls with the same arguments, the second within the time to live
      of the entry the first one stored, call the function once and both
      return its result, provided that result is not [None] (and pickles,
      when only the persistent tier is used).
    - Two calls whose arguments derive different keys (kept in different
      files, when the persistent tier is used) call the function twice and
      store each result under its own key: the second entry is in place after
      the second call, and so is the first one, in the memory tier when it had
      room for two more entries, in the persistent tier when the result
      pickles. *)
Theorem memoization_idempotence
  (ttl : Z) (level : CacheLevel) (func : callable) (w : CacheManager.world) :
  (forall args kwargs key t0 d0 t1 d1,
      CacheManager.function_key func args kwargs = Ok key ->
      is_none (func_call func args kwargs) = false ->
      (level = PERSISTENT_ONLY -> picklable (func_call func args kwargs) = true) ->
      absent_from (CacheManager.manager w) key level ->
      within_ttl d0 ttl t1 ->
      let r1 := CacheManager.cached_function ttl level func args kwargs t0 d0 w in
      let r2 := CacheManager.cached_function ttl level func args kwargs t1 d1 (snd r1) in
      fst r1 = Ok (func_call func args kwargs)
      /\ fst r2 = Ok (func_call func args kwargs)
      /\ CacheManager.calls (snd r2) = CacheManager.calls w ++ [(args, kwargs)])
  /\
  (forall args1 kwargs1 args2 kwargs2 key1 key2 t0 d0 t1 d1,
      CacheManager.function_key func args1 kwargs1 = Ok key1 ->
      CacheManager.function_key func args2 kwargs2 = Ok key2 ->
      key1 <> key2 ->
      (uses_persistent level = true ->
       PersistentCache._get_cache_file key1 <> PersistentCache._get_cache_file key2) ->
      absent_from (CacheManager.manager w) key1 level ->
      absent_from (CacheManager.manager w) key2 level ->
      let r1 := CacheManager.cached_function ttl level func args1 kwargs1 t0 d0 w in
      let r2 := CacheManager.cached_function ttl level func args2 kwargs2 t1 d1 (snd r1) in
      let m2 := CacheManager.memory_cache (CacheManager.manager (snd r2)) in
      let p2 := CacheManager.persistent_cache (CacheManager.manager (snd r2)) in
      fst r1 = Ok (func_call func args1 kwargs1)
      /\ fst r2 = Ok (func_call func args2 kwargs2)
      /\ CacheManager.calls (snd r2)
         = CacheManager.calls w ++ [(args1, kwargs1); (args2, kwargs2)]
      /\ (uses_memory level = true ->
          dict_get key2 (MemoryCache._cache m2)
          = Some (CacheEntry.new key2 (func_call func args2 kwargs2) d1 ttl)
          /\ (MemoryCache.size (CacheManager.memory_cache (CacheManager.manager w)) + 2
              <= MemoryCache.max_size (CacheManager.memory_cache (CacheManager.manager w)) ->
              dict_get key1 (MemoryCache._cache m2)
              = Some (CacheEntry.new key1 (func_call func args1 kwargs1) d0 ttl)))
      /\ (uses_persistent level = true ->
          (picklable (func_call func args2 kwargs2) = true ->
           PersistentCache.cache_dir p2 !! PersistentCache._get_cache_file key2
           = Some (Pickled (CacheEntry.new key2 (func_call func args2 kwargs2) d1 ttl)))
          /\ (picklable (func_call func args1 kwargs1) = true ->
              PersistentCache.cache_dir p2 !! PersistentCache._get_cache_file key1
              = Some (Pickled (CacheEntry.new key1 (func_call func args1 kwargs1) d0 ttl))))).
Proof.
  split.
  - intros args kwargs key t0 d0 t1 d1 Hkey Hv P Habs Ht r1 r2.
    destruct (get_absent_from (CacheManager.manager w) key level t0 Habs) as (Emiss & _).
    assert (E1 : r1 = (Ok (func_call func args kwargs),
                       CacheManager.World
                         (CacheManager.set
                            (snd (CacheManager.get (CacheManager.manager w) key level t0))
                            key (func_call func args kwargs) (Some ttl) level d0)
                         (CacheManager.calls w ++ [(args, kwargs)])))
      by (subst r1; now apply cached_function_miss).
    assert (Eget : fst (CacheManager.get (CacheManager.manager (snd r1)) key level t1)
                   = func_call func args kwargs).
    { rewrite E1. cbn [snd CacheManager.manager].
      now apply get_after_set_same_level. }
    assert (E2 : r2 = (Ok (func_call func args kwargs),
                       CacheManager.World
                         (snd (CacheManager.get (CacheManager.manager (snd r1)) key level t1))
                         (CacheManager.calls (snd r1)))).
    { subst r2.
      rewrite (cached_function_hit ttl level func args kwargs key t1 d1 (snd r1) Hkey)
        by now rewrite Eget.
      now rewrite Eget. }
    rewrite E2. cbn [fst snd CacheManager.calls]. rewrite E1.
    cbn [fst snd CacheManager.calls]. auto.
  - intros args1 kwargs1 args2 kwargs2 key1 key2 t0 d0 t1 d1 Hkey1 Hkey2 Hne Hfile
      Habs1 Habs2 r1 r2 m2 p2.
    set (c := CacheManager.manager w) in *.
    destruct (get_absent_from c key1 level t0 Habs1) as (Emiss1 & Ec1 & Emax1 & _ & Ep1).
    set (c1 := snd (CacheManager.get c key1 level t0)) in *.
    set (v1 := func_call func args1 kwargs1) in *.
    set (v2 := func_call func args2 kwargs2) in *.
    assert (E1 : r1 = (Ok v1, CacheManager.World
                                (CacheManager.set c1 key1 v1 (Some ttl) level d0)
                                (CacheManager.calls w ++ [(args1, kwargs1)])))
      by (subst r1; now apply cached_function_miss).
    set (c2 := CacheManager.set c1 key1 v1 (Some ttl) level d0) in *.
    assert (Habs2' : absent_from c2 key2 level).
    { apply set_keeps_absent; [exact Hne | exact Hfile |].
      destruct Habs2 as [Hm Hp]. split; intros Hl.
      - rewrite Ec1. now apply Hm.
      - rewrite Ep1. now apply Hp. }
    destruct (get_absent_from c2 key2 level t1 Habs2') as (Emiss2 & Ec3 & Emax3 & _ & Ep3).
    set (c3 := snd (CacheManager.get c2 key2 level t1)) in *.
    assert (E2 : r2 = (Ok v2, CacheManager.World
                                (CacheManager.set c3 key2 v2 (Some ttl) level d1)
                                (CacheManager.calls (snd r1) ++ [(args2, kwargs2)]))).
    { subst r2. rewrite E1. cbn [snd].
      rewrite (cached_function_miss ttl level func args2 kwargs2 key2 t1 d1 _ Hkey2);
        cbn [CacheManager.manager]; [reflexivity | exact Emiss2]. }
    subst m2 p2. rewrite E2. cbn [fst snd CacheManager.calls CacheManager.manager].
    rewrite E1. cbn [fst snd CacheManager.calls].
    split; [reflexivity|]. split; [reflexivity|].
    split; [now rewrite <- List.app_assoc|]. split.
    + intros Hl. rewrite (set_memory_cache c3 key2 v2 (Some ttl) level d1 Hl).
      split; [apply memory_set_lookup|].
      intros Hroom.
      assert (Hm2 : CacheManager.memory_cache c2
                    = MemoryCache.set (CacheManager.memory_cache c1) key1 v1 (Some ttl) d0)
        by now apply set_memory_cache.
      assert (Hroom1 : MemoryCache.size (CacheManager.memory_cache c1)
                       < MemoryCache.max_size (CacheManager.memory_cache c1)).
      { unfold MemoryCache.size in *. rewrite Ec1, Emax1. lia. }
      destruct (memory_set_other_room (CacheManager.memory_cache c1) key1 key2 v1 (Some ttl) d0
                  Hne Hroom1) as (_ & Hsz & Hmx).
      assert (Hroom3 : MemoryCache.size (CacheManager.memory_cache c3)
                       < MemoryCache.max_size (CacheManager.memory_cache c3)).
      { unfold MemoryCache.size in *. rewrite Ec3, Emax3, Hm2.
        rewrite Ec1, Emax1 in *. lia. }
      destruct (memory_set_other_room (CacheManager.memory_cache c3) key2 key1 v2 (Some ttl) d1
                  (not_eq_sym Hne) Hroom3) as (-> & _).
      rewrite Ec3, Hm2. apply memory_set_lookup.
    + intros Hl. rewrite (set_persistent_cache c3 key2 v2 (Some ttl) level d1 Hl).
      split.
      * intros P2. rewrite (set_dir _ key2 v2 (Some ttl) d1 P2). apply lookup_insert_eq.
      * intros P1. rewrite persistent_set_other by (apply not_eq_sym; now apply Hfile).
        rewrite Ep3. unfold c2.
        rewrite (set_persistent_cache c1 key1 v1 (Some ttl) level d0 Hl).
        rewrite (set_dir _ key1 v1 (Some ttl) d0 P1). apply lookup_insert_eq.
Qed.

Lemma memoization_idempotence_witness :
  (CacheManager.calls
     (snd (CacheManager.cached_function 60 MEMORY_ONLY
             {| func_name := "expensive_function"; func_call := fun _ _ => VInt 3 |}
             [VInt 1; VInt 2] [] 161 161
             (snd (CacheManager.cached_function 60 MEMORY_ONLY
                     {| func_name := "expensive_function"; func_call := fun _ _ => VInt 3 |}
                     [VInt 1; VInt 2] [] 100 101
                     (CacheManager.World (CacheManager.new ∅ 1000) [])))))
   = [([VInt 1; VInt 2], [])])
  /\
  (CacheManager.calls
     (snd (CacheManager.cached_function 60 BOTH
             {| func_name := "expensive_function"; func_call := fun _ _ => VInt 3 |}
             [VInt 2; VInt 3] [] 102 103
             (snd (CacheManager.cached_function 60 BOTH
                     {| func_name := "expensive_function"; func_call := fun _ _ => VInt 3 |}
                     [VInt 1; VInt 2] [] 100 101
                     (CacheManager.World (CacheManager.new ∅ 1000) [])))))
   = [([VInt 1; VInt 2], []); ([VInt 2; VInt 3], [])]).
Proof.
  split.
  - destruct (memoization_idempotence 60 MEMORY_ONLY
                {| func_name := "expensive_function"; func_call := fun _ _ => VInt 3 |}
                (CacheManager.World (CacheManager.new ∅ 1000) [])) as [Hsame _].
    destruct (Hsame [VInt 1; VInt 2] [] "func:5db77476c9397dac7f60a404a6faecaf"
                100 101 161 161) as (_ & _ & Hcalls).
    + vm_compute. reflexivity.
    + reflexivity.
    + discriminate.
    + split; [reflexivity | discriminate].
    + right. lia.
    + exact Hcalls.
  - destruct (memoization_idempotence 60 BOTH
                {| func_name := "expensive_function"; func_call := fun _ _ => VInt 3 |}
                (CacheManager.World (CacheManager.new ∅ 1000) [])) as [_ Hother].
    destruct (Hother [VInt 1; VInt 2] [] [VInt 2; VInt 3] []
                "func:5db77476c9397dac7f60a404a6faecaf"
                "func:1fdb1038e3296b90148c3df00d234b13" 100 101 102 103)
      as (_ & _ & Hcalls & _).
    + vm_compute. reflexivity.
    + vm_compute. reflexivity.
    + discriminate.
    + intros _. vm_compute. discriminate.
    + split; reflexivity.
    + split; reflexivity.
    + exact Hcalls.
Defined.

(** C5 as stated fails in these cases.
    - A function that returns [None] is called again by the second of two
      identical calls made within the time to live.
    - So is, with the persistent tier alone, a function whose result does not
      pickle.
    - Two different argument tuples can derive one key: a list and the tuple
      of the same items are serialized alike, so the second call is served the
      entry of the first and the function is called once.
    - The key is derived from the name of the function: a second function of
      the same name is served the entry of the first and is never called.
    - With a memory tier of capacity 1, the entry for the second argument
      tuple evicts the entry for the first: the function is called twice but
      one entry remains. *)
Lemma memoization_idempotence_counterexample :
  CacheManager.calls
    (snd (CacheManager.cached_function 3600 MEMORY_ONLY
            {| func_name := "probe"; func_call := fun _ _ => VNone |}
            [VInt 1] [] 11 11
            (snd (CacheManager.cached_function 3600 MEMORY_ONLY
                    {| func_name := "probe"; func_call := fun _ _ => VNone |}
                    [VInt 1] [] 10 10
                    (CacheManager.World (CacheManager.new ∅ 1000) [])))))
  = [([VInt 1], []); ([VInt 1], [])]
  /\
  CacheManager.calls
    (snd (CacheManager.cached_function 3600 PERSISTENT_ONLY
            {| func_name := "handle"; func_call := fun _ _ => VObj "<handle>" false |}
            [VInt 1] [] 11 11
            (snd (CacheManager.cached_function 3600 PERSISTENT_ONLY
                    {| func_name := "handle"; func_call := fun _ _ => VObj "<handle>" false |}
                    [VInt 1] [] 10 10
                    (CacheManager.World (CacheManager.new ∅ 1000) [])))))
  = [([VInt 1], []); ([VInt 1], [])]
  /\
  (let kind :=
     {| func_name := "kind";
        func_call := fun args _ =>
                       match args with
                       | [VList _] => VStr "list"
                       | _ => VStr "tuple"
                       end |} in
   let r :=
     CacheManager.cached_function 3600 MEMORY_ONLY kind [VTuple [VInt 1; VInt 2]] [] 11 11
       (snd (CacheManager.cached_function 3600 MEMORY_ONLY kind [VList [VInt 1; VInt 2]] []
               10 10 (CacheManager.World (CacheManager.new ∅ 1000) []))) in
   fst r = Ok (VStr "list")
   /\ CacheManager.calls (snd r) = [([VList [VInt 1; VInt 2]], [])])
  /\
  (let r :=
     CacheManager.cached_function 3600 MEMORY_ONLY
       {| func_name := "f"; func_call := fun _ _ => VInt 2 |} [VInt 1] [] 11 11
       (snd (CacheManager.cached_function 3600 MEMORY_ONLY
               {| func_name := "f"; func_call := fun _ _ => VInt 1 |} [VInt 1] []
               10 10 (CacheManager.World (CacheManager.new ∅ 1000) []))) in
   fst r = Ok (VInt 1)
   /\ CacheManager.calls (snd r) = [([VInt 1], [])])
  /\
  (let expensive_function :=
     {| func_name := "expensive_function"; func_call := fun _ _ => VInt 3 |} in
   let r :=
     CacheManager.cached_function 3600 MEMORY_ONLY expensive_function [VInt 2; VInt 3] []
       11 11
       (snd (CacheManager.cached_function 3600 MEMORY_ONLY expensive_function
               [VInt 1; VInt 2] [] 10 10
               (CacheManager.World (CacheManager.new ∅ 1) []))) in
   CacheManager.calls (snd r) = [([VInt 1; VInt 2], []); ([VInt 2; VInt 3], [])]
   /\ dict_keys (MemoryCache._cache (CacheManager.memory_cache (CacheManager.manager (snd r))))
      = ["func:1fdb1038e3296b90148c3df00d234b13"%string]).
Proof.
  vm_compute. repeat split.
Qed.

(** * Further properties of the code *)

(** ** [MemoryCache]: deletion, reset and the counters *)

Lemma dict_get_filter_key {V : Type} (f : string -> bool) (k : string)
  (d : list (string * V)) :
  dict_get k (List.filter (fun kv => f (fst kv)) d) = if f k then dict_get k d else None.
Proof.
  induction d as [|[k' v] d IH]; simpl; [now destruct (f k)|].
  destruct (f k') eqn:Fk'; simpl.
  - destruct (String.eqb_spec k' k) as [->|Hne]; [now rewrite Fk' | exact IH].
  - rewrite IH. destruct (String.eqb_spec k' k) as [->|Hne]; [now rewrite Fk' | reflexivity].
Qed.

Lemma memory_set_stats m k v ttl now :
  MemoryCache.hits (MemoryCache._stats (MemoryCache.set m k v ttl now))
  = MemoryCache.hits (MemoryCache._stats m)
  /\ MemoryCache.misses (MemoryCache._stats (MemoryCache.set m k v ttl now))
     = MemoryCache.misses (MemoryCache._stats m)
  /\ MemoryCache.expires (MemoryCache._stats (MemoryCache.set m k v ttl now))
     = MemoryCache.expires (MemoryCache._stats m).
Proof.
  rewrite set_unfold. cbv zeta. cbn [MemoryCache._stats MemoryCache.with_cache].
  destruct (_ >=? _); [|now cbn].
  unfold MemoryCache._evict_lru. destruct (MemoryCache.lru_key _); now cbn.
Qed.

(** X1. [MemoryCache.delete] reports whether the key was there, removes it and
    nothing else, and leaves the counters alone: afterwards the key is absent,
    every other key has the entry it had, the size went down by one exactly
    when the answer was [True], a [get] of the key is a miss and a second
    [delete] answers [False]. *)
Theorem memory_delete_removes_only_the_key (m : MemoryCache.t) (k : string) (now : Z) :
  dict_wf (MemoryCache._cache m) ->
  (fst (MemoryCache.delete m k) = true
   <-> exists e, dict_get k (MemoryCache._cache m) = Some e)
  /\ dict_get k (MemoryCache._cache (snd (MemoryCache.delete m k))) = None
  /\ (forall k', k' <> k ->
        dict_get k' (MemoryCache._cache (snd (MemoryCache.delete m k)))
        = dict_get k' (MemoryCache._cache m))
  /\ MemoryCache._stats (snd (MemoryCache.delete m k)) = MemoryCache._stats m
  /\ MemoryCache.size (snd (MemoryCache.delete m k))
     = MemoryCache.size m - (if fst (MemoryCache.delete m k) then 1 else 0)
  /\ fst (MemoryCache.get (snd (MemoryCache.delete m k)) k now) = VNone
  /\ fst (MemoryCache.delete (snd (MemoryCache.delete m k)) k) = false.
Proof.
  intros Hwf. unfold MemoryCache.delete at 1.
  assert (Hgone : dict_get k (MemoryCache._cache (snd (MemoryCache.delete m k))) = None).
  { unfold MemoryCache.delete. destruct (dict_mem k (MemoryCache._cache m)) eqn:Hmem;
      cbn [snd MemoryCache._cache MemoryCache.with_cache].
    - apply dict_get_del_eq.
    - now apply dict_mem_false. }
  split; [|split; [exact Hgone|]].
  - destruct (dict_mem k (MemoryCache._cache m)) eqn:Hmem; cbn [fst].
    + split; [intros _; now apply dict_mem_true | reflexivity].
    + apply dict_mem_false in Hmem. split; [discriminate | intros [e He]; congruence].
  - split; [|split; [|split; [|split]]].
    + intros k' Hne. unfold MemoryCache.delete.
      destruct (dict_mem k (MemoryCache._cache m)); cbn [snd MemoryCache._cache
        MemoryCache.with_cache]; [|reflexivity].
      apply dict_get_del_ne. congruence.
    + unfold MemoryCache.delete. now destruct (dict_mem k (MemoryCache._cache m)).
    + unfold MemoryCache.delete.
      destruct (dict_mem k (MemoryCache._cache m)) eqn:Hmem; cbn [fst snd]; [|lia].
      apply dict_mem_true in Hmem as [e He].
      pose proof (length_dict_del_present k e (MemoryCache._cache m) Hwf He).
      unfold MemoryCache.size, dict_len. cbn [MemoryCache._cache MemoryCache.with_cache]. lia.
    + now rewrite (memory_get_absent _ k now Hgone).
    + unfold MemoryCache.delete at 1. apply dict_mem_false in Hgone. now rewrite Hgone.
Qed.

Lemma memory_delete_removes_only_the_key_witness :
  fst (MemoryCache.delete
         (MemoryCache.set (MemoryCache.set (MemoryCache.new 4 3600) "a" (VInt 1) None 1)
            "b" (VInt 2) None 2) "a") = true
  /\ dict_get "b"
       (MemoryCache._cache
          (snd (MemoryCache.delete
                  (MemoryCache.set (MemoryCache.set (MemoryCache.new 4 3600) "a" (VInt 1) None 1)
                     "b" (VInt 2) None 2) "a")))
     = Some (CacheEntry.new "b" (VInt 2) 2 3600).
Proof.
  destruct (memory_delete_removes_only_the_key
              (MemoryCache.set (MemoryCache.set (MemoryCache.new 4 3600) "a" (VInt 1) None 1)
                 "b" (VInt 2) None 2) "a" 3) as (Hret & _ & Hother & _).
  - repeat constructor; simpl; intuition discriminate.
  - split.
    + apply Hret. exists (CacheEntry.new "a" (VInt 1) 1 3600). reflexivity.
    + rewrite Hother by discriminate. reflexivity.
Defined.

(** [MemoryCache.clear] empties the store but resets nothing else: the
    counters of hits, misses, evictions and expirations keep their values, as
    do the capacity and the default time to live; a [get] of any key
    afterwards is a miss, counted as such. *)
Lemma memory_clear_keeps_the_counters (m : MemoryCache.t) (k : string) (now : Z) :
  MemoryCache.size (MemoryCache.clear m) = 0
  /\ MemoryCache._stats (MemoryCache.clear m) = MemoryCache._stats m
  /\ MemoryCache.max_size (MemoryCache.clear m) = MemoryCache.max_size m
  /\ MemoryCache.default_ttl (MemoryCache.clear m) = MemoryCache.default_ttl m
  /\ fst (MemoryCache.get (MemoryCache.clear m) k now) = VNone
  /\ MemoryCache.misses (MemoryCache._stats (snd (MemoryCache.get (MemoryCache.clear m) k now)))
     = MemoryCache.misses (MemoryCache._stats m) + 1.
Proof.
  repeat split; reflexivity.
Qed.

Lemma step_total_requests m o :
  total_requests (mem_step m o)
  = total_requests m + match o with OpGet _ _ => 1 | _ => 0 end.
Proof.
  unfold total_requests. destruct o as [k now|k v ttl now|k| |now]; cbn [mem_step].
  - unfold MemoryCache.get. destruct (dict_get k (MemoryCache._cache m)) as [e|]; [|cbn; lia].
    destruct (CacheEntry.is_expired e now); cbn; lia.
  - destruct (memory_set_stats m k v ttl now) as (-> & -> & _). lia.
  - unfold MemoryCache.delete. destruct (dict_mem k (MemoryCache._cache m)); cbn; lia.
  - cbn. lia.
  - unfold MemoryCache.cleanup_expired. cbn [snd].
    destruct (expire_keys_stats (MemoryCache.expired_keys (MemoryCache._cache m) now) m)
      as (_ & -> & -> & _). lia.
Qed.

(** X2. The counters of a [MemoryCache] account for every read: after any
    sequence of operations on a new cache, [hits + misses] (the
    [total_requests] of [get_stats]) is the number of [get] calls made, no
    other operation touching either counter. *)
Theorem hits_plus_misses_is_the_number_of_gets
  (max_size default_ttl : Z) (ops : list mem_op) :
  total_requests (mem_run (MemoryCache.new max_size default_ttl) ops) = count_gets ops.
Proof.
  assert (H : forall m, total_requests (mem_run m ops) = total_requests m + count_gets ops).
  { unfold mem_run. induction ops as [|o ops IH]; intros m; simpl; [lia|].
    rewrite IH, step_total_requests. destruct o; lia. }
  rewrite H. unfold total_requests. simpl. lia.
Qed.

(** ** [MemoryCache]: lifetime and recency *)

(** What a [set] of another key can do to the entry of [k]: keep it or evict
    it. *)
Lemma memory_set_other m k k' v ttl now :
  k <> k' ->
  dict_get k' (MemoryCache._cache (MemoryCache.set m k v ttl now))
  = dict_get k' (MemoryCache._cache m)
  \/ dict_get k' (MemoryCache._cache (MemoryCache.set m k v ttl now)) = None.
Proof.
  intros Hne. rewrite set_unfold. cbv zeta. cbn [MemoryCache._cache MemoryCache.with_cache].
  rewrite dict_get_set_ne by exact Hne.
  assert (H1 : dict_get k' (dict_del k (MemoryCache._cache m))
               = dict_get k' (MemoryCache._cache m)) by now apply dict_get_del_ne.
  destruct (_ >=? _); [|now left].
  unfold MemoryCache._evict_lru. cbn [MemoryCache._cache MemoryCache.with_cache].
  destruct (MemoryCache.lru_key _) as [r|]; [|now left].
  cbn [MemoryCache._cache]. rewrite dict_get_del.
  destruct (String.eqb r k'); [now right | now left].
Qed.

Lemma step_same_lifetime e k m o :
  never_sets k [o] = true -> same_lifetime e k m -> same_lifetime e k (mem_step m o).
Proof.
  unfold same_lifetime. intros Hset H.
  destruct o as [k' now|k' v ttl now|k'| |now]; cbn [mem_step].
  - unfold MemoryCache.get. destruct (dict_get k' (MemoryCache._cache m)) as [e'|] eqn:E';
      [|exact H].
    destruct (CacheEntry.is_expired e' now); unfold CacheEntry.access;
      cbn [snd MemoryCache._cache].
    + rewrite dict_get_del. destruct (String.eqb k' k); [exact I | exact H].
    + rewrite dict_get_set. destruct (String.eqb_spec k' k) as [->|Hne]; [|exact H].
      rewrite E' in H. exact H.
  - simpl in Hset. rewrite Bool.andb_true_r in Hset.
    apply Bool.negb_true_iff, String.eqb_neq in Hset.
    destruct (memory_set_other m k' k v ttl now Hset) as [-> | ->]; [exact H | exact I].
  - unfold MemoryCache.delete. destruct (dict_mem k' (MemoryCache._cache m));
      cbn [snd MemoryCache._cache MemoryCache.with_cache]; [|exact H].
    rewrite dict_get_del. destruct (String.eqb k' k); [exact I | exact H].
  - exact I.
  - unfold MemoryCache.cleanup_expired. cbn [snd]. rewrite expire_keys_cache.
    rewrite (dict_get_filter_key
               (fun k0 => negb (existsb (String.eqb k0)
                                  (MemoryCache.expired_keys (MemoryCache._cache m) now)))).
    destruct (negb _); [exact H | exact I].
Qed.

(** X3. Reads do not extend the life of an entry, and neither does anything
    but a [set] of its key: take an entry with [ttl = T > 0] created at
    [timestamp], and any sequence of [get], [delete], [clear],
    [cleanup_expired] and [set] of other keys; a [get] of the key strictly
    after [timestamp + T] is a miss. *)
Theorem only_a_set_renews_an_entry
  (m : MemoryCache.t) (k : string) (e : CacheEntry.t) (ops : list mem_op) (now : Z) :
  dict_get k (MemoryCache._cache m) = Some e ->
  0 < CacheEntry.ttl e ->
  never_sets k ops = true ->
  CacheEntry.timestamp e + CacheEntry.ttl e < now ->
  fst (MemoryCache.get (mem_run m ops) k now) = VNone.
Proof.
  intros Hk Hpos Hops Hlate.
  assert (Hinv : same_lifetime e k (mem_run m ops)).
  { assert (H0 : same_lifetime e k m) by (unfold same_lifetime; now rewrite Hk).
    clear Hk. revert m H0. unfold mem_run.
    induction ops as [|o ops IH]; intros m H0; simpl; [exact H0|].
    assert (Ho : never_sets k [o] = true /\ never_sets k ops = true).
    { destruct o; simpl in *; try (split; [reflexivity | exact Hops]).
      apply Bool.andb_true_iff in Hops as [-> ->]. now split. }
    destruct Ho as [Ho Hrest]. apply (IH Hrest). now apply step_same_lifetime. }
  unfold same_lifetime in Hinv. unfold MemoryCache.get.
  destruct (dict_get k (MemoryCache._cache (mem_run m ops))) as [e'|]; [|reflexivity].
  destruct Hinv as [Ets Ettl]. unfold CacheEntry.is_expired. rewrite Ets, Ettl.
  destruct (Z.leb_spec (CacheEntry.ttl e) 0); [lia|].
  destruct (Z.gtb_spec (now - CacheEntry.timestamp e) (CacheEntry.ttl e)); [reflexivity | lia].
Qed.

Lemma only_a_set_renews_an_entry_witness :
  fst (MemoryCache.get
         (mem_run (MemoryCache.set (MemoryCache.new 4 3600) "x" (VInt 1) (Some 60) 100)
            [ OpGet "x" 120; OpGet "x" 150; OpSet "y" (VInt 2) None 155; OpGet "x" 160 ])
         "x" 161) = VNone.
Proof.
  apply (only_a_set_renews_an_entry
           (MemoryCache.set (MemoryCache.new 4 3600) "x" (VInt 1) (Some 60) 100)
           "x" (CacheEntry.new "x" (VInt 1) 100 60)).
  - reflexivity.
  - reflexivity.
  - reflexivity.
  - reflexivity.
Defined.

Lemma In_dict_set_other {V : Type} (k k' : string) (x v' : V) (d : list (string * V)) :
  k' <> k -> In (k', v') d -> In (k', v') (dict_set k x d).
Proof.
  intros Hne. induction d as [|[k0 v0] d IH]; simpl; [intros []|].
  intros [E|Hin].
  - injection E as -> ->. destruct (String.eqb_spec k' k); [congruence | now left].
  - destruct (String.eqb k0 k); right; [exact Hin | now apply IH].
Qed.

(** X4. Eviction goes by the time of the last read, not by the time of
    insertion: when a key is read at a time later than the last access of
    every other entry, and the store holds at least one other entry, the next
    [set] of a new key does not evict it, whatever the capacity; its entry is
    still there, with the read recorded. *)
Theorem a_read_protects_from_the_next_eviction
  (m : MemoryCache.t) (k k2 : string) (e : CacheEntry.t) (v : pyval)
  (ttl : option Z) (now later : Z) :
  dict_wf (MemoryCache._cache m) ->
  dict_get k (MemoryCache._cache m) = Some e ->
  CacheEntry.is_expired e now = false ->
  (forall k' e', In (k', e') (MemoryCache._cache m) -> k' <> k ->
                 CacheEntry.last_access e' < now) ->
  (exists k' e', In (k', e') (MemoryCache._cache m) /\ k' <> k) ->
  k2 <> k ->
  dict_get k2 (MemoryCache._cache m) = None ->
  dict_get k
    (MemoryCache._cache (MemoryCache.set (snd (MemoryCache.get m k now)) k2 v ttl later))
  = Some (CacheEntry.make (CacheEntry.key e) (CacheEntry.value e) (CacheEntry.timestamp e)
            (CacheEntry.ttl e) (CacheEntry.access_count e + 1) now).
Proof.
  intros Hwf Hk Hlive Hold (k' & e' & Hin' & Hne') Hk2 Habs.
  rewrite (memory_get_live m k e now Hk Hlive). cbn [snd CacheEntry.access].
  set (e1 := CacheEntry.make (CacheEntry.key e) (CacheEntry.value e) (CacheEntry.timestamp e)
               (CacheEntry.ttl e) (CacheEntry.access_count e + 1) now).
  set (c1 := dict_set k e1 (MemoryCache._cache m)).
  assert (Hwf1 : dict_wf c1) by now apply dict_wf_set.
  assert (Hk1 : dict_get k c1 = Some e1) by apply dict_get_set_eq.
  assert (Hin1 : In (k', e') c1) by now apply In_dict_set_other.
  assert (Habs1 : dict_get k2 c1 = None).
  { unfold c1. rewrite dict_get_set_ne by congruence. exact Habs. }
  set (m1 := MemoryCache.make (MemoryCache.max_size m) (MemoryCache.default_ttl m) c1
               (MemoryCache.count_hit (MemoryCache._stats m))).
  rewrite set_unfold. cbv zeta.
  assert (E : MemoryCache.with_cache m1 (dict_del k2 (MemoryCache._cache m1)) = m1).
  { unfold m1 at 2. cbn [MemoryCache._cache]. now rewrite (dict_del_absent k2 c1 Habs1). }
  rewrite E.
  destruct (_ >=? _);
    [|cbn [MemoryCache._cache MemoryCache.with_cache];
      rewrite dict_get_set_ne by exact Hk2; exact Hk1].
  unfold MemoryCache._evict_lru. change (MemoryCache._cache m1) with c1.
  assert (Hne1 : c1 <> []) by (intros E0; rewrite E0 in Hin1; destruct Hin1).
  destruct (lru_key_split c1 Hwf1 Hne1) as (before & r & er & after & Ec & Hr & P1 & P2).
  rewrite Hr. cbn [MemoryCache._cache MemoryCache.with_cache].
  rewrite dict_get_set_ne by exact Hk2. rewrite dict_get_del.
  destruct (String.eqb_spec r k) as [->|_]; [|exact Hk1].
  exfalso.
  assert (Her : er = e1).
  { assert (Hin : In (k, er) c1) by (rewrite Ec; apply List.in_or_app; right; now left).
    pose proof (In_dict_get k er c1 Hwf1 Hin). congruence. }
  subst er.
  assert (Hlt : CacheEntry.last_access e' < now).
  { apply (Hold k' e'); assumption. }
  rewrite Ec in Hin1. apply List.in_app_or in Hin1 as [Hb|[Eq|Ha]].
  - specialize (P1 _ Hb). simpl in P1. lia.
  - injection Eq as E1 E2. congruence.
  - specialize (P2 _ Ha). simpl in P2. lia.
Qed.

Lemma a_read_protects_from_the_next_eviction_witness :
  dict_get "a"
    (MemoryCache._cache
       (MemoryCache.set
          (snd (MemoryCache.get
                  (MemoryCache.set (MemoryCache.set (MemoryCache.new 2 3600) "a" (VInt 1) None 1)
                     "b" (VInt 2) None 2)
                  "a" 3))
          "c" (VInt 3) None 4))
  = Some (CacheEntry.make "a" (VInt 1) 1 3600 1 3).
Proof.
  apply (a_read_protects_from_the_next_eviction
           (MemoryCache.set (MemoryCache.set (MemoryCache.new 2 3600) "a" (VInt 1) None 1)
              "b" (VInt 2) None 2)
           "a" "c" (CacheEntry.new "a" (VInt 1) 1 3600) (VInt 3) None 3 4).
  - repeat constructor; simpl; intuition discriminate.
  - reflexivity.
  - reflexivity.
  - intros k' e' Hin Hne. vm_compute in Hin.
    destruct Hin as [E|[E|[]]]; injection E as <- <-; [congruence | vm_compute; reflexivity].
  - exists "b"%string, (CacheEntry.new "b" (VInt 2) 2 3600). split.
    + vm_compute. right. left. reflexivity.
    + discriminate.
  - discriminate.
  - reflexivity.
Defined.

(** X5. Whatever the capacity asked for, also zero or negative, a
    [MemoryCache] never holds more than [max (1, max_size)] entries: a [set]
    always inserts, so with [max_size <= 0] the store holds at most the one
    entry last set. *)
Theorem memory_size_is_at_most_one_beyond_zero_capacity
  (max_size default_ttl : Z) (ops : list mem_op) :
  MemoryCache.size (mem_run (MemoryCache.new max_size default_ttl) ops)
  <= Z.max 1 max_size.
Proof.
  assert (Hstep : forall m o,
             dict_wf (MemoryCache._cache m)
             /\ MemoryCache.size m <= Z.max 1 (MemoryCache.max_size m) ->
             (dict_wf (MemoryCache._cache (mem_step m o))
              /\ MemoryCache.size (mem_step m o) <= Z.max 1 (MemoryCache.max_size (mem_step m o)))
             /\ MemoryCache.max_size (mem_step m o) = MemoryCache.max_size m).
  { intros m o [Hwf Hsz]. split; [split; [now apply step_wf|] |].
    - destruct o as [k now|k v ttl now|k| |now]; cbn [mem_step].
      + rewrite get_max_size. unfold MemoryCache.get.
        destruct (dict_get k (MemoryCache._cache m)) as [e|] eqn:E; [|exact Hsz].
        destruct (CacheEntry.is_expired e now); unfold CacheEntry.access; cbn [snd].
        * pose proof (length_dict_del_le k (MemoryCache._cache m)).
          unfold MemoryCache.size, dict_len in *. cbn [MemoryCache._cache]. lia.
        * unfold MemoryCache.size, dict_len in *. cbn [MemoryCache._cache].
          now rewrite (length_dict_set_present k _ e).
      + rewrite set_max_size. rewrite set_unfold. cbv zeta.
        set (m1 := MemoryCache.with_cache m (dict_del k (MemoryCache._cache m))).
        assert (Hwf1 : dict_wf (MemoryCache._cache m1)) by (apply dict_wf_del; exact Hwf).
        pose proof (length_dict_del_le k (MemoryCache._cache m)) as Hle.
        destruct (Z.geb_spec (dict_len (MemoryCache._cache m1)) (MemoryCache.max_size m))
          as [Hfull|Hroom].
        * pose proof (length_dict_set_le k
                        (CacheEntry.new k v now (MemoryCache.ttl_or_default m ttl))
                        (MemoryCache._cache (MemoryCache._evict_lru m1))) as Hset.
          assert (Hcase : MemoryCache._cache m1 = [] \/ MemoryCache._cache m1 <> []).
          { destruct (MemoryCache._cache m1); [now left | right; discriminate]. }
          destruct Hcase as [Ec1|Hne].
          -- assert (E : MemoryCache._evict_lru m1 = m1).
             { unfold MemoryCache._evict_lru. now rewrite Ec1. }
             rewrite E. unfold MemoryCache.size, dict_len.
             cbn [MemoryCache._cache MemoryCache.with_cache]. rewrite Ec1.
             cbn [dict_set List.length]. lia.
          -- pose proof (evict_lru_length m1 Hwf1 Hne) as Hlen.
             unfold MemoryCache.size, dict_len in *.
             cbn [MemoryCache._cache MemoryCache.with_cache].
             assert (Hm1 : List.length (MemoryCache._cache m1)
                           = List.length (dict_del k (MemoryCache._cache m))) by reflexivity.
             lia.
        * pose proof (length_dict_set_le k
                        (CacheEntry.new k v now (MemoryCache.ttl_or_default m ttl))
                        (MemoryCache._cache m1)) as Hset.
          unfold MemoryCache.size, dict_len in *. subst m1.
          cbn [MemoryCache._cache MemoryCache.with_cache] in *. lia.
      + rewrite delete_max_size. unfold MemoryCache.delete.
        destruct (dict_mem k (MemoryCache._cache m)); cbn [snd]; [|exact Hsz].
        pose proof (length_dict_del_le k (MemoryCache._cache m)).
        unfold MemoryCache.size, dict_len in *.
        cbn [MemoryCache._cache MemoryCache.with_cache]. lia.
      + unfold MemoryCache.size, dict_len. cbn. lia.
      + unfold MemoryCache.cleanup_expired. cbn [snd].
        generalize (MemoryCache.expired_keys (MemoryCache._cache m) now). intros ks.
        revert m Hwf Hsz. induction ks as [|k ks IH]; intros m Hwf Hsz; simpl; [exact Hsz|].
        apply IH.
        * simpl. now apply dict_wf_del.
        * pose proof (length_dict_del_le k (MemoryCache._cache m)).
          unfold MemoryCache.size, dict_len in *. cbn [MemoryCache._cache
            MemoryCache.expire_key MemoryCache.max_size]. lia.
    - destruct o as [k now|k v ttl now|k| |now]; cbn [mem_step].
      + apply get_max_size.
      + apply set_max_size.
      + apply delete_max_size.
      + reflexivity.
      + unfold MemoryCache.cleanup_expired. cbn [snd].
        generalize (MemoryCache.expired_keys (MemoryCache._cache m) now). intros ks.
        revert m Hwf Hsz. induction ks as [|k ks IH]; intros m Hwf Hsz; simpl; [reflexivity|].
        rewrite IH; [reflexivity | simpl; now apply dict_wf_del |].
        pose proof (length_dict_del_le k (MemoryCache._cache m)).
        unfold MemoryCache.size, dict_len in *. cbn [MemoryCache._cache
          MemoryCache.expire_key MemoryCache.max_size]. lia. }
  assert (Hrun : forall m,
             dict_wf (MemoryCache._cache m)
             /\ MemoryCache.size m <= Z.max 1 (MemoryCache.max_size m) ->
             MemoryCache.size (mem_run m ops) <= Z.max 1 (MemoryCache.max_size m)).
  { unfold mem_run. induction ops as [|o ops IH]; intros m Hm; simpl; [now destruct Hm|].
    destruct (Hstep m o Hm) as [Hm' Hmax]. rewrite <- Hmax. now apply IH. }
  apply (Hrun (MemoryCache.new max_size default_ttl)).
  split; [apply dict_wf_nil | unfold MemoryCache.size, dict_len; simpl; lia].
Qed.

(** X6. What [MemoryCache.set] stores can be read back, whatever the state
    and the capacity of the cache (also zero): a [get] of the key, made while
    the new entry has not expired, returns the value and counts a hit. *)
Theorem memory_set_then_get
  (m : MemoryCache.t) (k : string) (v : pyval) (ttl : option Z) (t0 t1 : Z) :
  within_ttl t0 (MemoryCache.ttl_or_default m ttl) t1 ->
  fst (MemoryCache.get (MemoryCache.set m k v ttl t0) k t1) = v
  /\ MemoryCache.hits
       (MemoryCache._stats (snd (MemoryCache.get (MemoryCache.set m k v ttl t0) k t1)))
     = MemoryCache.hits (MemoryCache._stats m) + 1.
Proof.
  intros Ht.
  rewrite (memory_get_live _ k _ t1 (memory_set_lookup m k v ttl t0))
    by now apply within_ttl_not_expired.
  cbn [fst snd MemoryCache._stats MemoryCache.count_hit MemoryCache.hits].
  split; [reflexivity|]. now destruct (memory_set_stats m k v ttl t0) as (-> & _).
Qed.

Lemma memory_set_then_get_witness :
  fst (MemoryCache.get (MemoryCache.set (MemoryCache.new 0 3600) "k" (VStr "v") None 5) "k" 3605)
  = VStr "v".
Proof.
  destruct (memory_set_then_get (MemoryCache.new 0 3600) "k" (VStr "v") None 5 3605) as [H _].
  - right. simpl. lia.
  - exact H.
Defined.

(** ** [PersistentCache]: deletion, reset, expiry and access records *)

(** X7. [PersistentCache.delete] reports whether the file of the key was
    there and unlinks that file only: the file is gone afterwards, every other
    file is as it was, a [get] of the key is a miss that changes nothing and a
    second [delete] answers [False]. *)
Theorem persistent_delete_removes_only_the_file
  (p : PersistentCache.t) (k : string) (now : Z) :
  (fst (PersistentCache.delete p k) = true
   <-> exists f, PersistentCache.cache_dir p !! PersistentCache._get_cache_file k = Some f)
  /\ PersistentCache.cache_dir (snd (PersistentCache.delete p k))
       !! PersistentCache._get_cache_file k = None
  /\ (forall name,
        name <> PersistentCache._get_cache_file k ->
        PersistentCache.cache_dir (snd (PersistentCache.delete p k)) !! name
        = PersistentCache.cache_dir p !! name)
  /\ PersistentCache.get (snd (PersistentCache.delete p k)) k now
     = (VNone, snd (PersistentCache.delete p k))
  /\ fst (PersistentCache.delete (snd (PersistentCache.delete p k)) k) = false.
Proof.
  assert (Hgone : PersistentCache.cache_dir (snd (PersistentCache.delete p k))
                    !! PersistentCache._get_cache_file k = None).
  { unfold PersistentCache.delete. cbv zeta.
    destruct (PersistentCache.cache_dir p !! PersistentCache._get_cache_file k) eqn:E;
      cbn [snd PersistentCache.cache_dir PersistentCache.with_dir];
      [apply lookup_delete_eq | exact E]. }
  split; [|split; [exact Hgone|split; [|split]]].
  - unfold PersistentCache.delete. cbv zeta.
    destruct (PersistentCache.cache_dir p !! PersistentCache._get_cache_file k) eqn:E;
      cbn [fst]; split; eauto; try discriminate. intros [f' Hf']. discriminate.
  - intros name Hne. unfold PersistentCache.delete. cbv zeta.
    destruct (PersistentCache.cache_dir p !! PersistentCache._get_cache_file k);
      cbn [snd PersistentCache.cache_dir PersistentCache.with_dir]; [|reflexivity].
    apply lookup_delete_ne. congruence.
  - now apply get_absent.
  - unfold PersistentCache.delete at 1. cbv zeta. now rewrite Hgone.
Qed.

Lemma unlink_all_lookup names : forall (dir : gmap string file) (name : string),
  List.fold_left (fun d n => delete n d) names dir !! name
  = if existsb (String.eqb name) names then None else dir !! name.
Proof.
  induction names as [|a names IH]; intros dir name; simpl; [reflexivity|].
  rewrite IH. destruct (String.eqb_spec name a) as [->|Hne]; simpl.
  - rewrite lookup_delete_eq. now destruct (existsb _ _).
  - rewrite lookup_delete_ne by congruence. reflexivity.
Qed.

Lemma clear_lookup (p : PersistentCache.t) (name : string) :
  PersistentCache.cache_dir (PersistentCache.clear p) !! name
  = if ends_with ".cache" name then None else PersistentCache.cache_dir p !! name.
Proof.
  unfold PersistentCache.clear. cbn [PersistentCache.cache_dir PersistentCache.with_dir].
  rewrite unlink_all_lookup.
  destruct (PersistentCache.cache_dir p !! name) as [f|] eqn:Ef.
  - rewrite (glob_mem (PersistentCache.cache_dir p) name f Ef).
    now destruct (ends_with ".cache" name).
  - now destruct (existsb _ _), (ends_with ".cache" name).
Qed.

Lemma glob_nil_after_clear (p : PersistentCache.t) :
  PersistentCache.glob (PersistentCache.cache_dir (PersistentCache.clear p)) = [].
Proof.
  unfold PersistentCache.glob.
  set (dir := PersistentCache.cache_dir (PersistentCache.clear p)).
  assert (H : forall name, In name (List.map fst (map_to_list dir)) ->
                           ends_with ".cache" name = false).
  { intros name Hin. apply List.in_map_iff in Hin as ([n f] & <- & Hin).
    apply list_elem_of_In, elem_of_map_to_list in Hin. subst dir.
    rewrite clear_lookup in Hin. simpl in *.
    destruct (ends_with ".cache" n); [discriminate | reflexivity]. }
  induction (List.map fst (map_to_list dir)) as [|n l IH]; simpl; [reflexivity|].
  rewrite (H n) by now left. apply IH. intros name Hin. apply H. now right.
Qed.

(** X8. [PersistentCache.clear] unlinks exactly the files named [*.cache]:
    they are all gone, every other file of the directory is kept, and
    afterwards a [get] of any key is a miss, a [delete] finds nothing and
    [cleanup_expired] removes nothing. *)
Theorem persistent_clear_unlinks_the_cache_files
  (p : PersistentCache.t) (k : string) (now : Z) :
  (forall name,
      PersistentCache.cache_dir (PersistentCache.clear p) !! name
      = if ends_with ".cache" name then None else PersistentCache.cache_dir p !! name)
  /\ PersistentCache.get (PersistentCache.clear p) k now = (VNone, PersistentCache.clear p)
  /\ PersistentCache.delete (PersistentCache.clear p) k = (false, PersistentCache.clear p)
  /\ PersistentCache.cleanup_expired (PersistentCache.clear p) now
     = (0, PersistentCache.clear p).
Proof.
  assert (Habs : PersistentCache.cache_dir (PersistentCache.clear p)
                   !! PersistentCache._get_cache_file k = None).
  { rewrite clear_lookup. now rewrite cache_file_is_managed. }
  split; [apply clear_lookup|]. split; [now apply get_absent|]. split.
  - unfold PersistentCache.delete. cbv zeta. now rewrite Habs.
  - unfold PersistentCache.cleanup_expired. rewrite glob_nil_after_clear. reflexivity.
Qed.

Lemma persistent_set_eq (p : PersistentCache.t) (k : string) (v : pyval)
  (ttl : option Z) (now : Z) :
  picklable v = true ->
  PersistentCache.set p k v ttl now
  = PersistentCache.with_dir p
      (<[PersistentCache._get_cache_file k :=
           Pickled (CacheEntry.new k v now
                      (match ttl with
                       | Some n => n
                       | None => PersistentCache.default_ttl p
                       end))]> (PersistentCache.cache_dir p)).
Proof.
  intros P. unfold PersistentCache.set. cbv zeta. unfold pickle_dump.
  rewrite picklable_to_dict. cbn [CacheEntry.value CacheEntry.new CacheEntry.post_init].
  rewrite new_eq. cbn [CacheEntry.value]. now rewrite P.
Qed.

(** X9. The persistent tier keeps the same absolute lifetime as the memory
    tier. For a value that pickles, stored at [t0] with a time to live
    [T > 0]: a [get] up to and including [t0 + T] returns the value and
    rewrites the file with the access recorded; a [get] strictly after
    [t0 + T] is a miss that unlinks the file, so that every later [get]
    misses too, even with the clock set back. *)
Theorem persistent_expiry_boundary
  (p : PersistentCache.t) (k : string) (v : pyval) (T t0 now : Z) :
  picklable v = true ->
  0 < T ->
  (now <= t0 + T ->
   PersistentCache.get (PersistentCache.set p k v (Some T) t0) k now
   = (v, PersistentCache.with_dir p
           (<[PersistentCache._get_cache_file k :=
                Pickled (CacheEntry.make k v t0 T 1 now)]> (PersistentCache.cache_dir p))))
  /\ (t0 + T < now ->
      PersistentCache.get (PersistentCache.set p k v (Some T) t0) k now
      = (VNone, PersistentCache.with_dir p
                  (delete (PersistentCache._get_cache_file k) (PersistentCache.cache_dir p)))
      /\ forall again,
           fst (PersistentCache.get
                  (snd (PersistentCache.get (PersistentCache.set p k v (Some T) t0) k now))
                  k again) = VNone).
Proof.
  intros P Hpos.
  rewrite (persistent_set_eq p k v (Some T) t0 P).
  set (f := Pickled (CacheEntry.new k v t0 T)).
  set (p1 := PersistentCache.with_dir p _).
  assert (Hfile : PersistentCache.cache_dir p1 !! PersistentCache._get_cache_file k = Some f)
    by apply lookup_insert_eq.
  assert (Hload : PersistentCache.load_entry f = Ok (CacheEntry.new k v t0 T)).
  { unfold f. rewrite load_entry_pickled. now rewrite post_init_new. }
  split; intros Ht.
  - rewrite (get_live p1 k _ _ now Hfile Hload); [| |exact P].
    + rewrite new_eq. cbn [CacheEntry.value CacheEntry.access snd CacheEntry.key
        CacheEntry.timestamp CacheEntry.ttl CacheEntry.access_count].
      unfold p1, PersistentCache.with_dir.
      cbn [PersistentCache.cache_dir PersistentCache.default_ttl].
      rewrite insert_insert_eq. reflexivity.
    + apply within_ttl_not_expired. right. lia.
  - assert (X : CacheEntry.is_expired (CacheEntry.new k v t0 T) now = true).
    { rewrite new_eq. unfold CacheEntry.is_expired. simpl.
      destruct (Z.leb_spec T 0); [lia|].
      destruct (Z.gtb_spec (now - t0) T); [reflexivity | lia]. }
    rewrite (get_expired p1 k _ _ now Hfile Hload X).
    unfold p1, PersistentCache.with_dir.
    cbn [PersistentCache.cache_dir PersistentCache.default_ttl].
    rewrite delete_insert_eq.
    split; [reflexivity|]. intros again. cbn [snd].
    rewrite get_absent; [reflexivity|]. simpl. apply lookup_delete_eq.
Qed.

Lemma persistent_expiry_boundary_witness :
  fst (PersistentCache.get
         (PersistentCache.set (PersistentCache.new ∅ 86400) "k" (VStr "v") (Some 7200) 100)
         "k" 7300) = VStr "v"
  /\ fst (PersistentCache.get
            (PersistentCache.set (PersistentCache.new ∅ 86400) "k" (VStr "v") (Some 7200) 100)
            "k" 7301) = VNone.
Proof.
  destruct (persistent_expiry_boundary (PersistentCache.new ∅ 86400) "k" (VStr "v")
              7200 100 7300) as [Hhit _]; [reflexivity | lia |].
  destruct (persistent_expiry_boundary (PersistentCache.new ∅ 86400) "k" (VStr "v")
              7200 100 7301) as [_ Hmiss]; [reflexivity | lia |].
  split.
  - rewrite Hhit by lia. reflexivity.
  - destruct Hmiss as [-> _]; [lia | reflexivity].
Defined.

Lemma last_cons {A : Type} (l : list A) : forall a d : A,
  List.last (a :: l) d = List.last l a.
Proof.
  induction l as [|b l IH]; intros a d; [reflexivity|].
  change (List.last (b :: l) d = List.last (b :: l) a). now rewrite !IH.
Qed.

Lemma persistent_reads_from_entry (k : string) (v : pyval) (t0 T : Z) (times : list Z) :
  picklable v = true ->
  List.Forall (within_ttl t0 T) times ->
  forall (p : PersistentCache.t) (n la : Z),
    PersistentCache.cache_dir p !! PersistentCache._get_cache_file k
    = Some (Pickled (CacheEntry.make k v t0 T n la)) ->
    fst (persistent_reads p k times) = List.repeat v (List.length times)
    /\ PersistentCache.cache_dir (snd (persistent_reads p k times))
         !! PersistentCache._get_cache_file k
       = Some (Pickled (CacheEntry.make k v t0 T (n + Z.of_nat (List.length times))
                          (List.last times la))).
Proof.
  intros P Hall. induction Hall as [|now later Hnow Hlater IH]; intros p n la Hfile.
  - simpl. split; [reflexivity|]. rewrite Hfile. do 3 f_equal. lia.
  - cbn [persistent_reads].
    assert (Hlive : CacheEntry.is_expired
                      (CacheEntry.post_init (CacheEntry.make k v t0 T n la)) now = false).
    { rewrite is_expired_post_init. apply is_expired_within. exact Hnow. }
    rewrite (get_live p k _ _ now Hfile (load_entry_pickled _) Hlive)
      by (now destruct (post_init_fields (CacheEntry.make k v t0 T n la)) as (_ & -> & _)).
    replace (snd (CacheEntry.access (CacheEntry.post_init (CacheEntry.make k v t0 T n la)) now))
      with (CacheEntry.make k v t0 T (n + 1) now)
      by (unfold CacheEntry.post_init; simpl; now destruct (la =? 0)).
    replace (CacheEntry.value (CacheEntry.post_init (CacheEntry.make k v t0 T n la))) with v
      by (now destruct (post_init_fields (CacheEntry.make k v t0 T n la)) as (_ & -> & _)).
    specialize (IH (PersistentCache.with_dir p
                      (<[PersistentCache._get_cache_file k :=
                           Pickled (CacheEntry.make k v t0 T (n + 1) now)]>
                         (PersistentCache.cache_dir p))) (n + 1) now).
    destruct (persistent_reads _ k later) as [vs p2].
    cbn [fst snd] in *. destruct IH as [IH1 IH2]; [apply lookup_insert_eq|].
    split; [simpl; now rewrite IH1|].
    rewrite IH2. do 3 f_equal; [simpl List.length; lia|].
    symmetry. apply last_cons.
Qed.

(** X10. Every successful read of the persistent tier is written back to the
    file: after a [set] of a value that pickles and any number of reads made
    before the entry expires, every read returned the value and the file
    holds the number of reads and the time of the last one, the creation time
    and the time to live being those of the [set]. *)
Theorem persistent_reads_are_recorded
  (p : PersistentCache.t) (k : string) (v : pyval) (T t0 : Z) (times : list Z) :
  picklable v = true ->
  List.Forall (within_ttl t0 T) times ->
  fst (persistent_reads (PersistentCache.set p k v (Some T) t0) k times)
  = List.repeat v (List.length times)
  /\ PersistentCache.cache_dir
       (snd (persistent_reads (PersistentCache.set p k v (Some T) t0) k times))
       !! PersistentCache._get_cache_file k
     = Some (Pickled (CacheEntry.make k v t0 T (Z.of_nat (List.length times))
                        (List.last times t0))).
Proof.
  intros P Hall.
  apply (persistent_reads_from_entry k v t0 T times P Hall
           (PersistentCache.set p k v (Some T) t0) 0 t0).
  rewrite (set_dir p k v (Some T) t0 P), lookup_insert_eq. now rewrite new_eq.
Qed.

Lemma persistent_reads_are_recorded_witness :
  PersistentCache.cache_dir
    (snd (persistent_reads
            (PersistentCache.set (PersistentCache.new ∅ 86400) "k" (VStr "v") (Some 60) 100)
            "k" [110; 120; 160]))
    !! PersistentCache._get_cache_file "k"
  = Some (Pickled (CacheEntry.make "k" (VStr "v") 100 60 3 160)).
Proof.
  destruct (persistent_reads_are_recorded (PersistentCache.new ∅ 86400) "k" (VStr "v")
              60 100 [110; 120; 160]) as [_ H].
  - reflexivity.
  - repeat (apply List.Forall_cons; [right; lia|]). apply List.Forall_nil.
  - exact H.
Defined.

(** ** [CacheManager]: deletion, reset and the sweep *)

Lemma is_none_true (v : pyval) : is_none v = true -> v = VNone.
Proof. destruct v; simpl; intros H; (reflexivity || discriminate). Qed.

(** The value a lookup returns, from the values the two tiers return. *)
Lemma manager_get_value (c : CacheManager.t) (k : string) (level : CacheLevel) (now : Z) :
  fst (CacheManager.get c k level now)
  = match level with
    | MEMORY_ONLY => fst (MemoryCache.get (CacheManager.memory_cache c) k now)
    | PERSISTENT_ONLY => fst (PersistentCache.get (CacheManager.persistent_cache c) k now)
    | BOTH =>
        if is_none (fst (MemoryCache.get (CacheManager.memory_cache c) k now))
        then fst (PersistentCache.get (CacheManager.persistent_cache c) k now)
        else fst (MemoryCache.get (CacheManager.memory_cache c) k now)
    end.
Proof.
  destruct level.
  - now rewrite get_memory_only.
  - now rewrite get_persistent_only.
  - destruct (is_none (fst (MemoryCache.get (CacheManager.memory_cache c) k now))) eqn:E.
    + rewrite get_both_memory_miss by now apply is_none_true. reflexivity.
    + rewrite get_both_memory_hit by exact E. reflexivity.
Qed.

Lemma manager_delete_unfold (c : CacheManager.t) (k : string) (level : CacheLevel) :
  CacheManager.delete c k level
  = ((uses_memory level && fst (MemoryCache.delete (CacheManager.memory_cache c) k))
     || (uses_persistent level
         && fst (PersistentCache.delete (CacheManager.persistent_cache c) k)),
     CacheManager.make
       (if uses_memory level
        then snd (MemoryCache.delete (CacheManager.memory_cache c) k)
        else CacheManager.memory_cache c)
       (if uses_persistent level
        then snd (PersistentCache.delete (CacheManager.persistent_cache c) k)
        else CacheManager.persistent_cache c)).
Proof.
  unfold CacheManager.delete. destruct c as [m p].
  destruct level; cbn [uses_memory uses_persistent CacheManager.memory_cache
    CacheManager.persistent_cache CacheManager.with_memory CacheManager.with_persistent andb orb];
    destruct (MemoryCache.delete m k) as [b1 m1];
    cbn [fst snd CacheManager.memory_cache CacheManager.persistent_cache
      CacheManager.with_memory CacheManager.with_persistent orb];
    destruct (PersistentCache.delete p k) as [b2 p2];
    cbn [fst snd CacheManager.memory_cache CacheManager.persistent_cache
      CacheManager.with_memory CacheManager.with_persistent orb];
    rewrite ?Bool.orb_false_r; reflexivity.
Qed.

Lemma memory_set_default_ttl (m : MemoryCache.t) (k : string) (v : pyval)
  (ttl : option Z) (now : Z) :
  MemoryCache.default_ttl (MemoryCache.set m k v ttl now) = MemoryCache.default_ttl m.
Proof.
  rewrite set_unfold. cbv zeta. cbn [MemoryCache.default_ttl MemoryCache.with_cache].
  destruct (_ >=? _); [|reflexivity].
  unfold MemoryCache._evict_lru. now destruct (MemoryCache.lru_key _).
Qed.

Lemma memory_delete_default_ttl (m : MemoryCache.t) (k : string) :
  MemoryCache.default_ttl (snd (MemoryCache.delete m k)) = MemoryCache.default_ttl m.
Proof.
  unfold MemoryCache.delete. now destruct (dict_mem k (MemoryCache._cache m)).
Qed.

Lemma memory_delete_lookup (m : MemoryCache.t) (k k' : string) :
  dict_get k' (MemoryCache._cache (snd (MemoryCache.delete m k)))
  = if String.eqb k k' then None else dict_get k' (MemoryCache._cache m).
Proof.
  unfold MemoryCache.delete. destruct (dict_mem k (MemoryCache._cache m)) eqn:E;
    cbn [snd MemoryCache._cache MemoryCache.with_cache].
  - apply dict_get_del.
  - apply dict_mem_false in E. destruct (String.eqb_spec k k'); congruence.
Qed.

Lemma persistent_delete_lookup (p : PersistentCache.t) (k name : string) :
  PersistentCache.cache_dir (snd (PersistentCache.delete p k)) !! name
  = if String.eqb (PersistentCache._get_cache_file k) name then None
    else PersistentCache.cache_dir p !! name.
Proof.
  unfold PersistentCache.delete. cbv zeta.
  destruct (PersistentCache.cache_dir p !! PersistentCache._get_cache_file k) eqn:E;
    cbn [snd PersistentCache.cache_dir PersistentCache.with_dir];
    destruct (String.eqb_spec (PersistentCache._get_cache_file k) name) as [<-|Hne].
  - apply lookup_delete_eq.
  - now apply lookup_delete_ne.
  - exact E.
  - reflexivity.
Qed.

Lemma memory_delete_found (m : MemoryCache.t) (k : string) :
  fst (MemoryCache.delete m k) = false <-> dict_get k (MemoryCache._cache m) = None.
Proof.
  unfold MemoryCache.delete. destruct (dict_mem k (MemoryCache._cache m)) eqn:E; cbn [fst].
  - apply dict_mem_true in E as [e He]. split; [discriminate | congruence].
  - apply dict_mem_false in E. tauto.
Qed.

Lemma persistent_delete_found (p : PersistentCache.t) (k : string) :
  fst (PersistentCache.delete p k) = false
  <-> PersistentCache.cache_dir p !! PersistentCache._get_cache_file k = None.
Proof.
  unfold PersistentCache.delete. cbv zeta.
  destruct (PersistentCache.cache_dir p !! PersistentCache._get_cache_file k); cbn [fst].
  - split; discriminate.
  - tauto.
Qed.

(** X11. [CacheManager.delete] answers [False] exactly when no tier that the
    level selects held the key. Afterwards a [get] of the key at that level is
    a miss at any time, a second [delete] answers [False], and every other
    key of the store and every other file of the directory is as before. *)
Theorem manager_delete_then_get
  (c : CacheManager.t) (k : string) (level : CacheLevel) (now : Z) :
  (fst (CacheManager.delete c k level) = false <-> absent_from c k level)
  /\ fst (CacheManager.get (snd (CacheManager.delete c k level)) k level now) = VNone
  /\ fst (CacheManager.delete (snd (CacheManager.delete c k level)) k level) = false
  /\ (forall k', k' <> k ->
        dict_get k' (MemoryCache._cache
                       (CacheManager.memory_cache (snd (CacheManager.delete c k level))))
        = dict_get k' (MemoryCache._cache (CacheManager.memory_cache c)))
  /\ (forall name, name <> PersistentCache._get_cache_file k ->
        PersistentCache.cache_dir
          (CacheManager.persistent_cache (snd (CacheManager.delete c k level))) !! name
        = PersistentCache.cache_dir (CacheManager.persistent_cache c) !! name).
Proof.
  assert (Hfound : forall c', fst (CacheManager.delete c' k level) = false
                              <-> absent_from c' k level).
  { intros c'. rewrite manager_delete_unfold. cbn [fst]. unfold absent_from.
    rewrite Bool.orb_false_iff.
    pose proof (memory_delete_found (CacheManager.memory_cache c') k) as Hm.
    pose proof (persistent_delete_found (CacheManager.persistent_cache c') k) as Hp.
    destruct level; cbn [uses_memory uses_persistent andb]; split;
      intros [H1 H2]; split; try reflexivity; try discriminate; try tauto;
      intros _; tauto. }
  assert (Habs : absent_from (snd (CacheManager.delete c k level)) k level).
  { rewrite manager_delete_unfold. cbn [snd]. unfold absent_from.
    cbn [CacheManager.memory_cache CacheManager.persistent_cache].
    split; intros ->.
    - now rewrite memory_delete_lookup, String.eqb_refl.
    - now rewrite persistent_delete_lookup, String.eqb_refl. }
  split; [apply Hfound|]. split; [now apply get_absent_from|].
  split; [now apply Hfound|]. split.
  - intros k' Hne. rewrite manager_delete_unfold.
    cbn [snd CacheManager.memory_cache]. destruct (uses_memory level); [|reflexivity].
    rewrite memory_delete_lookup. destruct (String.eqb_spec k k'); congruence.
  - intros name Hne. rewrite manager_delete_unfold.
    cbn [snd CacheManager.persistent_cache]. destruct (uses_persistent level); [|reflexivity].
    rewrite persistent_delete_lookup.
    destruct (String.eqb_spec (PersistentCache._get_cache_file k) name); congruence.
Qed.

(** X12. Deleting a key from the memory tier alone does not make it go away:
    for a value other than [None] that pickles, stored at level [BOTH], a
    [delete] at level [MEMORY_ONLY] answers [True], but the next
    [get] at level [BOTH] made before the file expires returns the value
    again, and puts it back into the memory tier as an entry created at the
    time of that [get] with the memory tier's default time to live. *)
Theorem memory_only_delete_is_undone_by_the_next_read
  (c : CacheManager.t) (k : string) (v : pyval) (T t0 t1 : Z) :
  is_none v = false ->
  picklable v = true ->
  within_ttl t0 T t1 ->
  let c1 := CacheManager.set c k v (Some T) BOTH t0 in
  let c2 := snd (CacheManager.delete c1 k MEMORY_ONLY) in
  fst (CacheManager.delete c1 k MEMORY_ONLY) = true
  /\ fst (CacheManager.get c2 k MEMORY_ONLY t1) = VNone
  /\ fst (CacheManager.get c2 k BOTH t1) = v
  /\ dict_get k (MemoryCache._cache
                   (CacheManager.memory_cache (snd (CacheManager.get c2 k BOTH t1))))
     = Some (CacheEntry.new k v t1
               (MemoryCache.default_ttl (CacheManager.memory_cache c))).
Proof.
  intros Hv P Ht c1 c2.
  assert (Hm1 : CacheManager.memory_cache c1
                = MemoryCache.set (CacheManager.memory_cache c) k v (Some T) t0)
    by (apply set_memory_cache; reflexivity).
  assert (Hp1 : CacheManager.persistent_cache c1
                = PersistentCache.set (CacheManager.persistent_cache c) k v (Some T) t0)
    by (apply set_persistent_cache; reflexivity).
  assert (Hc2 : c2 = CacheManager.make
                       (snd (MemoryCache.delete (CacheManager.memory_cache c1) k))
                       (CacheManager.persistent_cache c1))
    by (unfold c2; now rewrite manager_delete_unfold).
  assert (Hgone : dict_get k (MemoryCache._cache (CacheManager.memory_cache c2)) = None).
  { rewrite Hc2. cbn [CacheManager.memory_cache].
    now rewrite memory_delete_lookup, String.eqb_refl. }
  assert (Hmiss : MemoryCache.get (CacheManager.memory_cache c2) k t1
                  = (VNone, MemoryCache.with_stats (CacheManager.memory_cache c2)
                              (MemoryCache.count_miss
                                 (MemoryCache._stats (CacheManager.memory_cache c2)))))
    by now apply memory_get_absent.
  assert (Hdisk : fst (PersistentCache.get (CacheManager.persistent_cache c2) k t1) = v).
  { apply (get_after_set (CacheManager.persistent_cache c) k v (Some T) t0 t1 P).
    - now apply within_ttl_not_expired.
    - rewrite Hc2. cbn [CacheManager.persistent_cache]. now rewrite Hp1. }
  split; [|split; [|split]].
  - rewrite manager_delete_unfold. cbn [fst uses_memory uses_persistent andb orb].
    rewrite Bool.orb_false_r. apply Bool.not_false_is_true. intros Hf.
    apply memory_delete_found in Hf. rewrite Hm1, memory_set_lookup in Hf. discriminate.
  - rewrite get_memory_only. cbn [fst]. now rewrite Hmiss.
  - rewrite manager_get_value, Hmiss. cbn [fst is_none]. exact Hdisk.
  - rewrite get_both_memory_miss by now rewrite Hmiss.
    rewrite Hdisk, Hv, Hmiss. cbn [snd CacheManager.memory_cache].
    rewrite memory_set_lookup. do 2 f_equal.
    unfold MemoryCache.ttl_or_default, MemoryCache.with_stats.
    cbn [MemoryCache.default_ttl]. rewrite Hc2. cbn [CacheManager.memory_cache].
    now rewrite memory_delete_default_ttl, Hm1, memory_set_default_ttl.
Qed.

Lemma memory_only_delete_is_undone_by_the_next_read_witness :
  fst (CacheManager.get
         (snd (CacheManager.delete
                 (CacheManager.set (CacheManager.new ∅ 8) "k" (VStr "v") (Some 60) BOTH 100)
                 "k" MEMORY_ONLY))
         "k" BOTH 130) = VStr "v".
Proof.
  destruct (memory_only_delete_is_undone_by_the_next_read
              (CacheManager.new ∅ 8) "k" (VStr "v") 60 100 130) as (_ & _ & H & _).
  - reflexivity.
  - reflexivity.
  - right. lia.
  - exact H.
Defined.

(** X13. After [CacheManager.clear] a [get] at the level that was cleared is
    a miss for every key and at any time; the memory tier, when selected,
    holds no entry; and a tier that the level does not select is left as it
    was. *)
Theorem manager_clear_then_get
  (c : CacheManager.t) (k : string) (level : CacheLevel) (now : Z) :
  fst (CacheManager.get (CacheManager.clear c level) k level now) = VNone
  /\ (if uses_memory level
      then MemoryCache.size (CacheManager.memory_cache (CacheManager.clear c level)) = 0
      else CacheManager.memory_cache (CacheManager.clear c level)
           = CacheManager.memory_cache c)
  /\ (if uses_persistent level
      then PersistentCache.glob
             (PersistentCache.cache_dir
                (CacheManager.persistent_cache (CacheManager.clear c level))) = []
      else CacheManager.persistent_cache (CacheManager.clear c level)
           = CacheManager.persistent_cache c).
Proof.
  split.
  - apply get_absent_from. unfold absent_from, CacheManager.clear.
    destruct level; cbn [uses_memory uses_persistent CacheManager.memory_cache
      CacheManager.persistent_cache CacheManager.with_memory CacheManager.with_persistent];
      split; try discriminate; intros _; try reflexivity;
      rewrite clear_lookup; now rewrite cache_file_is_managed.
  - unfold CacheManager.clear.
    destruct level; cbn [uses_memory uses_persistent CacheManager.memory_cache
      CacheManager.persistent_cache CacheManager.with_memory CacheManager.with_persistent];
      split; try reflexivity; apply glob_nil_after_clear.
Qed.







(** ** Memoization past the time to live *)

Lemma is_expired_past (k : string) (v : pyval) (T t0 t1 : Z) :
  0 < T -> t0 + T < t1 -> CacheEntry.is_expired (CacheEntry.new k v t0 T) t1 = true.
Proof.
  intros Hpos Hlate. rewrite new_eq. unfold CacheEntry.is_expired.
  cbn [CacheEntry.ttl CacheEntry.timestamp].
  destruct (Z.leb_spec T 0); [lia|].
  destruct (Z.gtb_spec (t1 - t0) T); [reflexivity | lia].
Qed.


Lemma persistent_get_after_expiry (p : PersistentCache.t) (k : string) (v : pyval)
  (T t0 t1 : Z) :
  0 < T -> t0 + T < t1 ->
  fst (PersistentCache.get (PersistentCache.set p k v (Some T) t0) k t1) = VNone.
Proof.
  intros Hpos Hlate. destruct (picklable v) eqn:P.
  - rewrite (get_expired _ k (Pickled (CacheEntry.new k v t0 T)) (CacheEntry.new k v t0 T) t1).
    + reflexivity.
    + rewrite (set_dir p k v (Some T) t0 P). apply lookup_insert_eq.
    + rewrite load_entry_pickled. now rewrite post_init_new.
    + now apply is_expired_past.
  - rewrite (get_unreadable _ k Junk UnpicklingError t1).
    + reflexivity.
    + rewrite (set_dir_unpicklable p k v (Some T) t0 P). apply lookup_insert_eq.
    + reflexivity.
Qed.




(** ** [DeviceCache] *)

(** X16. Device information is written to both tiers, scan results to the
    memory tier only. Within their times to live both are read back from the
    manager they were written to; but a manager started afterwards on the
    same directory still returns the device information (when it pickles),
    and returns nothing for the scan when the directory held no file for it. *)
Theorem device_info_survives_a_restart_and_scan_results_do_not
  (d : DeviceCache.t) (c : CacheManager.t) (device_id scan_hash : string)
  (device_info devices : pyval) (memory_size t0 t1 : Z) :
  is_none device_info = false ->
  picklable device_info = true ->
  is_none devices = false ->
  PersistentCache.cache_dir (CacheManager.persistent_cache c)
    !! PersistentCache._get_cache_file (DeviceCache.device_scan_key scan_hash) = None ->
  within_ttl t0 (DeviceCache.device_info_ttl d) t1 ->
  within_ttl t0 (DeviceCache.device_scan_ttl d) t1 ->
  let c1 := DeviceCache.cache_device_info d c device_id device_info t0 in
  let c2 := DeviceCache.cache_scan_result d c scan_hash devices t0 in
  let restarted (c' : CacheManager.t) :=
    CacheManager.new (PersistentCache.cache_dir (CacheManager.persistent_cache c'))
      memory_size in
  fst (DeviceCache.get_device_info d c1 device_id t1) = device_info
  /\ fst (DeviceCache.get_device_info d (restarted c1) device_id t1) = device_info
  /\ fst (DeviceCache.get_scan_result d c2 scan_hash t1) = devices
  /\ fst (DeviceCache.get_scan_result d (restarted c2) scan_hash t1) = VNone.
Proof.
  intros Hinfo Pinfo Hdev Hnofile Hti Hts c1 c2 restarted.
  unfold DeviceCache.get_device_info, DeviceCache.get_scan_result.
  split; [|split; [|split]].
  - apply get_after_set_same_level; [exact Hinfo | discriminate | exact Hti].
  - rewrite manager_get_value.
    rewrite (memory_get_absent _ _ t1) by reflexivity. cbn [fst is_none].
    apply (get_after_set (CacheManager.persistent_cache c) _ device_info
             (Some (DeviceCache.device_info_ttl d)) t0 t1 Pinfo).
    + now apply within_ttl_not_expired.
    + unfold restarted, c1, DeviceCache.cache_device_info.
      now rewrite set_persistent_cache by reflexivity.
  - rewrite manager_get_value.
    unfold c2, DeviceCache.cache_scan_result.
    rewrite set_memory_cache by reflexivity.
    rewrite (memory_get_live _ _ _ t1 (memory_set_lookup _ _ _ _ _))
      by now apply within_ttl_not_expired.
    cbn [fst]. rewrite new_eq. cbn [CacheEntry.value]. now rewrite Hdev.
  - apply get_absent_from. unfold absent_from, restarted, c2, DeviceCache.cache_scan_result.
    split; intros _; [reflexivity|]. exact Hnofile.
Qed.

Lemma device_info_survives_a_restart_and_scan_results_do_not_witness :
  fst (DeviceCache.get_device_info DeviceCache.new
         (CacheManager.new
            (PersistentCache.cache_dir
               (CacheManager.persistent_cache
                  (DeviceCache.cache_device_info DeviceCache.new (CacheManager.new ∅ 8)
                     "R58M" (VDict [(VStr "model", VStr "SM-A515F")]) 100)))
            8)
         "R58M" 200)
  = VDict [(VStr "model", VStr "SM-A515F")]
  /\ fst (DeviceCache.get_scan_result DeviceCache.new
            (CacheManager.new
               (PersistentCache.cache_dir
                  (CacheManager.persistent_cache
                     (DeviceCache.cache_scan_result DeviceCache.new (CacheManager.new ∅ 8)
                        "usb" (VList [VStr "R58M"]) 100)))
               8)
            "usb" 200)
     = VNone.
Proof.
  destruct (device_info_survives_a_restart_and_scan_results_do_not
              DeviceCache.new (CacheManager.new ∅ 8) "R58M" "usb"
              (VDict [(VStr "model", VStr "SM-A515F")]) (VList [VStr "R58M"]) 8 100 200)
    as (_ & H1 & _ & H2).
  - reflexivity.
  - reflexivity.
  - reflexivity.
  - reflexivity.
  - right. simpl. lia.
  - right. simpl. lia.
  - split; [exact H1 | exact H2].
Defined.

(** X17. A bypass result is stored on disk for two hours, but a read copies
    it into the memory tier with that tier's own default time to live,
    counted from the read. So, the memory tier holding nothing under the key:
    without a read in between, [get_bypass_result] returns nothing once the
    two hours are over; after a read at [t1] within the two hours, it returns
    the result at any [t2] within the memory tier's default time to live of
    [t1], also later than two hours after the result was stored. *)
Theorem a_read_bypass_result_outlives_its_two_hours
  (d : DeviceCache.t) (c : CacheManager.t) (device_id method : string) (r : pyval)
  (t0 t1 t2 : Z) :
  is_none r = false ->
  picklable r = true ->
  dict_get (DeviceCache.bypass_result_key device_id method)
    (MemoryCache._cache (CacheManager.memory_cache c)) = None ->
  t1 <= t0 + 7200 ->
  within_ttl t1 (MemoryCache.default_ttl (CacheManager.memory_cache c)) t2 ->
  let c1 := DeviceCache.cache_bypass_result d c device_id method r t0 in
  let c2 := snd (DeviceCache.get_bypass_result d c1 device_id method t1) in
  fst (DeviceCache.get_bypass_result d c1 device_id method t1) = r
  /\ fst (DeviceCache.get_bypass_result d c2 device_id method t2) = r
  /\ (t0 + 7200 < t2 -> fst (DeviceCache.get_bypass_result d c1 device_id method t2) = VNone).
Proof.
  intros Hr P Habs Ht1 Ht2 c1 c2.
  set (k := DeviceCache.bypass_result_key device_id method) in *.
  assert (Hm1 : CacheManager.memory_cache c1 = CacheManager.memory_cache c).
  { unfold c1, DeviceCache.cache_bypass_result, CacheManager.set.
    cbn [uses_memory uses_persistent]. now destruct c. }
  assert (Hp1 : CacheManager.persistent_cache c1
                = PersistentCache.set (CacheManager.persistent_cache c) k r (Some 7200) t0).
  { unfold c1, DeviceCache.cache_bypass_result. now rewrite set_persistent_cache. }
  assert (Hmiss : forall t, MemoryCache.get (CacheManager.memory_cache c1) k t
                  = (VNone, MemoryCache.with_stats (CacheManager.memory_cache c)
                              (MemoryCache.count_miss
                                 (MemoryCache._stats (CacheManager.memory_cache c)))))
    by (intros t; rewrite Hm1; now apply memory_get_absent).
  assert (Hdisk : fst (PersistentCache.get (CacheManager.persistent_cache c1) k t1) = r).
  { apply (get_after_set (CacheManager.persistent_cache c) k r (Some 7200) t0 t1 P).
    - apply within_ttl_not_expired. right. lia.
    - now rewrite Hp1. }
  unfold DeviceCache.get_bypass_result in *. fold k in c2 |- *.
  split; [|split].
  - rewrite manager_get_value, Hmiss. cbn [fst is_none]. exact Hdisk.
  - assert (Hm2 : CacheManager.memory_cache c2
                  = MemoryCache.set
                      (MemoryCache.with_stats (CacheManager.memory_cache c)
                         (MemoryCache.count_miss
                            (MemoryCache._stats (CacheManager.memory_cache c))))
                      k r None t1).
    { unfold c2. rewrite get_both_memory_miss by now rewrite Hmiss.
      rewrite Hdisk, Hr, Hmiss. reflexivity. }
    rewrite get_both_memory_hit; rewrite Hm2;
      rewrite (memory_get_live _ k _ t2 (memory_set_lookup _ k r None t1))
        by (apply within_ttl_not_expired; exact Ht2);
      cbn [fst]; rewrite new_eq; cbn [CacheEntry.value]; [reflexivity | exact Hr].
  - intros Hlate. rewrite manager_get_value, Hmiss. cbn [fst is_none].
    rewrite Hp1. apply persistent_get_after_expiry; lia.
Qed.

Lemma a_read_bypass_result_outlives_its_two_hours_witness :
  fst (DeviceCache.get_bypass_result DeviceCache.new
         (snd (DeviceCache.get_bypass_result DeviceCache.new
                 (DeviceCache.cache_bypass_result DeviceCache.new (CacheManager.new ∅ 8)
                    "R58M" "adb" (VStr "ok") 0)
                 "R58M" "adb" 7000))
         "R58M" "adb" 10000) = VStr "ok"
  /\ fst (DeviceCache.get_bypass_result DeviceCache.new
            (DeviceCache.cache_bypass_result DeviceCache.new (CacheManager.new ∅ 8)
               "R58M" "adb" (VStr "ok") 0)
            "R58M" "adb" 10000) = VNone.
Proof.
  destruct (a_read_bypass_result_outlives_its_two_hours DeviceCache.new
              (CacheManager.new ∅ 8) "R58M" "adb" (VStr "ok") 0 7000 10000)
    as (_ & H2 & H3).
  - reflexivity.
  - reflexivity.
  - reflexivity.
  - lia.
  - right. simpl. lia.
  - split; [exact H2 | apply H3; lia].
Defined.

Lemma append_assoc (a b c : string) : (a +:+ b) +:+ c = a +:+ (b +:+ c).
Proof.
  induction a as [|x a IH]; [reflexivity|].
  change (String x ((a +:+ b) +:+ c) = String x (a +:+ (b +:+ c))). now rewrite IH.
Qed.

Lemma append_inj_l (p a b : string) : p +:+ a = p +:+ b -> a = b.
Proof.
  induction p as [|x p IH]; [tauto|].
  change (String x (p +:+ a) = String x (p +:+ b) -> a = b).
  intros H. injection H as H. now apply IH.
Qed.

(** The part before the first colon determines a string cut at a colon. *)
Lemma split_at_first_colon (a : string) : forall b x y : string,
  no_colon a = true -> no_colon b = true ->
  a +:+ ":" +:+ x = b +:+ ":" +:+ y -> a = b /\ x = y.
Proof.
  induction a as [|ca a IH]; intros [|cb b] x y Ha Hb E.
  - change (String ":" x = String ":" y) in E. injection E as E. now split.
  - change (String ":" x = String cb (b +:+ ":" +:+ y)) in E.
    injection E as Ec _. subst cb. discriminate.
  - change (String ca (a +:+ ":" +:+ x) = String ":" y) in E.
    injection E as Ec _. subst ca. discriminate.
  - change (String ca (a +:+ ":" +:+ x) = String cb (b +:+ ":" +:+ y)) in E.
    injection E as Ec E. subst cb. simpl in Ha, Hb.
    apply andb_prop in Ha as [_ Ha]. apply andb_prop in Hb as [_ Hb].
    destruct (IH b x y Ha Hb E) as [-> ->]. split; reflexivity.
Qed.

(** X18. The key of a bypass result joins the device id and the method with
    a colon. Two results of devices whose ids hold no colon have the same key
    only if they are of the same device and method; but an id that holds a
    colon shares its key with the shorter id and the longer method, and so
    its cached result. No such key is the key of device information or of a
    scan. *)
Theorem bypass_result_keys_of_colon_free_ids_are_distinct
  (id1 m1 id2 m2 : string) :
  no_colon id1 = true ->
  no_colon id2 = true ->
  (DeviceCache.bypass_result_key id1 m1 = DeviceCache.bypass_result_key id2 m2
   -> id1 = id2 /\ m1 = m2)
  /\ (forall x : string,
        DeviceCache.bypass_result_key (id1 +:+ ":" +:+ x) m1
        = DeviceCache.bypass_result_key id1 (x +:+ ":" +:+ m1))
  /\ (forall s : string,
        DeviceCache.bypass_result_key id1 m1 <> DeviceCache.device_info_key s
        /\ DeviceCache.bypass_result_key id1 m1 <> DeviceCache.device_scan_key s).
Proof.
  intros H1 H2. unfold DeviceCache.bypass_result_key. split; [|split].
  - intros E. apply append_inj_l in E.
    now apply split_at_first_colon.
  - intros x. now rewrite !append_assoc.
  - intros s. split; discriminate.
Qed.

Lemma bypass_result_keys_of_colon_free_ids_are_distinct_witness :
  DeviceCache.bypass_result_key "R58M:1" "adb" = DeviceCache.bypass_result_key "R58M" "1:adb"
  /\ DeviceCache.bypass_result_key "R58M" "adb" <> DeviceCache.device_info_key "R58M".
Proof.
  destruct (bypass_result_keys_of_colon_free_ids_are_distinct "R58M" "adb" "R58M" "adb")
    as (_ & Hshare & Hother); [reflexivity | reflexivity |].
  split; [exact (Hshare "1") | exact (proj1 (Hother "R58M"))].
Defined.

(** ** The shape of the keys and of the file names *)

Lemma le_bytes_range (n : nat) : forall w : Z, List.Forall byte_range (Md5.le_bytes n w).
Proof.
  induction n as [|n IH]; intros w; cbn [Md5.le_bytes]; constructor; [|apply IH].
  unfold byte_range.
  assert (E : Z.land w 255 = w mod 256) by (apply (Z.land_ones w 8); lia).
  rewrite E. pose proof (Z.mod_pos_bound w 256). lia.
Qed.

Lemma le_bytes_length (n : nat) : forall w : Z, List.length (Md5.le_bytes n w) = n.
Proof. induction n as [|n IH]; intros w; cbn [Md5.le_bytes List.length]; now rewrite ?IH. Qed.

Lemma hex_digit_is_hex (d : Z) : 0 <= d <= 15 -> is_hex_digit (Md5.hex_digit d) = true.
Proof.
  intros H.
  assert (Hd : d = 0 \/ d = 1 \/ d = 2 \/ d = 3 \/ d = 4 \/ d = 5 \/ d = 6 \/ d = 7
               \/ d = 8 \/ d = 9 \/ d = 10 \/ d = 11 \/ d = 12 \/ d = 13 \/ d = 14
               \/ d = 15) by lia.
  repeat (destruct Hd as [->|Hd]; [reflexivity|]). now subst d.
Qed.

Lemma hex_shape (bs : list Z) :
  List.Forall byte_range bs ->
  String.length (Md5.hex bs) = (2 * List.length bs)%nat /\ all_hex (Md5.hex bs) = true.
Proof.
  induction 1 as [|b bs Hb _ [IHlen IHhex]]; [split; reflexivity|].
  cbn [Md5.hex String.length List.length all_hex]. unfold byte_range in Hb.
  split; [rewrite IHlen; clear; lia|].
  rewrite IHhex, !hex_digit_is_hex; [reflexivity| |].
  - assert (E : Z.land b 15 = b mod 16) by (apply (Z.land_ones b 4); lia).
    rewrite E. pose proof (Z.mod_pos_bound b 16). lia.
  - assert (E : Z.shiftr b 4 = b / 16) by (apply (Z.shiftr_div_pow2 b 4); lia).
    rewrite E. split; [apply Z.div_pos; lia|].
    assert (b / 16 < 16) by (apply Z.div_lt_upper_bound; lia). lia.
Qed.

Lemma hexdigest_shape (s : string) :
  String.length (Md5.hexdigest s) = 32%nat /\ all_hex (Md5.hexdigest s) = true.
Proof.
  unfold Md5.hexdigest, Md5.digest. cbv zeta.
  set (r := List.fold_left Md5.process_block _ Md5.init).
  destruct (hex_shape (Md5.le_bytes 4 (Md5.rA r) ++ Md5.le_bytes 4 (Md5.rB r)
                       ++ Md5.le_bytes 4 (Md5.rC r) ++ Md5.le_bytes 4 (Md5.rD r)))
    as [Hlen Hhex].
  - repeat (apply List.Forall_app; split); apply le_bytes_range.
  - split; [|exact Hhex]. rewrite Hlen, !List.length_app, !le_bytes_length. reflexivity.
Qed.

(** X19. Whatever the key, the file [PersistentCache] uses for it is named by
    32 digits of lower-case hexadecimal followed by [.cache]: the characters
    of the key never reach the file system, and the file is one of those the
    sweep and [clear] look at. *)
Theorem cache_file_names_are_hexadecimal (k : string) :
  exists h : string,
    PersistentCache._get_cache_file k = h +:+ ".cache"
    /\ String.length h = 32%nat
    /\ all_hex h = true
    /\ ends_with ".cache" (PersistentCache._get_cache_file k) = true.
Proof.
  exists (Md5.hexdigest k). destruct (hexdigest_shape k) as [Hlen Hhex].
  split; [reflexivity|]. split; [exact Hlen|]. split; [exact Hhex|].
  apply cache_file_is_managed.
Qed.

(** ** [json.dumps] on dictionaries with string keys *)


Section SortedItems.
Context {A : Type}.
Implicit Types (it : string * A) (l r : list (string * A)).

Lemma ltb_trans (a b c : string) :
  String.ltb a b = true -> String.ltb b c = true -> String.ltb a c = true.
Proof.
  unfold String.ltb. intros Hab Hbc.
  destruct (String.compare a b) eqn:Eab; try discriminate.
  destruct (String.compare b c) eqn:Ebc; try discriminate.
  apply (proj1 (OrderedTypeEx.String_as_OT.cmp_lt a b)) in Eab.
  apply (proj1 (OrderedTypeEx.String_as_OT.cmp_lt b c)) in Ebc.
  pose proof (OrderedTypeEx.String_as_OT.lt_trans a b c Eab Ebc) as Hac.
  apply (proj2 (OrderedTypeEx.String_as_OT.cmp_lt a c)) in Hac.
  unfold OrderedTypeEx.String_as_OT.cmp in Hac. now rewrite Hac.
Qed.

Lemma ltb_asym (a b : string) : String.ltb a b = true -> String.ltb b a = false.
Proof.
  unfold String.ltb. rewrite (String.compare_antisym b a).
  now destruct (String.compare a b).
Qed.

Lemma ltb_total (a b : string) : String.ltb a b = false -> a <> b -> String.ltb b a = true.
Proof.
  unfold String.ltb. intros Hab Hne. rewrite (String.compare_antisym b a).
  destruct (String.compare a b) eqn:E; try discriminate; [|reflexivity].
  apply String.compare_eq_iff in E. contradiction.
Qed.

Lemma insert_item_str_cons it it' (rest : list (pyval * A)) :
  Json.insert_item (str_item it) (str_item it' :: rest)
  = if String.ltb (fst it) (fst it') then Ok (str_item it :: str_item it' :: rest)
    else (r' ← Json.insert_item (str_item it) rest; Ok (str_item it' :: r')).
Proof. reflexivity. Qed.

Lemma insert_item_str it r :
  exists r',
    Json.insert_item (str_item it) (List.map str_item r) = Ok (List.map str_item r')
    /\ Permutation (it :: r) r'
    /\ (~ In (fst it) (List.map fst r) -> StronglySorted key_before r ->
        StronglySorted key_before r').
Proof.
  induction r as [|it' r IH].
  - exists [it]. split; [reflexivity|]. split; [reflexivity|].
    intros _ _. repeat constructor.
  - change (List.map str_item (it' :: r)) with (str_item it' :: List.map str_item r).
    rewrite insert_item_str_cons.
    destruct (String.ltb (fst it) (fst it')) eqn:Hlt.
    + exists (it :: it' :: r). split; [reflexivity|]. split; [reflexivity|].
      intros _ Hs. constructor; [exact Hs|].
      constructor; [exact Hlt|].
      apply StronglySorted_inv in Hs as [_ Hall].
      eapply List.Forall_impl; [|exact Hall]. intros x Hx.
      unfold key_before in *. now apply (ltb_trans _ (fst it')).
    + destruct IH as (r' & E & Hperm & Hsorted).
      exists (it' :: r'). rewrite E. split; [reflexivity|].
      split; [rewrite perm_swap; now constructor|].
      intros Hnotin Hs. apply StronglySorted_inv in Hs as [Hs Hall].
      constructor.
      * apply Hsorted; [|exact Hs]. intros Hin. apply Hnotin. now right.
      * eapply Permutation_Forall; [exact Hperm|].
        constructor; [|exact Hall].
        unfold key_before. apply ltb_total; [exact Hlt|].
        intros Heq. apply Hnotin. now left.
Qed.

Lemma sort_items_str l :
  exists r,
    Json.sort_items (List.map str_item l) = Ok (List.map str_item r)
    /\ Permutation l r
    /\ (List.NoDup (List.map fst l) -> StronglySorted key_before r).
Proof.
  induction l as [|it l (r & E & Hperm & Hsorted)].
  - exists []. split; [reflexivity|]. split; [reflexivity|]. intros _. constructor.
  - change (Json.sort_items (List.map str_item (it :: l)))
      with (s ← Json.sort_items (List.map str_item l); Json.insert_item (str_item it) s).
    rewrite E.
    change (Ok (List.map str_item r) ≫= Json.insert_item (str_item it))
      with (Json.insert_item (str_item it) (List.map str_item r)).
    destruct (insert_item_str it r) as (r' & E' & Hperm' & Hsorted').
    exists r'. split; [exact E'|].
    split; [rewrite <- Hperm'; now constructor|].
    intros Hnd. apply List.NoDup_cons_iff in Hnd as [Hnotin Hnd].
    apply Hsorted'; [|now apply Hsorted].
    intros Hin. apply Hnotin.
    apply (Permutation_in _ (Permutation_sym (Permutation_map fst Hperm))). exact Hin.
Qed.

(** Items with distinct string keys are sorted the same way whatever the
    order they come in. *)
Lemma sort_items_permutation l l' :
  List.NoDup (List.map fst l) -> Permutation l l' ->
  Json.sort_items (List.map str_item l) = Json.sort_items (List.map str_item l').
Proof.
  intros Hnd Hperm.
  destruct (sort_items_str l) as (r & E & Hp & Hs).
  destruct (sort_items_str l') as (r' & E' & Hp' & Hs').
  rewrite E, E'. do 2 f_equal.
  apply (StronglySorted_unique_strong key_before).
  - intros x1 x2 _ _ H12 H21. unfold key_before in *.
    rewrite (ltb_asym _ _ H12) in H21. discriminate.
  - now apply Hs.
  - apply Hs'. eapply Permutation_NoDup; [|exact Hnd]. now apply Permutation_map.
  - now rewrite <- Hp, Hperm.
Qed.
End SortedItems.

Lemma encode_dict (items : list (pyval * pyval)) :
  Json.encode (VDict items)
  = (sorted ← Json.sort_items
                (List.map (fun kv => (fst kv, Json.encode (snd kv))) items);
     parts ← sequence (List.map Json.member sorted);
     Ok ("{" +:+ Json.join ", " parts +:+ "}")).
Proof. reflexivity. Qed.

Lemma encode_str_dict (l : list (string * pyval)) :
  Json.encode (VDict (List.map str_item l))
  = (sorted ← Json.sort_items
                (List.map str_item
                   (List.map (fun kv => (fst kv, Json.encode (snd kv))) l));
     parts ← sequence (List.map Json.member sorted);
     Ok ("{" +:+ Json.join ", " parts +:+ "}")).
Proof. rewrite encode_dict, !List.map_map. reflexivity. Qed.

(** The dump of a dictionary of three items depends on the third value
    through its dump only. *)
Lemma encode_dict_third (x y : pyval * pyval) (k d1 d2 : pyval) :
  Json.encode d1 = Json.encode d2 ->
  Json.encode (VDict [x; y; (k, d1)]) = Json.encode (VDict [x; y; (k, d2)]).
Proof. intros E. rewrite !encode_dict. cbn [List.map fst snd]. now rewrite E. Qed.

(** X20. The key of a memoized call does not depend on the order in which
    the keyword arguments are written: two calls of one function with the
    same positional arguments and the same keyword arguments in any two
    orders get the same key, or fail alike. *)
Theorem function_key_ignores_the_order_of_keywords
  (func : callable) (args : list pyval) (kwargs kwargs' : list (string * pyval)) :
  List.NoDup (List.map fst kwargs) ->
  Permutation kwargs kwargs' ->
  CacheManager.function_key func args kwargs = CacheManager.function_key func args kwargs'.
Proof.
  intros Hnd Hperm.
  assert (E : Json.encode (VDict (List.map str_item kwargs))
              = Json.encode (VDict (List.map str_item kwargs'))).
  { rewrite !encode_str_dict.
    rewrite (sort_items_permutation
               (List.map (fun kv => (fst kv, Json.encode (snd kv))) kwargs)
               (List.map (fun kv => (fst kv, Json.encode (snd kv))) kwargs')).
    - reflexivity.
    - rewrite List.map_map. exact Hnd.
    - now apply Permutation_map. }
  assert (D : Json.dumps (CacheManager.key_data func args kwargs)
              = Json.dumps (CacheManager.key_data func args kwargs')).
  { unfold Json.dumps, CacheManager.key_data. apply encode_dict_third. exact E. }
  unfold CacheManager.function_key. now rewrite D.
Qed.

Lemma function_key_ignores_the_order_of_keywords_witness :
  CacheManager.function_key {| func_name := "scan"; func_call := fun _ _ => VNone |}
    [VStr "usb"] [("timeout", VInt 5); ("deep", VBool true)]
  = CacheManager.function_key {| func_name := "scan"; func_call := fun _ _ => VNone |}
      [VStr "usb"] [("deep", VBool true); ("timeout", VInt 5)].
Proof.
  apply (function_key_ignores_the_order_of_keywords
           {| func_name := "scan"; func_call := fun _ _ => VNone |} [VStr "usb"]
           [("timeout", VInt 5); ("deep", VBool true)]
           [("deep", VBool true); ("timeout", VInt 5)]).
  - repeat constructor; simpl; intuition discriminate.
  - apply perm_swap.
Defined.






(** ** The sweep, twice *)

Lemma sweep_nothing_stale (now : Z) (names : list string) :
  forall (n : Z) (dir : gmap string file),
    (forall name f, In name names -> dir !! name = Some f ->
                    PersistentCache.stale now f = false) ->
    List.fold_left (PersistentCache.sweep_file now) names (n, dir) = (n, dir).
Proof.
  induction names as [|a names IH]; intros n dir H; [reflexivity|].
  cbn [List.fold_left]. unfold PersistentCache.sweep_file at 2.
  destruct (dir !! a) as [f|] eqn:Ea.
  - rewrite (H a f (or_introl eq_refl) Ea). apply IH.
    intros name f' Hin. apply H. now right.
  - apply IH. intros name f' Hin. apply H. now right.
Qed.

Lemma persistent_cleanup_twice (p : PersistentCache.t) (now : Z) :
  PersistentCache.cleanup_expired (snd (PersistentCache.cleanup_expired p now)) now
  = (0, snd (PersistentCache.cleanup_expired p now)).
Proof.
  set (p1 := snd (PersistentCache.cleanup_expired p now)).
  unfold PersistentCache.cleanup_expired at 1.
  rewrite sweep_nothing_stale; [now destruct p1|].
  intros name f Hin Hf. unfold PersistentCache.glob in Hin.
  apply List.filter_In in Hin as [_ Hends].
  unfold p1 in Hf. rewrite cleanup_expired_lookup, Hends in Hf.
  destruct (PersistentCache.cache_dir p !! name) as [f0|]; [|discriminate].
  cbn [andb] in Hf. destruct (PersistentCache.stale now f0) eqn:S; [discriminate|].
  injection Hf as <-. exact S.
Qed.

Lemma expire_no_keys (m : MemoryCache.t) (now : Z) :
  MemoryCache.expired_keys (MemoryCache._cache m) now = [] ->
  MemoryCache.cleanup_expired m now = (0, m).
Proof. intros H. unfold MemoryCache.cleanup_expired. cbv zeta. now rewrite H. Qed.

Lemma memory_cleanup_twice (m : MemoryCache.t) (now : Z) :
  dict_wf (MemoryCache._cache m) ->
  MemoryCache.cleanup_expired (snd (MemoryCache.cleanup_expired m now)) now
  = (0, snd (MemoryCache.cleanup_expired m now)).
Proof.
  intros Hwf. apply expire_no_keys. rewrite (cleanup_expired_cache m now Hwf).
  unfold MemoryCache.expired_keys. clear Hwf.
  induction (MemoryCache._cache m) as [|[k e] c IH]; [reflexivity|].
  cbn [List.filter snd]. destruct (CacheEntry.is_expired e now) eqn:X; cbn [negb].
  - exact IH.
  - cbn [List.filter snd]. rewrite X. exact IH.
Qed.

(** X22. The sweep is idempotent: provided the keys of the memory store are
    distinct, a second [CacheManager.cleanup_expired] at the time of the
    first removes nothing from either tier, reports two zeros and leaves the
    manager as the first sweep left it. *)
Theorem a_second_sweep_removes_nothing (c : CacheManager.t) (now : Z) :
  dict_wf (MemoryCache._cache (CacheManager.memory_cache c)) ->
  CacheManager.cleanup_expired (snd (CacheManager.cleanup_expired c now)) now
  = ((0, 0), snd (CacheManager.cleanup_expired c now)).
Proof.
  intros Hwf.
  assert (E : snd (CacheManager.cleanup_expired c now)
              = CacheManager.make
                  (snd (MemoryCache.cleanup_expired (CacheManager.memory_cache c) now))
                  (snd (PersistentCache.cleanup_expired
                          (CacheManager.persistent_cache c) now))).
  { unfold CacheManager.cleanup_expired.
    destruct (MemoryCache.cleanup_expired _ now), (PersistentCache.cleanup_expired _ now).
    reflexivity. }
  rewrite E. unfold CacheManager.cleanup_expired at 1.
  cbn [CacheManager.memory_cache CacheManager.persistent_cache].
  rewrite (memory_cleanup_twice _ now Hwf), persistent_cleanup_twice. reflexivity.
Qed.

Lemma a_second_sweep_removes_nothing_witness :
  fst (CacheManager.cleanup_expired
         (snd (CacheManager.cleanup_expired
                 (CacheManager.set (CacheManager.new ∅ 8) "k" (VStr "v") (Some 60) BOTH 100)
                 200))
         200) = (0, 0).
Proof.
  rewrite (a_second_sweep_removes_nothing
             (CacheManager.set (CacheManager.new ∅ 8) "k" (VStr "v") (Some 60) BOTH 100) 200).
  - reflexivity.
  - repeat constructor; simpl; intuition discriminate.
Defined.

(** ** What is written to a file is read back *)

(** X23. An entry whose value pickles is read back from the file that
    [pickle.dump] wrote for it: the constructor rebuilds it field by field,
    except that a last access time of 0 comes back as the creation time. An
    entry whose value does not pickle leaves a file that cannot be read. *)
Theorem a_dumped_entry_is_loaded_back (e : CacheEntry.t) :
  (picklable (CacheEntry.value e) = true ->
   snd (pickle_dump e) = Ok tt
   /\ PersistentCache.load_entry (fst (pickle_dump e))
      = Ok (CacheEntry.make (CacheEntry.key e) (CacheEntry.value e)
              (CacheEntry.timestamp e) (CacheEntry.ttl e) (CacheEntry.access_count e)
              (if CacheEntry.last_access e =? 0 then CacheEntry.timestamp e
               else CacheEntry.last_access e)))
  /\ (picklable (CacheEntry.value e) = false ->
      snd (pickle_dump e) = Raise PicklingError
      /\ PersistentCache.load_entry (fst (pickle_dump e)) = Raise UnpicklingError).
Proof.
  unfold pickle_dump. rewrite picklable_to_dict.
  split; intros ->; cbn [fst snd]; (split; [reflexivity|]).
  - rewrite load_entry_pickled. unfold CacheEntry.post_init.
    destruct e as [k v ts tl n la]. cbn. now destruct (la =? 0).
  - reflexivity.
Qed.
